(** * Field type detection (src/utils/fieldDetection.ts)

    A shallow embedding of the column classifier [detectFieldType], of its
    helpers [isTemporalField], [hasIdFieldName], [looksLikeId] and
    [isOrdinalString], and of the batch wrapper [detectAllFields].

    [Module FileParser] embeds the file checks of src/utils/fileParser.ts,
    [Module AppContext] the reducer and the filter helpers of
    src/context/AppContext.tsx together with the row filter of
    src/components/DataTableView.tsx.

    The JavaScript built-ins the code relies on are modelled in [Module Js]:

    - a number is an IEEE 754 binary64 value, [spec_float] with precision 53
      and maximal exponent 1024; arithmetic and comparisons are those of
      [SpecFloat], rounding to nearest, ties to even;
    - a string is its sequence of UTF-16 code units, a [list N];
    - [Number(text)] follows the StringNumericLiteral grammar and rounds the
      mathematical value of the literal to the nearest double;
    - [new Set(xs).size] counts the classes of SameValueZero;
    - a row is a plain object, its own properties in key order with
      [Object.prototype] as prototype: reading a property the row lacks
      gives the member of [Object.prototype] of that name, an object, and
      [undefined] when there is none;
    - [RegExp.prototype.test] on a pattern without [g] or [y] flag is
      membership of the text in the language of the pattern;
    - array lengths, set sizes and loop counters, which are always small
      non-negative integers, are kept as [nat] and turned into doubles where
      the code multiplies, divides or compares them with a fraction. *)

From Stdlib Require Import Ascii String ZArith NArith List Bool Lia.
From Stdlib Require Import Permutation DecimalString.
From Stdlib Require Import Floats.SpecFloat.
Import ListNotations.


(* ================================================================== *)
(** * JavaScript values and built-ins *)

Module Js.

(** ** Numbers *)

Definition prec : Z := 53.
Definition emax : Z := 1024.

Definition number : Type := spec_float.

Definition NaN : number := S754_nan.
Definition Infinity : number := S754_infinity false.
Definition NegInfinity : number := S754_infinity true.

Definition of_Z (z : Z) : number := binary_normalize prec emax z 0 false.
Definition of_nat (n : nat) : number := of_Z (Z.of_nat n).

Definition add : number -> number -> number := SFadd prec emax.
Definition sub : number -> number -> number := SFsub prec emax.
Definition mul : number -> number -> number := SFmul prec emax.
Definition div : number -> number -> number := SFdiv prec emax.

(** [x < y], [x > y], [x <= y], [x >= y] and [x === y] on numbers. *)
Definition lt (x y : number) : bool := SFltb x y.
Definition gt (x y : number) : bool := SFltb y x.
Definition le (x y : number) : bool := SFleb x y.
Definition ge (x y : number) : bool := SFleb y x.
Definition num_eq (x y : number) : bool := SFeqb x y.

Definition isNaN (x : number) : bool :=
  match x with S754_nan => true | _ => false end.

(** [Number.isInteger] *)
Definition isInteger (x : number) : bool :=
  match x with
  | S754_zero _ => true
  | S754_finite _ m e =>
      (0 <=? e)%Z || (Z.pos m mod 2 ^ (- e) =? 0)%Z
  | _ => false
  end.

(** [Math.min(a, b)] and [Math.max(a, b)]: NaN is contagious and -0 is
    below +0. *)
Definition min2 (a b : number) : number :=
  if isNaN a || isNaN b then NaN
  else if lt b a then b
  else if lt a b then a
  else match a, b with
       | S754_zero true, _ => a
       | _, S754_zero true => b
       | _, _ => a
       end.

Definition max2 (a b : number) : number :=
  if isNaN a || isNaN b then NaN
  else if lt a b then b
  else if lt b a then a
  else match a, b with
       | S754_zero false, _ => a
       | _, S754_zero false => b
       | _, _ => a
       end.

(** [Math.min(...xs)] and [Math.max(...xs)] *)
Definition Math_min (xs : list number) : number := fold_left min2 xs Infinity.
Definition Math_max (xs : list number) : number := fold_left max2 xs NegInfinity.

(** ** Strings *)

Definition char : Type := N.
Definition jstring : Type := list char.

Definition chr (a : ascii) : char := N_of_ascii a.

(** The code units of an ASCII literal. *)
Definition str (s : string) : jstring := map chr (list_ascii_of_string s).

Fixpoint jstring_eqb (s t : jstring) : bool :=
  match s, t with
  | [], [] => true
  | c :: s', d :: t' => (c =? d)%N && jstring_eqb s' t'
  | _, _ => false
  end.

Definition isDigit (c : char) : bool := ((48 <=? c) && (c <=? 57))%N.

(** WhiteSpace and LineTerminator code points: what [\s] matches and what
    [Number] strips from both ends of a text. *)
Definition isLineTerminator (c : char) : bool :=
  ((c =? 10) || (c =? 13) || (c =? 8232) || (c =? 8233))%N.

Definition isWhiteSpace (c : char) : bool :=
  ((c =? 9) || (c =? 11) || (c =? 12) || (c =? 32) || (c =? 160)
   || (c =? 5760) || ((8192 <=? c) && (c <=? 8202))
   || (c =? 8239) || (c =? 8287) || (c =? 12288) || (c =? 65279))%N.

Definition isStrWhiteSpaceChar (c : char) : bool :=
  isWhiteSpace c || isLineTerminator c.

(** ** [Number(text)]: StringToNumber *)

Fixpoint trim_start (s : jstring) : jstring :=
  match s with
  | [] => []
  | c :: s' => if isStrWhiteSpaceChar c then trim_start s' else s
  end.

Fixpoint trim_end (s : jstring) : jstring :=
  match s with
  | [] => []
  | c :: s' =>
      match trim_end s' with
      | [] => if isStrWhiteSpaceChar c then [] else [c]
      | t => c :: t
      end
  end.

Definition trim (s : jstring) : jstring := trim_end (trim_start s).

(** The longest prefix of [s] whose characters satisfy [p], and the rest. *)
Fixpoint span (p : char -> bool) (s : jstring) : jstring * jstring :=
  match s with
  | [] => ([], [])
  | c :: s' =>
      if p c then let '(a, b) := span p s' in (c :: a, b) else ([], s)
  end.

(** The value of a digit in a radix up to 16, when it is one. *)
Definition digit_value (c : char) : option Z :=
  if isDigit c then Some (Z.of_N (c - 48))
  else if ((97 <=? c) && (c <=? 102))%N then Some (Z.of_N (c - 87))
  else if ((65 <=? c) && (c <=? 70))%N then Some (Z.of_N (c - 55))
  else None.

Definition isRadixDigit (radix : Z) (c : char) : bool :=
  match digit_value c with
  | Some d => (d <? radix)%Z
  | None => false
  end.

Definition digits_value (radix : Z) (ds : jstring) : Z :=
  fold_left
    (fun acc c => match digit_value c with
                  | Some d => acc * radix + d
                  | None => acc
                  end)%Z
    ds 0%Z.

(** The mathematical value of a literal before rounding. *)
Inductive literal : Type :=
| LitInfinity
| LitDecimal (mantissa : Z) (exp10 : Z)
| LitInteger (n : Z).

(** ExponentPart, or nothing, up to the end of the text. *)
Definition parse_exponent (s : jstring) : option Z :=
  match s with
  | [] => Some 0%Z
  | c :: r =>
      if ((c =? chr "e") || (c =? chr "E"))%N then
        let '(neg, r') :=
          match r with
          | sg :: r'' =>
              if (sg =? chr "+")%N then (false, r'')
              else if (sg =? chr "-")%N then (true, r'')
              else (false, r)
          | [] => (false, r)
          end in
        let '(ds, rest) := span isDigit r' in
        match ds, rest with
        | _ :: _, [] =>
            Some (if neg then - digits_value 10 ds else digits_value 10 ds)%Z
        | _, _ => None
        end
      else None
  end.

(** StrUnsignedDecimalLiteral *)
Definition parse_unsigned_decimal (s : jstring) : option literal :=
  if jstring_eqb s (str "Infinity") then Some LitInfinity
  else
    let '(ip, r1) := span isDigit s in
    let '(fp, r2) :=
      match r1 with
      | c :: r => if (c =? chr ".")%N then span isDigit r else ([], r1)
      | [] => ([], [])
      end in
    match ip ++ fp with
    | [] => None
    | ds =>
        match parse_exponent r2 with
        | Some e =>
            Some (LitDecimal (digits_value 10 ds) (e - Z.of_nat (length fp)))
        | None => None
        end
    end.

(** NonDecimalIntegerLiteral: [0x], [0o] and [0b] prefixes, no sign. *)
Definition parse_non_decimal (s : jstring) : option literal :=
  match s with
  | z :: p :: ds =>
      if (z =? chr "0")%N then
        let radix :=
          if ((p =? chr "x") || (p =? chr "X"))%N then Some 16%Z
          else if ((p =? chr "o") || (p =? chr "O"))%N then Some 8%Z
          else if ((p =? chr "b") || (p =? chr "B"))%N then Some 2%Z
          else None in
        match radix, ds with
        | Some r, _ :: _ =>
            if forallb (isRadixDigit r) ds
            then Some (LitInteger (digits_value r ds))
            else None
        | _, _ => None
        end
      else None
  | _ => None
  end.

(** The double nearest to [n / d]. *)
Definition round_ratio (neg : bool) (n d : positive) : number :=
  let '(q, e, l) := SFdiv_core_binary prec emax (Zpos n) 0 (Zpos d) 0 in
  binary_round_aux prec emax neg q e l.

Definition number_of_literal (neg : bool) (l : literal) : number :=
  match l with
  | LitInfinity => S754_infinity neg
  | LitInteger n => binary_normalize prec emax n 0 neg
  | LitDecimal m e =>
      match m with
      | Zpos p =>
          if (0 <=? e)%Z
          then binary_round prec emax neg (p * Z.to_pos (10 ^ e)) 0
          else round_ratio neg p (Z.to_pos (10 ^ (- e)))
      | _ => S754_zero neg
      end
  end.

(** StrNumericLiteral *)
Definition parse_numeric (s : jstring) : option number :=
  match parse_non_decimal s with
  | Some l => Some (number_of_literal false l)
  | None =>
      let '(neg, u) :=
        match s with
        | c :: r =>
            if (c =? chr "+")%N then (false, r)
            else if (c =? chr "-")%N then (true, r)
            else (false, s)
        | [] => (false, s)
        end in
      match parse_unsigned_decimal u with
      | Some l => Some (number_of_literal neg l)
      | None => None
      end
  end.

Definition StringToNumber (s : jstring) : number :=
  match trim s with
  | [] => S754_zero false
  | t => match parse_numeric t with
         | Some x => x
         | None => NaN
         end
  end.

(** ** Values *)

(** The objects every plain object inherits from: [Object.prototype]
    itself, which [__proto__] reads, and the values of its members, the
    constructor [Object] and eleven built-in functions (ECMA-262, 20.1.3
    and B.2.2).  They are distinct objects. *)
Inductive builtin : Type :=
| Object_prototype_
| Object_
| Object_defineGetter
| Object_defineSetter
| Object_hasOwnProperty
| Object_lookupGetter
| Object_lookupSetter
| Object_isPrototypeOf
| Object_propertyIsEnumerable
| Object_toString
| Object_valueOf
| Object_toLocaleString.

Definition builtin_index (o : builtin) : nat :=
  match o with
  | Object_prototype_ => 0
  | Object_ => 1
  | Object_defineGetter => 2
  | Object_defineSetter => 3
  | Object_hasOwnProperty => 4
  | Object_lookupGetter => 5
  | Object_lookupSetter => 6
  | Object_isPrototypeOf => 7
  | Object_propertyIsEnumerable => 8
  | Object_toString => 9
  | Object_valueOf => 10
  | Object_toLocaleString => 11
  end.

(** Two references to built-in objects are the same object. *)
Definition builtin_eqb (a b : builtin) : bool :=
  Nat.eqb (builtin_index a) (builtin_index b).

(** The values of the cells of a table: the primitive values, and the
    built-in objects a row can inherit. *)
Inductive value : Type :=
| VUndefined
| VNull
| VBool (b : bool)
| VNum (x : number)
| VStr (s : jstring)
| VObject (o : builtin).

Inductive js_type : Type :=
| TUndefined | TObject | TBoolean | TNumber | TString | TFunction.

Definition typeof (v : value) : js_type :=
  match v with
  | VUndefined => TUndefined
  | VNull => TObject
  | VBool _ => TBoolean
  | VNum _ => TNumber
  | VStr _ => TString
  | VObject Object_prototype_ => TObject
  | VObject _ => TFunction
  end.

Definition js_type_eqb (a b : js_type) : bool :=
  match a, b with
  | TUndefined, TUndefined | TObject, TObject | TBoolean, TBoolean
  | TNumber, TNumber | TString, TString | TFunction, TFunction => true
  | _, _ => false
  end.

(** [Number(v)]; the text of [Object.prototype] is '[object Object]' and
    that of a built-in function starts with 'function', neither of which
    is a numeric literal. *)
Definition Number_ (v : value) : number :=
  match v with
  | VUndefined => NaN
  | VNull => S754_zero false
  | VBool b => if b then of_Z 1 else S754_zero false
  | VNum x => x
  | VStr s => StringToNumber s
  | VObject _ => NaN
  end.

(** [a === b] *)
Definition strict_eq (a b : value) : bool :=
  match a, b with
  | VUndefined, VUndefined => true
  | VNull, VNull => true
  | VBool x, VBool y => Bool.eqb x y
  | VNum x, VNum y => num_eq x y
  | VStr s, VStr t => jstring_eqb s t
  | VObject o, VObject o' => builtin_eqb o o'
  | _, _ => false
  end.

(** [v == null] *)
Definition loose_eq_null (v : value) : bool :=
  match v with
  | VUndefined | VNull => true
  | _ => false
  end.

(** SameValueZero, the equality of [Set] members. *)
Definition same_value_zero (a b : value) : bool :=
  match a, b with
  | VNum x, VNum y => (isNaN x && isNaN y) || num_eq x y
  | _, _ => strict_eq a b
  end.

(** [new Set(xs)]: the members in insertion order. *)
Definition Set_add (members : list value) (v : value) : list value :=
  if existsb (same_value_zero v) members then members else members ++ [v].

Definition new_Set (xs : list value) : list value := fold_left Set_add xs [].

Definition Set_size (xs : list value) : nat := length (new_Set xs).

(** ** Sorting

    [xs.sort(cmp)] is stable; [cmp a b] is the sign test [cmp(a, b) > 0]. *)
Fixpoint sort_insert (gtb : number -> number -> bool) (x : number)
         (l : list number) : list number :=
  match l with
  | [] => [x]
  | y :: l' => if gtb x y then y :: sort_insert gtb x l' else x :: l
  end.

Definition sort (gtb : number -> number -> bool) (xs : list number)
  : list number :=
  fold_right (sort_insert gtb) [] xs.

(** ** Regular expressions *)

Inductive atom : Type :=
| AChar (c : char)          (* a literal character *)
| ASet (cs : list char)     (* [...] *)
| ADigit                    (* \d *)
| ASpace                    (* \s *)
| ADot                      (* . *)
| AAny.                     (* any code unit; the implicit search prefix *)

Inductive regex : Type :=
| Empty
| Eps
| Atom (a : atom)
| Cat (r1 r2 : regex)
| Alt (r1 r2 : regex)
| Star (r : regex).

(** Canonicalize of the [i] flag without [u]: the upper-case mapping, never
    from a non-ASCII code unit to an ASCII one.  It is given exactly on ASCII;
    a non-ASCII code unit is left as it is, which agrees with the real
    mapping on every comparison with an ASCII character, the only ones the
    patterns below make. *)
Definition canonicalize (c : char) : char :=
  if ((97 <=? c) && (c <=? 122))%N then (c - 32)%N else c.

Definition char_eq (ignoreCase : bool) (c d : char) : bool :=
  if ignoreCase then (canonicalize c =? canonicalize d)%N else (c =? d)%N.

Definition atom_matches (ignoreCase : bool) (a : atom) (c : char) : bool :=
  match a with
  | AChar d => char_eq ignoreCase d c
  | ASet ds => existsb (fun d => char_eq ignoreCase d c) ds
  | ADigit => isDigit c
  | ASpace => isStrWhiteSpaceChar c
  | ADot => negb (isLineTerminator c)
  | AAny => true
  end.

Fixpoint nullable (r : regex) : bool :=
  match r with
  | Empty => false
  | Eps => true
  | Atom _ => false
  | Cat r1 r2 => nullable r1 && nullable r2
  | Alt r1 r2 => nullable r1 || nullable r2
  | Star _ => true
  end.

(** The derivative of a pattern by a character. *)
Fixpoint deriv (ic : bool) (c : char) (r : regex) : regex :=
  match r with
  | Empty => Empty
  | Eps => Empty
  | Atom a => if atom_matches ic a c then Eps else Empty
  | Cat r1 r2 =>
      if nullable r1
      then Alt (Cat (deriv ic c r1) r2) (deriv ic c r2)
      else Cat (deriv ic c r1) r2
  | Alt r1 r2 => Alt (deriv ic c r1) (deriv ic c r2)
  | Star r1 => Cat (deriv ic c r1) (Star r1)
  end.

Fixpoint matches (ic : bool) (r : regex) (s : jstring) : bool :=
  match s with
  | [] => nullable r
  | c :: s' => matches ic (deriv ic c r) s'
  end.

(** Pattern syntax. *)
Definition lit (s : string) : regex :=
  fold_right (fun a r => Cat (Atom (AChar (chr a))) r) Eps
             (list_ascii_of_string s).

Definition set (s : string) : regex := Atom (ASet (str s)).

Definition cats (rs : list regex) : regex := fold_right Cat Eps rs.

Definition alts (rs : list regex) : regex := fold_right Alt Empty rs.

Definition opt (r : regex) : regex := Alt Eps r.

Definition plus (r : regex) : regex := Cat r (Star r).

(** [r{n}] *)
Fixpoint times (n : nat) (r : regex) : regex :=
  match n with
  | O => Eps
  | S n' => Cat r (times n' r)
  end.

(** [r{0,n}] *)
Fixpoint upto (n : nat) (r : regex) : regex :=
  match n with
  | O => Eps
  | S n' => opt (Cat r (upto n' r))
  end.

(** [r{m,n}] *)
Definition rep (m n : nat) (r : regex) : regex :=
  Cat (times m r) (upto (n - m) r).

(** A pattern literal [/^...$/i]: whether it opens with [^], its body,
    whether it closes with [$], and the [i] flag.  None of the patterns of
    the program has the [g] or [y] flag, so [test] neither reads nor writes
    [lastIndex]. *)
Record RegExp : Type := mkRegExp {
  anchored_start : bool;
  body : regex;
  anchored_end : bool;
  ignoreCase : bool
}.

Definition full_pattern (p : RegExp) : regex :=
  Cat (if anchored_start p then Eps else Star (Atom AAny))
      (Cat (body p)
           (if anchored_end p then Eps else Star (Atom AAny))).

(** [pattern.test(s)] *)
Definition test (p : RegExp) (s : jstring) : bool :=
  matches (ignoreCase p) (full_pattern p) s.

(** ** The language of a pattern

    What [matches] decides, stated on the structure of the pattern. *)
Fixpoint lang (ic : bool) (r : regex) (s : jstring) {struct r} : Prop :=
  match r with
  | Empty => False
  | Eps => s = []
  | Atom a => exists c, s = [c] /\ atom_matches ic a c = true
  | Cat r1 r2 =>
      exists s1 s2, s = s1 ++ s2 /\ lang ic r1 s1 /\ lang ic r2 s2
  | Alt r1 r2 => lang ic r1 s \/ lang ic r2 s
  | Star r1 => exists ss, s = concat ss /\ Forall (lang ic r1) ss
  end.

(** The atoms a match of the pattern can begin with. *)
Fixpoint first_atoms (r : regex) : list atom :=
  match r with
  | Empty | Eps => []
  | Atom a => [a]
  | Cat r1 r2 =>
      first_atoms r1 ++ (if nullable r1 then first_atoms r2 else [])
  | Alt r1 r2 => first_atoms r1 ++ first_atoms r2
  | Star r1 => first_atoms r1
  end.

(** Equality of two texts up to the case of ASCII letters. *)
Fixpoint jstring_eqb_ci (s t : jstring) : bool :=
  match s, t with
  | [], [] => true
  | c :: s', d :: t' => char_eq true c d && jstring_eqb_ci s' t'
  | _, _ => false
  end.

(** A representative of the SameValueZero class of a value: the two zeros
    are one member of a [Set]. *)
Definition svz_key (v : value) : value :=
  match v with
  | VNum (S754_zero _) => VNum (S754_zero false)
  | _ => v
  end.

End Js.

(* ================================================================== *)
(** * The classifier *)

Module FieldDetection.
Import Js.

Inductive FieldType : Type :=
| quantitative | nominal | ordinal | temporal.

Record DetectedField : Type := mkDetectedField {
  name : jstring;
  type : FieldType;
  uniqueCount : nat
}.

Definition CATEGORICAL_THRESHOLD : nat := 20.

(** The fraction literals of the source, as the doubles they denote. *)
Definition lit_0_8 : number := Eval vm_compute in StringToNumber (str "0.8").
Definition lit_0_7 : number := Eval vm_compute in StringToNumber (str "0.7").
Definition lit_0_5 : number := Eval vm_compute in StringToNumber (str "0.5").
Definition lit_0_3 : number := Eval vm_compute in StringToNumber (str "0.3").

Definition digit : regex := Atom ADigit.

(** Common ordinal string patterns (case-insensitive) *)
Definition ORDINAL_STRING_PATTERNS : list RegExp :=
  [ (* /^(x{0,3}[sml]|small|medium|large|x+large)$/i *)
    mkRegExp true
      (alts [ Cat (rep 0 3 (lit "x")) (set "sml");
              lit "small"; lit "medium"; lit "large";
              Cat (plus (lit "x")) (lit "large") ])
      true true;
    (* /^(low|medium|high|critical|urgent)$/i *)
    mkRegExp true
      (alts [ lit "low"; lit "medium"; lit "high"; lit "critical";
              lit "urgent" ])
      true true;
    (* /^(poor|fair|good|excellent|outstanding)$/i *)
    mkRegExp true
      (alts [ lit "poor"; lit "fair"; lit "good"; lit "excellent";
              lit "outstanding" ])
      true true;
    (* /^(strongly\s*disagree|disagree|neutral|agree|strongly\s*agree)$/i *)
    mkRegExp true
      (alts [ cats [lit "strongly"; Star (Atom ASpace); lit "disagree"];
              lit "disagree"; lit "neutral"; lit "agree";
              cats [lit "strongly"; Star (Atom ASpace); lit "agree"] ])
      true true ].

Definition DATE_PATTERNS : list RegExp :=
  [ (* /^\d{4}-\d{2}-\d{2}$/ *)
    mkRegExp true
      (cats [rep 4 4 digit; lit "-"; rep 2 2 digit; lit "-"; rep 2 2 digit])
      true false;
    (* /^\d{4}-\d{2}-\d{2}T\d{2}:\d{2}:\d{2}/ *)
    mkRegExp true
      (cats [rep 4 4 digit; lit "-"; rep 2 2 digit; lit "-"; rep 2 2 digit;
            lit "T"; rep 2 2 digit; lit ":"; rep 2 2 digit; lit ":";
            rep 2 2 digit])
      false false;
    (* /^\d{1,2}\/\d{1,2}\/\d{2,4}$/ *)
    mkRegExp true
      (cats [rep 1 2 digit; lit "/"; rep 1 2 digit; lit "/"; rep 2 4 digit])
      true false;
    (* /^\d{1,2}-\d{1,2}-\d{2,4}$/ *)
    mkRegExp true
      (cats [rep 1 2 digit; lit "-"; rep 1 2 digit; lit "-"; rep 2 4 digit])
      true false ].

Definition is_string (v : value) : bool := js_type_eqb (typeof v) TString.
Definition is_number (v : value) : bool := js_type_eqb (typeof v) TNumber.

(** The texts among [values]: [values.filter(v => typeof v === 'string')]. *)
Definition strings_of (values : list value) : list jstring :=
  flat_map (fun v => match v with VStr s => [s] | _ => [] end) values.

(** The numbers among [values]:
    [values.filter(v => typeof v === 'number')]. *)
Definition numbers_of (values : list value) : list number :=
  flat_map (fun v => match v with VNum x => [x] | _ => [] end) values.

Definition isTemporalField (values : list value) : bool :=
  let stringValues := strings_of values in
  (* Temporal fields must be strings (not numbers that look like years) *)
  if lt (of_nat (length stringValues)) (mul (of_nat (length values)) lit_0_8)
  then false
  else
    let dateMatches :=
      filter (fun v => existsb (fun pattern => test pattern v) DATE_PATTERNS)
             stringValues in
    ge (of_nat (length dateMatches))
       (mul (of_nat (length stringValues)) lit_0_8).

(** Common ID field name patterns *)
Definition ID_NAME_PATTERNS : list RegExp :=
  [ (* /^id$/i *)    mkRegExp true (lit "id") true true;
    (* /_id$/i *)    mkRegExp false (lit "_id") true true;
    (* /^.*_id$/i *) mkRegExp true (Cat (Star (Atom ADot)) (lit "_id")) true true;
    (* /^.*id$/i *)  mkRegExp true (Cat (Star (Atom ADot)) (lit "id")) true true;
    (* /code$/i *)   mkRegExp false (lit "code") true true;
    (* /^key$/i *)   mkRegExp true (lit "key") true true;
    (* /^.*_key$/i *) mkRegExp true (Cat (Star (Atom ADot)) (lit "_key")) true true ].

Definition hasIdFieldName (fieldName : jstring) : bool :=
  existsb (fun pattern => test pattern fieldName) ID_NAME_PATTERNS.

(** The loop of [looksLikeId]: the number of neighbours [sorted[i - 1]],
    [sorted[i]] with [sorted[i] - sorted[i - 1] === 1]. *)
Fixpoint count_gaps (sorted : list number) : nat :=
  match sorted with
  | a :: (b :: _) as rest =>
      (if num_eq (sub b a) (of_Z 1) then 1 else 0) + count_gaps rest
  | _ => 0
  end.

(** [(a, b) => a - b] as a sort order: [a] goes after [b] when the
    difference is positive. *)
Definition compare_numbers (a b : number) : bool := gt (sub a b) (of_Z 0).

Definition sequentialRatio (numericValues : list number) : number :=
  let sorted := sort compare_numbers numericValues in
  let gaps := count_gaps sorted in
  div (of_nat gaps) (of_Z (Z.of_nat (length sorted) - 1)).

Definition looksLikeId (values : list value) : bool :=
  let numericValues := numbers_of values in
  if negb (length numericValues =? length values) then false
  else
    (* Check if all integers *)
    let allIntegers := forallb isInteger numericValues in
    if negb allIntegers then false
    else
      (* Check if values are sequential or nearly sequential *)
      let sequentialRatio := sequentialRatio numericValues in
      if gt sequentialRatio lit_0_7 then true
      else
        (* Check if values are very large AND sequential-ish *)
        let avgValue :=
          div (fold_left add numericValues (of_Z 0))
              (of_nat (length numericValues)) in
        if gt avgValue (of_Z 10000) && gt sequentialRatio lit_0_3 then true
        else false.

Definition matchesOrdinal (v : jstring) : bool :=
  existsb (fun pattern => test pattern v) ORDINAL_STRING_PATTERNS.

Definition isOrdinalString (values : list value) : bool :=
  let stringValues := strings_of values in
  if negb (length stringValues =? length values) then false
  else
    let uniqueValues := new_Set (map VStr stringValues) in
    (* Need at least 2 unique ordinal values to be meaningful *)
    if length uniqueValues <? 2 then false
    else
      let matchingValues := filter matchesOrdinal stringValues in
      (* If most values match ordinal patterns, classify as ordinal *)
      ge (of_nat (length matchingValues))
         (mul (of_nat (length stringValues)) lit_0_5).

(** [v !== null && v !== undefined && v !== ''] *)
Definition present (v : value) : bool :=
  negb (strict_eq v VNull) && negb (strict_eq v VUndefined)
  && negb (strict_eq v (VStr [])).

(** [typeof v === 'number' || (typeof v === 'string' && !isNaN(Number(v)))] *)
Definition numeric (v : value) : bool :=
  is_number v || (is_string v && negb (isNaN (Number_ v))).

(** [fieldName && hasIdFieldName(fieldName)]: an omitted name and the empty
    name are falsy. *)
Definition namedLikeId (fieldName : option jstring) : bool :=
  match fieldName with
  | None => false
  | Some [] => false
  | Some n => hasIdFieldName n
  end.

(** [nonNullValues.slice(0, 100)] of [detectFieldType] *)
Definition sample_of (values : list value) : list value :=
  firstn 100 (filter present values).

Definition detectFieldType (values : list value) (fieldName : option jstring)
  : FieldType :=
  let nonNullValues := filter present values in
  if length nonNullValues =? 0 then nominal
  else
    let sample := firstn 100 nonNullValues in
    let uniqueValues := new_Set sample in
    let uniqueCount := length uniqueValues in
    (* Check for temporal fields first *)
    if isTemporalField sample then temporal
    (* Check for ordinal strings before treating as nominal *)
    else if isOrdinalString sample then ordinal
    else
      let numericValues := filter numeric sample in
      let isNumeric := length numericValues =? length sample in
      if isNumeric then
        (* Check if field name suggests it's an ID *)
        if namedLikeId fieldName then nominal
        (* Check if values look like IDs *)
        else if looksLikeId sample then nominal
        else
          (* Convert string numbers to actual numbers for analysis *)
          let actualNumbers :=
            map (fun v => match v with VNum x => x | _ => Number_ v end)
                numericValues in
          let hasDecimals := existsb (fun v => negb (isInteger v))
                                     actualNumbers in
          let min := Math_min actualNumbers in
          let max := Math_max actualNumbers in
          let range := sub max min in
          if hasDecimals then quantitative
          else if gt range (of_Z 100) then quantitative
          else if uniqueCount =? 1 then quantitative
          (* Small number of unique values with small range *)
          else if (uniqueCount <=? CATEGORICAL_THRESHOLD)
                  && le range (of_nat CATEGORICAL_THRESHOLD)
          then ordinal
          else quantitative
      else nominal.

(** A row record, a plain object: its own properties in the order
    [Object.keys] lists them. *)
Definition row : Type := list (jstring * value).

Definition Object_keys (r : row) : list jstring := map fst r.

(** The members of [Object.prototype], the prototype of a row; reading
    [__proto__] gives the prototype itself. *)
Definition Object_prototype : row :=
  [ (str "constructor", VObject Object_);
    (str "__defineGetter__", VObject Object_defineGetter);
    (str "__defineSetter__", VObject Object_defineSetter);
    (str "hasOwnProperty", VObject Object_hasOwnProperty);
    (str "__lookupGetter__", VObject Object_lookupGetter);
    (str "__lookupSetter__", VObject Object_lookupSetter);
    (str "isPrototypeOf", VObject Object_isPrototypeOf);
    (str "propertyIsEnumerable", VObject Object_propertyIsEnumerable);
    (str "toString", VObject Object_toString);
    (str "valueOf", VObject Object_valueOf);
    (str "__proto__", VObject Object_prototype_);
    (str "toLocaleString", VObject Object_toLocaleString) ].

(** The property [name] of the object itself, if it has one. *)
Definition own (r : row) (name : jstring) : option value :=
  option_map snd (find (fun kv => jstring_eqb (fst kv) name) r).

(** [row[name]]: the property of the row itself, else the one it inherits
    from [Object.prototype], else [undefined]. *)
Definition get (r : row) (name : jstring) : value :=
  match own r name with
  | Some v => v
  | None =>
      match own Object_prototype name with
      | Some v => v
      | None => VUndefined
      end
  end.

(** [data.map(row => row[name])] *)
Definition column (data : list row) (name : jstring) : list value :=
  map (fun r => get r name) data.

Definition detectAllFields (data : list row) : list DetectedField :=
  match data with
  | [] => []
  | first :: _ =>
      let fieldNames := Object_keys first in
      map (fun name =>
             let values := column data name in
             let type := detectFieldType values (Some name) in
             let uniqueCount :=
               Set_size (filter (fun v => negb (loose_eq_null v)) values) in
             mkDetectedField name type uniqueCount)
          fieldNames
  end.

End FieldDetection.

(* ================================================================== *)
(** * The vocabulary of the specification *)

Module Spec.
Import Js FieldDetection.

(** An absent value: null, undefined or the empty text. *)
Definition absent (v : value) : bool :=
  match v with
  | VNull | VUndefined | VStr [] => true
  | _ => false
  end.

(** The number of distinct values of a list: a value counts when it does
    not occur again further on, values being compared as a [Set] does. *)
Fixpoint count_distinct (l : list value) : nat :=
  match l with
  | [] => 0
  | v :: l' =>
      if existsb (same_value_zero v) l' then count_distinct l'
      else S (count_distinct l')
  end.

(** The values of a sample coerced to numbers. *)
Definition coerced (sample : list value) : list number := map Number_ sample.

(** The number of adjacent pairs, after sorting ascending, that differ by
    exactly one: the difference of the two doubles is the double 1. *)
Definition sequential_pairs (sample : list value) : nat :=
  count_gaps (sort compare_numbers (coerced sample)).

(** The sequential ratio, pairs / (size - 1), exceeds num / den. *)
Definition sequential_ratio_exceeds (num den : nat) (sample : list value)
  : Prop :=
  num * (length sample - 1) < den * sequential_pairs sample.

(** The text matches one of the four date shapes. *)
Definition date_shaped (s : jstring) : bool :=
  existsb (fun pattern => test pattern s) DATE_PATTERNS.

(** The name ends in [suffix], whatever the case of its letters. *)
Definition ends_with_ci (suffix : string) (fieldName : jstring) : Prop :=
  exists pre suf,
    fieldName = pre ++ suf /\ jstring_eqb_ci (str suffix) suf = true.

(** The name is [word], whatever the case of its letters. *)
Definition equals_ci (word : string) (fieldName : jstring) : Prop :=
  jstring_eqb_ci (str word) fieldName = true.

(** The name ends in [suffix], whatever the case of its letters, and no
    line terminator comes before the suffix. *)
Definition ends_with_ci_on_one_line (suffix : string) (fieldName : jstring)
  : Prop :=
  exists pre suf,
    fieldName = pre ++ suf /\
    forallb (fun c => negb (isLineTerminator c)) pre = true /\
    jstring_eqb_ci (str suffix) suf = true.

(** Null or undefined: what [v != null] excludes. *)
Definition nullish (v : value) : bool :=
  match v with
  | VUndefined | VNull => true
  | _ => false
  end.

(** Sample inputs: a column of integers and a column of ASCII texts. *)
Definition numbers (zs : list Z) : list value :=
  map (fun z => VNum (of_Z z)) zs.

Definition texts (ss : list string) : list value :=
  map (fun s => VStr (str s)) ss.

End Spec.

Module Props.
Import Js FieldDetection Spec.

(** The field names [hasIdFieldName] is written to accept. *)
Definition id_like_name (fieldName : jstring) : Prop :=
  ends_with_ci "_id" fieldName \/
  ends_with_ci_on_one_line "id" fieldName \/
  ends_with_ci "code" fieldName \/
  equals_ci "key" fieldName \/
  ends_with_ci_on_one_line "_key" fieldName.

(** The texts of a sample that match a date shape, and those that belong
    to an ordinal vocabulary. *)
Definition date_texts (sample : list value) : list jstring :=
  filter date_shaped (strings_of sample).

Definition vocabulary_texts (sample : list value) : list jstring :=
  filter matchesOrdinal (strings_of sample).

(** A coerced value has a fractional part, or is not finite. *)
Definition has_non_integer (sample : list value) : bool :=
  existsb (fun x => negb (isInteger x)) (coerced sample).

(** A triple of integers that orders the numbers other than NaN as [<=]
    does: sign class, then exponent, then mantissa. *)
Definition order_key (x : number) : Z * Z * Z :=
  match x with
  | S754_infinity true => (-2, 0, 0)
  | S754_finite true m e => (-1, - e, - Z.pos m)
  | S754_zero _ | S754_nan => (0, 0, 0)
  | S754_finite false m e => (1, e, Z.pos m)
  | S754_infinity false => (2, 0, 0)
  end%Z.

Definition lex_le (a b : Z * Z * Z) : Prop :=
  let '(a1, a2, a3) := a in
  let '(b1, b2, b3) := b in
  (a1 < b1 \/ (a1 = b1 /\ (a2 < b2 \/ (a2 = b2 /\ a3 <= b3))))%Z.

Definition lex_lt (a b : Z * Z * Z) : Prop :=
  let '(a1, a2, a3) := a in
  let '(b1, b2, b3) := b in
  (a1 < b1 \/ (a1 = b1 /\ (a2 < b2 \/ (a2 = b2 /\ a3 < b3))))%Z.

End Props.

(* ================================================================== *)
(** * File parsing (src/utils/fileParser.ts)

    [getFileType], the checks of [parseFile] and the validation of
    [parseJSON].  Reading the file, [JSON.parse] and the CSV and Excel
    libraries belong to the environment: [parseJSON] takes what
    [JSON.parse] produced, and [parseFile] takes the outcome of each
    parser as a parameter. *)

Module FileParser.
Import Js.

Inductive SupportedFileType : Type := csv | json | xlsx | xls.

(** A [File]: its name and its size in bytes. *)
Record File : Type := mkFile {
  name : jstring;
  size : N
}.

Definition MAX_FILE_SIZE : N := 10 * 1024 * 1024.
Definition MAX_ROWS : nat := 100 * 1000.

(** [s.split(sep)] for a separator of one character: never empty. *)
Fixpoint split (sep : char) (s : jstring) : list jstring :=
  match s with
  | [] => [[]]
  | c :: s' =>
      if (c =? sep)%N then [] :: split sep s'
      else match split sep s' with
           | seg :: segs => (c :: seg) :: segs
           | [] => [[c]]
           end
  end.

(** [xs.pop()]: the last element, [undefined] on an empty array. *)
Fixpoint pop {A : Type} (xs : list A) : option A :=
  match xs with
  | [] => None
  | [x] => Some x
  | _ :: xs' => pop xs'
  end.

(** [toLowerCase] of one code unit.  It is exact on ASCII and on the two
    code units whose lower case holds an ASCII letter, the Kelvin sign and
    the capital I with dot; the lower case of any other code unit is not
    ASCII either and the unit is left as it is, which agrees with the real
    mapping on every comparison with an ASCII text. *)
Definition toLowerCase_unit (c : char) : jstring :=
  if ((65 <=? c) && (c <=? 90))%N then [(c + 32)%N]
  else if (c =? 8490)%N then [107%N]
  else if (c =? 304)%N then [105%N; 775%N]
  else [c].

Definition toLowerCase (s : jstring) : jstring := flat_map toLowerCase_unit s.

(** [extension === literal], where [extension] may be [undefined]. *)
Definition extension_is (extension : option jstring) (literal : string)
  : bool :=
  match extension with
  | Some e => jstring_eqb e (str literal)
  | None => false
  end.

Definition getFileType (file : File) : option SupportedFileType :=
  (* file.name.split('.').pop()?.toLowerCase() *)
  let extension :=
    option_map toLowerCase (pop (split (chr ".") (name file))) in
  if extension_is extension "csv" then Some csv
  else if extension_is extension "json" then Some json
  else if extension_is extension "xlsx" then Some xlsx
  else if extension_is extension "xls" then Some xls
  else None.

(** What [JSON.parse] returns. *)
#[local] Unset Elimination Schemes.
Inductive json_value : Type :=
| JNull
| JBool (b : bool)
| JNum (x : number)
| JStr (s : jstring)
| JArr (items : list json_value)
| JObj (props : list (jstring * json_value)).
#[local] Set Elimination Schemes.

Record FileUploadResult : Type := mkFileUploadResult {
  data : list json_value;
  fileName : jstring;
  rowCount : nat;
  fieldCount : nat
}.

Record FileParseError : Type := mkFileParseError {
  type : jstring;
  message : jstring;
  details : jstring
}.

(** [FileUploadResult | FileParseError] *)
Inductive result : Type :=
| Ok (r : FileUploadResult)
| Err (e : FileParseError).

(** [typeof v !== 'object' || v === null] *)
Definition not_an_object (v : json_value) : bool :=
  match v with
  | JArr _ | JObj _ => false
  | _ => true
  end.

(** [Object.keys(v || {}).length] for a parsed value: the indices of an
    array, the properties of an object. *)
Definition keys_length (v : json_value) : nat :=
  match v with
  | JArr items => length items
  | JObj props => length props
  | JStr s => length s
  | _ => 0
  end.

(** [parseJSON] from the outcome of [JSON.parse(text)], [None] when it
    throws. *)
Definition parseJSON (file : File) (parsed : option json_value) : result :=
  match parsed with
  | None =>
      Err (mkFileParseError (str "PARSE_ERROR") (str "Invalid JSON")
             (str "The file contains malformed JSON."))
  | Some parsed =>
      match parsed with
      | JArr items =>
          match items with
          | [] =>
              Err (mkFileParseError (str "EMPTY_FILE") (str "File is empty")
                     (str "The JSON array contains no objects."))
          | first :: _ =>
              if not_an_object first then
                Err (mkFileParseError (str "INVALID_FORMAT")
                       (str "Invalid data format")
                       (str "JSON array must contain objects with named fields."))
              else
                let data := firstn MAX_ROWS items in
                Ok (mkFileUploadResult data (name file) (length data)
                      (keys_length (hd JNull data)))
          end
      | _ =>
          Err (mkFileParseError (str "INVALID_FORMAT")
                 (str "Invalid data format")
                 (str "JSON file must contain an array of objects."))
      end
  end.

Definition isParseError (r : result) : bool :=
  match r with
  | Ok _ => false
  | Err e =>
      existsb (jstring_eqb (type e))
              [str "PARSE_ERROR"; str "INVALID_FORMAT"; str "EMPTY_FILE";
               str "TOO_LARGE"]
  end.

(** What awaiting a parser gives: a result, or an exception, with its
    message when it is an [Error]. *)
Inductive outcome : Type :=
| Returned (r : result)
| Threw (error_message : option jstring).

(** [(size / 1024 / 1024).toFixed(1)] for a size below 2^53: the tenths
    nearest to the quotient, the larger on a tie. *)
Definition megabytes_toFixed1 (size : N) : jstring :=
  let tenths := ((20 * size + 1048576) / 2097152)%N in
  str (NilZero.string_of_uint (N.to_uint (tenths / 10)))
  ++ str "." ++ str (NilZero.string_of_uint (N.to_uint (tenths mod 10))).

Definition parseFile (parseCSV parseJSON parseExcel : File -> outcome)
           (file : File) : result :=
  (* Size check *)
  if (MAX_FILE_SIZE <? size file)%N then
    Err (mkFileParseError (str "TOO_LARGE") (str "File too large")
           (str "Maximum file size is 10MB. Your file is "
            ++ megabytes_toFixed1 (size file) ++ str "MB."))
  else
    match getFileType file with
    | None =>
        Err (mkFileParseError (str "INVALID_FORMAT")
               (str "Unsupported file format")
               (str "Please upload a CSV, JSON, or Excel (.xlsx, .xls) file."))
    | Some fileType =>
        let awaited :=
          match fileType with
          | csv => parseCSV file
          | json => parseJSON file
          | xlsx | xls => parseExcel file
          end in
        match awaited with
        | Returned r => r
        | Threw error_message =>
            Err (mkFileParseError (str "PARSE_ERROR")
                   (str "Failed to parse file")
                   (match error_message with
                    | Some m => m
                    | None => str "Unknown error occurred"
                    end))
        end
    end.

(** The literal a file type stands for. *)
Definition type_literal (t : SupportedFileType) : string :=
  match t with
  | csv => "csv"
  | json => "json"
  | xlsx => "xlsx"
  | xls => "xls"
  end.

(** [ext] is what follows the last dot of [fileName], or the whole name
    when it has no dot. *)
Definition extension_of (fileName ext : jstring) : Prop :=
  ~ In (chr ".") ext /\
  (fileName = ext \/ exists base, fileName = base ++ chr "." :: ext).

(** Lower-case letters other than [i] and [k], the only two that another
    code unit than their upper case lowers to. *)
Definition plain_letter (t : char) : Prop :=
  (97 <= t <= 122)%N /\ t <> 105%N /\ t <> 107%N.

(** An array or an object: [typeof v === 'object'] and [v !== null]. *)
Definition is_object (v : json_value) : Prop :=
  match v with
  | JArr _ | JObj _ => True
  | _ => False
  end.

(** [isParseError] tells this result for what it is. *)
Definition recognised (r : result) : Prop :=
  isParseError r = match r with Err _ => true | Ok _ => false end.

End FileParser.

(* ================================================================== *)
(** * Application state (src/context/AppContext.tsx)

    The reducer [appReducer] and the helpers [loadData], [getFieldRange],
    [getUniqueValues] and [addFilter] of the provider.  The types of
    [../types] are read off the code that builds and reads them.  An
    object used as a map, [encodings], is the list of its entries; a
    channel, a mark type, an aggregate, a time unit, a sort order, a filter
    type and a view mode are the strings they are at run time, [null]
    being [None].  Persistence, [Date.now] and [crypto.randomUUID] are not
    part of the embedding. *)

Module AppContext.
Import Js FieldDetection.

Definition EncodingChannel : Type := jstring.

Record EncodingConfig : Type := mkEncodingConfig {
  field : DetectedField;
  aggregate : option jstring;
  timeUnit : option jstring;
  sort : option jstring
}.

(** [RangeFilterValue | SelectionFilterValue | DateRangeFilterValue] *)
Inductive FilterValue : Type :=
| RangeFilterValue (min max : option number)
| SelectionFilterValue (selected available : list jstring)
| DateRangeFilterValue (min max : option jstring).

Record FilterConfig : Type := mkFilterConfig {
  fieldName : jstring;
  fieldType : FieldType;
  filterType : jstring;
  value : FilterValue
}.

Record ProjectMetadata : Type := mkProjectMetadata {
  meta_id : jstring;
  meta_name : jstring;
  meta_updatedAt : number
}.

Definition Encodings : Type := list (EncodingChannel * EncodingConfig).

Record SavedProject : Type := mkSavedProject {
  project_id : jstring;
  project_name : jstring;
  project_updatedAt : number;
  project_encodings : Encodings;
  project_filters : list FilterConfig;
  project_markType : jstring;
  project_chartTitle : option jstring
}.

Record AppState : Type := mkAppState {
  data : list row;
  fields : list DetectedField;
  encodings : Encodings;
  filters : list FilterConfig;
  markType : jstring;
  chartTitle : option jstring;
  isLoading : bool;
  error : option jstring;
  projects : list ProjectMetadata;
  currentProjectId : option jstring;
  viewMode : jstring
}.

Definition initialState : AppState :=
  mkAppState [] [] [] [] (str "auto") None true None [] None (str "chart").

Inductive AppAction : Type :=
| SET_DATA (payload : list row)
| SET_FIELDS (payload : list DetectedField)
| ASSIGN_FIELD (channel : EncodingChannel) (field : DetectedField)
| REMOVE_FIELD (channel : EncodingChannel)
| SET_AGGREGATE (channel : EncodingChannel) (aggregate : option jstring)
| SET_TIME_UNIT (channel : EncodingChannel) (timeUnit : option jstring)
| CLEAR_ALL
| SET_LOADING (payload : bool)
| SET_ERROR (payload : option jstring)
| TOGGLE_FIELD_TYPE (fieldName : jstring)
| RESET_FOR_NEW_DATA
| SET_MARK_TYPE (markType : jstring)
| SET_CHART_TITLE (title : option jstring)
| SET_SORT (channel : EncodingChannel) (sort : option jstring)
| ADD_FILTER (filter : FilterConfig)
| UPDATE_FILTER (fieldName : jstring) (value : FilterValue)
| REMOVE_FILTER (fieldName : jstring)
| CLEAR_FILTERS
| SAVE_PROJECT (name id : jstring) (projects : list ProjectMetadata)
| LOAD_PROJECT (project : SavedProject)
| DELETE_PROJECT (id : jstring)
| SET_PROJECTS (projects : list ProjectMetadata)
| SET_VIEW_MODE (mode : jstring)
| UNKNOWN_ACTION.

(** [encodings[channel]] *)
Fixpoint lookup (channel : EncodingChannel) (e : Encodings)
  : option EncodingConfig :=
  match e with
  | [] => None
  | (k, config) :: e' =>
      if jstring_eqb k channel then Some config else lookup channel e'
  end.

(** [{ ...encodings, [channel]: config }]: the entry is replaced where it
    is, or added after the others. *)
Fixpoint assign (channel : EncodingChannel) (config : EncodingConfig)
         (e : Encodings) : Encodings :=
  match e with
  | [] => [(channel, config)]
  | (k, c) :: e' =>
      if jstring_eqb k channel then (k, config) :: e'
      else (k, c) :: assign channel config e'
  end.

(** [delete encodings[channel]] *)
Definition remove (channel : EncodingChannel) (e : Encodings) : Encodings :=
  filter (fun kc => negb (jstring_eqb (fst kc) channel)) e.

Definition FieldType_eqb (a b : FieldType) : bool :=
  match a, b with
  | quantitative, quantitative | nominal, nominal
  | ordinal, ordinal | temporal, temporal => true
  | _, _ => false
  end.

(** [type === 'ordinal' ? 'nominal' : 'ordinal'] *)
Definition toggled (t : FieldType) : FieldType :=
  if FieldType_eqb t ordinal then nominal else ordinal.

Definition with_type (f : DetectedField) (t : FieldType) : DetectedField :=
  mkDetectedField (name f) t (uniqueCount f).

Definition with_encodings (s : AppState) (e : Encodings) : AppState :=
  mkAppState (data s) (fields s) e (filters s) (markType s) (chartTitle s)
             (isLoading s) (error s) (projects s) (currentProjectId s)
             (viewMode s).

Definition with_filters (s : AppState) (fs : list FilterConfig) : AppState :=
  mkAppState (data s) (fields s) (encodings s) fs (markType s) (chartTitle s)
             (isLoading s) (error s) (projects s) (currentProjectId s)
             (viewMode s).

Definition appReducer (state : AppState) (action : AppAction) : AppState :=
  match action with
  | SET_DATA payload =>
      mkAppState payload (fields state) (encodings state) (filters state)
        (markType state) (chartTitle state) false (error state)
        (projects state) (currentProjectId state) (viewMode state)
  | SET_FIELDS payload =>
      mkAppState (data state) payload (encodings state) (filters state)
        (markType state) (chartTitle state) (isLoading state) (error state)
        (projects state) (currentProjectId state) (viewMode state)
  | ASSIGN_FIELD channel f =>
      with_encodings state
        (assign channel
           (mkEncodingConfig f None
              (if FieldType_eqb (type f) temporal then Some (str "year")
               else None)
              None)
           (encodings state))
  | REMOVE_FIELD channel =>
      with_encodings state (remove channel (encodings state))
  | SET_AGGREGATE channel a =>
      match lookup channel (encodings state) with
      | None => state
      | Some existingConfig =>
          with_encodings state
            (assign channel
               (mkEncodingConfig (field existingConfig) a
                  (timeUnit existingConfig) (sort existingConfig))
               (encodings state))
      end
  | SET_TIME_UNIT channel u =>
      match lookup channel (encodings state) with
      | None => state
      | Some existingConfig =>
          with_encodings state
            (assign channel
               (mkEncodingConfig (field existingConfig)
                  (aggregate existingConfig) u (sort existingConfig))
               (encodings state))
      end
  | CLEAR_ALL =>
      mkAppState (data state) (fields state) [] [] (markType state) None
        (isLoading state) (error state) (projects state) None
        (viewMode state)
  | SET_LOADING payload =>
      mkAppState (data state) (fields state) (encodings state)
        (filters state) (markType state) (chartTitle state) payload
        (error state) (projects state) (currentProjectId state)
        (viewMode state)
  | SET_ERROR payload =>
      mkAppState (data state) (fields state) (encodings state)
        (filters state) (markType state) (chartTitle state) false payload
        (projects state) (currentProjectId state) (viewMode state)
  | TOGGLE_FIELD_TYPE fieldName =>
      let newFields :=
        map (fun f =>
               if jstring_eqb (name f) fieldName
               then with_type f (toggled (type f))   (* ordinal <-> nominal *)
               else f)
            (fields state) in
      (* Also update any encodings that use this field *)
      let newEncodings :=
        map (fun entry : EncodingChannel * EncodingConfig =>
               let (channel, config) := entry in
               if jstring_eqb (name (field config)) fieldName
               then (channel,
                     mkEncodingConfig
                       (with_type (field config) (toggled (type (field config))))
                       (aggregate config) (timeUnit config) (sort config))
               else entry)
            (encodings state) in
      mkAppState (data state) newFields newEncodings (filters state)
        (markType state) (chartTitle state) (isLoading state) (error state)
        (projects state) (currentProjectId state) (viewMode state)
  | RESET_FOR_NEW_DATA =>
      mkAppState [] [] [] [] (str "auto") None true None
        (projects state) (currentProjectId state) (viewMode state)
  | SET_MARK_TYPE m =>
      mkAppState (data state) (fields state) (encodings state)
        (filters state) m (chartTitle state) (isLoading state) (error state)
        (projects state) (currentProjectId state) (viewMode state)
  | SET_CHART_TITLE title =>
      mkAppState (data state) (fields state) (encodings state)
        (filters state) (markType state) title (isLoading state)
        (error state) (projects state) (currentProjectId state)
        (viewMode state)
  | SET_SORT channel o =>
      match lookup channel (encodings state) with
      | None => state
      | Some existingConfig =>
          with_encodings state
            (assign channel
               (mkEncodingConfig (field existingConfig)
                  (aggregate existingConfig) (timeUnit existingConfig) o)
               (encodings state))
      end
  | ADD_FILTER f =>
      (* Prevent duplicate filters for same field *)
      if existsb (fun g => jstring_eqb (fieldName g) (fieldName f))
                 (filters state)
      then state
      else with_filters state (filters state ++ [f])
  | UPDATE_FILTER fieldName_ v =>
      with_filters state
        (map (fun f =>
                if jstring_eqb (fieldName f) fieldName_
                then mkFilterConfig (fieldName f) (fieldType f)
                                    (filterType f) v
                else f)
             (filters state))
  | REMOVE_FILTER fieldName_ =>
      with_filters state
        (filter (fun f => negb (jstring_eqb (fieldName f) fieldName_))
                (filters state))
  | CLEAR_FILTERS => with_filters state []
  | SAVE_PROJECT _ id ps =>
      mkAppState (data state) (fields state) (encodings state)
        (filters state) (markType state) (chartTitle state)
        (isLoading state) (error state) ps (Some id) (viewMode state)
  | LOAD_PROJECT project =>
      mkAppState (data state) (fields state) (project_encodings project)
        (project_filters project) (project_markType project)
        (project_chartTitle project) (isLoading state) (error state)
        (projects state) (Some (project_id project)) (viewMode state)
  | DELETE_PROJECT id =>
      mkAppState (data state) (fields state) (encodings state)
        (filters state) (markType state) (chartTitle state)
        (isLoading state) (error state)
        (filter (fun p => negb (jstring_eqb (meta_id p) id)) (projects state))
        (match currentProjectId state with
         | Some current => if jstring_eqb current id then None
                           else Some current
         | None => None
         end)
        (viewMode state)
  | SET_PROJECTS ps =>
      mkAppState (data state) (fields state) (encodings state)
        (filters state) (markType state) (chartTitle state)
        (isLoading state) (error state) ps (currentProjectId state)
        (viewMode state)
  | SET_VIEW_MODE mode =>
      mkAppState (data state) (fields state) (encodings state)
        (filters state) (markType state) (chartTitle state)
        (isLoading state) (error state) (projects state)
        (currentProjectId state) mode
  | UNKNOWN_ACTION => state
  end.

(** The state after the three dispatches of [loadData]. *)
Definition loadData (state : AppState) (rows : list row) : AppState :=
  let s1 := appReducer state RESET_FOR_NEW_DATA in
  let s2 := appReducer s1 (SET_DATA rows) in
  appReducer s2 (SET_FIELDS (detectAllFields rows)).

(** Helper to get min/max for a numeric field *)
Definition getFieldRange (state : AppState) (fieldName : jstring)
  : number * number :=
  let '(min, max) :=
    fold_left
      (fun (acc : number * number) r =>
         let '(min, max) := acc in
         match get r fieldName with
         | VNum val =>
             if negb (isNaN val) then (min2 min val, max2 max val)
             else (min, max)
         | _ => (min, max)
         end)
      (data state) (Infinity, NegInfinity) in
  (if num_eq min Infinity then of_Z 0 else min,
   if num_eq max NegInfinity then of_Z 0 else max).

(** What one row does to the running [min] and [max] of [getFieldRange]. *)
Definition range_step (fieldName : jstring) (acc : number * number) (r : row)
  : number * number :=
  let '(min, max) := acc in
  match get r fieldName with
  | VNum val =>
      if negb (isNaN val) then (min2 min val, max2 max val) else (min, max)
  | _ => (min, max)
  end.

(** [a < b] on texts: the order of the default [sort]. *)
Fixpoint jstring_ltb (a b : jstring) : bool :=
  match a, b with
  | _, [] => false
  | [], _ :: _ => true
  | c :: a', d :: b' => (c <? d)%N || ((c =? d)%N && jstring_ltb a' b')
  end.

Fixpoint insert_sorted (x : jstring) (l : list jstring) : list jstring :=
  match l with
  | [] => [x]
  | y :: l' => if jstring_ltb y x then y :: insert_sorted x l' else x :: l
  end.

(** [xs.sort()] on texts *)
Definition sort_strings (xs : list jstring) : list jstring :=
  fold_right insert_sorted [] xs.

Section NumberToString.

(** [String(x)] for a number [x] is left to the environment, and so is
    the text of a built-in function. *)
Variable NumberToString : number -> jstring.
Variable FunctionToString : builtin -> jstring.

(** [String(v)] *)
Definition String_ (v : Js.value) : jstring :=
  match v with
  | VUndefined => str "undefined"
  | VNull => str "null"
  | VBool b => if b then str "true" else str "false"
  | VNum x => NumberToString x
  | VStr s => s
  | VObject Object_prototype_ => str "[object Object]"
  | VObject o => FunctionToString o
  end.

(** Helper to get unique values for a field *)
Definition getUniqueValues (state : AppState) (fieldName : jstring)
  : list jstring :=
  let values :=
    fold_left
      (fun members r =>
         let val := get r fieldName in
         if negb (strict_eq val VNull) && negb (strict_eq val VUndefined)
         then Set_add members (VStr (String_ val))
         else members)
      (data state) [] in
  sort_strings (strings_of values).

(** The filter [addFilter] builds for a field. *)
Definition newFilter (state : AppState) (f : DetectedField) : FilterConfig :=
  if FieldType_eqb (type f) quantitative then
    let range := getFieldRange state (name f) in
    mkFilterConfig (name f) (type f) (str "range")
      (RangeFilterValue (Some (fst range)) (Some (snd range)))
  else if FieldType_eqb (type f) temporal then
    mkFilterConfig (name f) (type f) (str "date-range")
      (DateRangeFilterValue None None)
  else
    (* nominal or ordinal *)
    let available := getUniqueValues state (name f) in
    mkFilterConfig (name f) (type f) (str "selection")
      (SelectionFilterValue available available).

(** The state after the dispatch of [addFilter]. *)
Definition addFilter (state : AppState) (f : DetectedField) : AppState :=
  appReducer state (ADD_FILTER (newFilter state f)).

(** ** The rows of the table (src/components/DataTableView.tsx) *)

(** [filter.value.min] and [filter.value.max] as the values they are. *)
Definition value_min (v : FilterValue) : Js.value :=
  match v with
  | RangeFilterValue (Some x) _ => VNum x
  | DateRangeFilterValue (Some s) _ => VStr s
  | RangeFilterValue None _ | DateRangeFilterValue None _ => VNull
  | SelectionFilterValue _ _ => VUndefined
  end.

Definition value_max (v : FilterValue) : Js.value :=
  match v with
  | RangeFilterValue _ (Some x) => VNum x
  | DateRangeFilterValue _ (Some s) => VStr s
  | RangeFilterValue _ None | DateRangeFilterValue _ None => VNull
  | SelectionFilterValue _ _ => VUndefined
  end.

(** What one filter says of a row; [None] when the test throws, which
    reading [selected] of a value without that property does. *)
Definition filter_keeps (r : row) (f : FilterConfig) : option bool :=
  let v := get r (fieldName f) in
  if strict_eq v VUndefined || strict_eq v VNull then Some false
  else if jstring_eqb (filterType f) (str "range") then
    let numValue := Number_ v in
    Some ((strict_eq (value_min (value f)) VNull
           || ge numValue (Number_ (value_min (value f))))
          && (strict_eq (value_max (value f)) VNull
              || le numValue (Number_ (value_max (value f)))))
  else if jstring_eqb (filterType f) (str "selection") then
    match value f with
    | SelectionFilterValue selected _ =>
        Some (existsb (jstring_eqb (String_ v)) selected)
    | _ => None
    end
  else Some true.

(** [filters.every(...)] on a row: it stops at the first filter that
    refuses the row. *)
Fixpoint every_filter (r : row) (fs : list FilterConfig) : option bool :=
  match fs with
  | [] => Some true
  | f :: fs' =>
      match filter_keeps r f with
      | Some true => every_filter r fs'
      | other => other
      end
  end.

(** [data.filter(row => filters.every(...))] *)
Fixpoint filter_rows (rows : list row) (fs : list FilterConfig)
  : option (list row) :=
  match rows with
  | [] => Some []
  | r :: rows' =>
      match every_filter r fs with
      | None => None
      | Some keep =>
          match filter_rows rows' fs with
          | None => None
          | Some kept => Some (if keep then r :: kept else kept)
          end
      end
  end.

(** The row reads a value in the field of the filter. *)
Definition has_value (r : row) (f : FilterConfig) : bool :=
  negb (strict_eq (get r (fieldName f)) VUndefined
        || strict_eq (get r (fieldName f)) VNull).

(** Every filter keeps the row. *)
Definition shown_by (fs : list FilterConfig) (r : row) : bool :=
  match every_filter r fs with
  | Some true => true
  | _ => false
  end.

(** [displayData] of the table; [None] when computing it throws. *)
Definition displayData (state : AppState) (transformedData : option (list row))
  : option (list row) :=
  match transformedData with
  | Some rows => Some rows
  | None =>
      if length (filters state) =? 0 then Some (data state)
      else filter_rows (data state) (filters state)
  end.

End NumberToString.

End AppContext.

(* ================================================================== *)
(** * Facts about the built-ins *)

Import Js FieldDetection Spec.

(** Turns a goal or hypotheses on character tests into linear arithmetic. *)
Ltac char_arith :=
  unfold isStrWhiteSpaceChar, isWhiteSpace, isLineTerminator, isDigit,
    char_eq, canonicalize, chr in *; simpl N_of_ascii in *;
  repeat match goal with
         | H : context [(?a <=? ?b)%N] |- _ =>
             destruct (N.leb_spec a b); simpl in H
         | |- context [(?a <=? ?b)%N] =>
             destruct (N.leb_spec a b); simpl
         end;
  rewrite ?orb_false_iff, ?orb_true_iff, ?andb_true_iff, ?andb_false_iff,
    ?N.eqb_eq, ?N.eqb_neq in *;
  try discriminate; try lia.

Section CharFacts.

Lemma digit_not_space c : isDigit c = true -> isStrWhiteSpaceChar c = false.
Proof. intros H. char_arith. Qed.

Lemma digit_range c : isDigit c = true -> (48 <= c <= 57)%N.
Proof. intros H. char_arith. Qed.

(** A character that matches a lower-case pattern letter other than [i]
    under the [i] flag is an ASCII letter other than [I]. *)
Lemma letter_ci_range d c :
  char_eq true d c = true -> (97 <= d <= 122)%N -> d <> 105%N ->
  ((65 <= c <= 90)%N \/ (97 <= c <= 122)%N) /\ c <> 73%N.
Proof. intros H Hd Hi. char_arith. Qed.

Lemma letter_not_space c :
  (65 <= c <= 90)%N \/ (97 <= c <= 122)%N -> isStrWhiteSpaceChar c = false.
Proof. intros H. char_arith. Qed.

Lemma letter_not_digit c :
  (65 <= c <= 90)%N \/ (97 <= c <= 122)%N -> isDigit c = false.
Proof. intros H. char_arith. Qed.

End CharFacts.

(** ** Patterns: [matches] decides [lang] *)

Section RegexFacts.

Variable ic : bool.

Lemma nullable_lang r : nullable r = true <-> lang ic r [].
Proof.
  induction r as [| | a | r1 IH1 r2 IH2 | r1 IH1 r2 IH2 | r1 IH1]; simpl.
  - split; [discriminate | tauto].
  - tauto.
  - split; [discriminate | intros (c & Hc & _); discriminate].
  - rewrite andb_true_iff, IH1, IH2. split.
    + intros [H1 H2]. exists [], []. auto.
    + intros (s1 & s2 & Hs & H1 & H2).
      symmetry in Hs. apply app_eq_nil in Hs as [-> ->]. auto.
  - rewrite orb_true_iff, IH1, IH2. tauto.
  - split; [intros _; exists []; auto | reflexivity].
Qed.

Lemma star_cons c s r :
  lang ic (Star r) (c :: s) ->
  exists s1 s2, s = s1 ++ s2 /\ lang ic r (c :: s1) /\ lang ic (Star r) s2.
Proof.
  simpl. intros (ss & Hs & Hall).
  induction Hall as [| x ss Hx Hall IH]; simpl in Hs; [discriminate |].
  destruct x as [| c' x'].
  - apply IH, Hs.
  - simpl in Hs. injection Hs as <- ->.
    exists x', (concat ss). repeat split; auto. exists ss; auto.
Qed.

Lemma deriv_lang c r :
  forall s, lang ic (deriv ic c r) s <-> lang ic r (c :: s).
Proof.
  induction r as [| | a | r1 IH1 r2 IH2 | r1 IH1 r2 IH2 | r1 IH1];
    intros s; simpl.
  - tauto.
  - split; [tauto | discriminate].
  - destruct (atom_matches ic a c) eqn:Ha; simpl.
    + split.
      * intros ->. exists c; auto.
      * intros (c' & Hc & _). now injection Hc.
    + split; [tauto |].
      intros (c' & Hc & Hm). injection Hc as <- _. congruence.
  - assert (Hcat : lang ic (Cat (deriv ic c r1) r2) s ->
                   lang ic (Cat r1 r2) (c :: s)).
    { simpl. intros (s1 & s2 & -> & H1 & H2).
      exists (c :: s1), s2. rewrite <- IH1. auto. }
    destruct (nullable r1) eqn:Hn.
    + split.
      * intros [H | H]; [exact (Hcat H) |].
        exists [], (c :: s). rewrite <- nullable_lang, <- IH2. auto.
      * intros (s1 & s2 & Hs & H1 & H2). destruct s1 as [| c' s1'].
        -- right. simpl in Hs. subst s2. now apply IH2.
        -- left. simpl in Hs. injection Hs as <- ->.
           exists s1', s2. rewrite IH1. auto.
    + split; [exact Hcat |].
      intros (s1 & s2 & Hs & H1 & H2). destruct s1 as [| c' s1'].
      * apply nullable_lang in H1. congruence.
      * simpl in Hs. injection Hs as <- ->.
        exists s1', s2. rewrite IH1. auto.
  - rewrite IH1, IH2. tauto.
  - split.
    + intros (s1 & s2 & -> & H1 & ss & -> & Hall).
      exists ((c :: s1) :: ss). split; [reflexivity |].
      constructor; [now apply IH1 | assumption].
    + intros H. apply star_cons in H as (s1 & s2 & -> & H1 & H2).
      exists s1, s2. rewrite IH1. auto.
Qed.

Theorem matches_lang s : forall r, matches ic r s = true <-> lang ic r s.
Proof.
  induction s as [| c s IH]; intros r; simpl.
  - apply nullable_lang.
  - rewrite IH. apply deriv_lang.
Qed.

(** A match begins with a character one of the first atoms accepts. *)
Lemma first_atoms_sound r :
  forall c s, lang ic r (c :: s) ->
              existsb (fun a => atom_matches ic a c) (first_atoms r) = true.
Proof.
  induction r as [| | a | r1 IH1 r2 IH2 | r1 IH1 r2 IH2 | r1 IH1];
    intros c s; simpl.
  - tauto.
  - discriminate.
  - intros (c' & Hc & Hm). injection Hc as <- _. now rewrite Hm.
  - intros (s1 & s2 & Hs & H1 & H2). rewrite existsb_app, orb_true_iff.
    destruct s1 as [| c' s1'].
    + right. simpl in Hs. subst s2.
      apply nullable_lang in H1. rewrite H1. eauto.
    + left. simpl in Hs. injection Hs as <- ->. eauto.
  - rewrite existsb_app, orb_true_iff. intros [H | H]; eauto.
  - intros H. apply star_cons in H as (s1 & s2 & _ & H1 & _). eauto.
Qed.

(** Every text made of characters an atom accepts is in the language of
    its star. *)
Lemma lang_star_atom a s :
  Forall (fun c => atom_matches ic a c = true) s -> lang ic (Star (Atom a)) s.
Proof.
  intros H. simpl. exists (map (fun c => [c]) s). split.
  - clear H. induction s as [| c s IH]; simpl; congruence.
  - induction H as [| c s Hc _ IH]; simpl; constructor; eauto.
Qed.

End RegexFacts.

(** A text equal to a literal up to case is in the language of the literal
    under the [i] flag. *)
Lemma lang_lit_ci w :
  forall s, jstring_eqb_ci (str w) s = true -> lang true (lit w) s.
Proof.
  unfold str, lit.
  induction (list_ascii_of_string w) as [| a l IH]; intros s; simpl.
  - destruct s; [reflexivity | discriminate].
  - destruct s as [| c s]; [discriminate |].
    rewrite andb_true_iff. intros [Hc Hs].
    exists [c], s. repeat split; eauto.
Qed.
(** ** [Number(text)]: texts that are not numeric literals *)

Section StringToNumberFacts.

Lemma trim_start_cons c s :
  isStrWhiteSpaceChar c = false -> trim_start (c :: s) = c :: s.
Proof. intros H. simpl. now rewrite H. Qed.

Lemma trim_end_app a c rest :
  isStrWhiteSpaceChar c = false ->
  trim_end (a ++ c :: rest) = a ++ c :: trim_end rest.
Proof.
  intros H. induction a as [| x a IH].
  - simpl. rewrite H. now destruct (trim_end rest).
  - change (trim_end ((x :: a) ++ c :: rest))
      with (match trim_end (a ++ c :: rest) with
            | [] => if isStrWhiteSpaceChar x then [] else [x]
            | t => x :: t
            end).
    rewrite IH. now destruct a.
Qed.

Lemma trim_end_cons c rest :
  isStrWhiteSpaceChar c = false -> trim_end (c :: rest) = c :: trim_end rest.
Proof. exact (trim_end_app [] c rest). Qed.

Lemma span_app p ds c rest :
  Forall (fun d => p d = true) ds -> p c = false ->
  span p (ds ++ c :: rest) = (ds, c :: rest).
Proof.
  intros Hds Hc. induction Hds as [| d ds Hd _ IH]; simpl.
  - now rewrite Hc.
  - now rewrite Hd, IH.
Qed.

(** A text whose first character can begin neither white space, a sign, a
    digit, a fraction nor [Infinity] is not a number. *)
Lemma StringToNumber_bad_start c rest :
  isStrWhiteSpaceChar c = false -> isDigit c = false ->
  c <> chr "+" -> c <> chr "-" -> c <> chr "." -> c <> chr "I" ->
  StringToNumber (c :: rest) = NaN.
Proof.
  intros Hws Hd Hplus Hminus Hdot HI.
  apply N.eqb_neq in Hplus, Hminus, Hdot, HI.
  assert (H0 : (c =? chr "0")%N = false).
  { apply N.eqb_neq. intros ->. discriminate. }
  unfold StringToNumber, trim.
  rewrite trim_start_cons by assumption.
  rewrite trim_end_cons by assumption.
  unfold parse_numeric.
  replace (parse_non_decimal (c :: trim_end rest)) with (@None literal)
    by (unfold parse_non_decimal; destruct (trim_end rest); now rewrite ?H0).
  rewrite Hplus, Hminus.
  unfold parse_unsigned_decimal.
  change (jstring_eqb (c :: trim_end rest) (str "Infinity"))
    with ((c =? chr "I")%N && jstring_eqb (trim_end rest) (str "nfinity")).
  rewrite HI. simpl. rewrite Hd.
  unfold chr in Hdot; simpl in Hdot. now rewrite Hdot.
Qed.

Lemma StringToNumber_trimmed s c t :
  trim s = c :: t ->
  StringToNumber s = match parse_numeric (c :: t) with
                     | Some x => x
                     | None => NaN
                     end.
Proof. intros H. unfold StringToNumber. now rewrite H. Qed.

Lemma parse_non_decimal_digit_second d p tl :
  isDigit p = true \/ p = chr "-" \/ p = chr "/" ->
  parse_non_decimal (d :: p :: tl) = None.
Proof.
  intros Hp. unfold parse_non_decimal.
  destruct (d =? chr "0")%N; [| reflexivity].
  assert (Hx : forall k, (58 <= k)%N -> (p =? k)%N = false).
  { intros k Hk. apply N.eqb_neq. intros ->.
    destruct Hp as [Hp | [Hp | Hp]].
    - apply digit_range in Hp. lia.
    - unfold chr in Hp; simpl in Hp. lia.
    - unfold chr in Hp; simpl in Hp. lia. }
  unfold chr; simpl N_of_ascii.
  rewrite !Hx by lia. reflexivity.
Qed.

Lemma parse_numeric_digits_sep d ds c rest :
  Forall (fun d => isDigit d = true) (d :: ds) ->
  c = chr "-" \/ c = chr "/" ->
  parse_numeric ((d :: ds) ++ c :: rest) = None.
Proof.
  intros Hds Hc.
  assert (Hcd : isDigit c = false) by (destruct Hc; now subst).
  inversion Hds as [| ? ? Hd Hds']; subst.
  pose proof (digit_range _ Hd) as Hdr.
  assert (Hnd : parse_non_decimal ((d :: ds) ++ c :: rest) = None).
  { destruct ds as [| d2 ds]; simpl app.
    - apply parse_non_decimal_digit_second. tauto.
    - apply parse_non_decimal_digit_second. inversion Hds'; auto. }
  assert (Hplus : (d =? chr "+")%N = false)
    by (apply N.eqb_neq; intros ->; discriminate).
  assert (Hminus : (d =? chr "-")%N = false)
    by (apply N.eqb_neq; intros ->; discriminate).
  assert (HI : (d =? chr "I")%N = false)
    by (apply N.eqb_neq; intros ->; discriminate).
  assert (Hdot : (c =? chr ".")%N = false) by (destruct Hc; now subst).
  assert (He : ((c =? chr "e") || (c =? chr "E"))%N = false)
    by (destruct Hc; now subst).
  assert (Hu : parse_unsigned_decimal ((d :: ds) ++ c :: rest) = None).
  { unfold parse_unsigned_decimal.
    replace (jstring_eqb ((d :: ds) ++ c :: rest) (str "Infinity"))
      with false
      by (change ((d :: ds) ++ c :: rest) with (d :: (ds ++ c :: rest));
          change (jstring_eqb (d :: (ds ++ c :: rest)) (str "Infinity"))
            with ((d =? chr "I")%N
                  && jstring_eqb (ds ++ c :: rest) (str "nfinity"));
          now rewrite HI).
    rewrite span_app by assumption.
    rewrite Hdot, app_nil_r. unfold parse_exponent. now rewrite He. }
  unfold parse_numeric. rewrite Hnd.
  change ((d :: ds) ++ c :: rest) with (d :: (ds ++ c :: rest)).
  cbv beta iota. rewrite Hplus, Hminus.
  change (d :: (ds ++ c :: rest)) with ((d :: ds) ++ c :: rest).
  now rewrite Hu.
Qed.

(** Digits followed by a dash or a slash are not a number. *)
Lemma StringToNumber_digits_sep ds c rest :
  ds <> [] -> Forall (fun d => isDigit d = true) ds ->
  c = chr "-" \/ c = chr "/" ->
  StringToNumber (ds ++ c :: rest) = NaN.
Proof.
  intros Hne Hds Hc.
  assert (Hcws : isStrWhiteSpaceChar c = false) by (destruct Hc; now subst).
  destruct ds as [| d ds]; [congruence |].
  assert (Hd : isDigit d = true) by (now inversion Hds).
  assert (Ht : trim ((d :: ds) ++ c :: rest)
               = d :: (ds ++ c :: trim_end rest)).
  { unfold trim.
    change ((d :: ds) ++ c :: rest) with (d :: (ds ++ c :: rest)).
    rewrite trim_start_cons by now apply digit_not_space.
    change (d :: (ds ++ c :: rest)) with ((d :: ds) ++ c :: rest).
    now rewrite trim_end_app. }
  rewrite (StringToNumber_trimmed _ _ _ Ht).
  change (d :: (ds ++ c :: trim_end rest))
    with ((d :: ds) ++ c :: trim_end rest).
  now rewrite parse_numeric_digits_sep.
Qed.

End StringToNumberFacts.

(** ** The date shapes and the ordinal vocabularies are not numbers *)

Section PatternFacts.

(** Takes apart a hypothesis [lang ic r s] on a pattern without star. *)
Ltac invert_lang :=
  repeat match goal with
         | H : exists _, _ |- _ => destruct H
         | H : _ /\ _ |- _ => destruct H
         | H : _ \/ _ |- _ => destruct H
         | H : False |- _ => destruct H
         | H : atom_matches false (AChar ?d) ?c = true |- _ =>
             change ((d =? c)%N = true) in H; apply N.eqb_eq in H; subst c
         end;
  subst.

Lemma date_pattern_not_number p s :
  In p DATE_PATTERNS -> test p s = true -> StringToNumber s = NaN.
Proof.
  intros Hp Ht. unfold test in Ht. apply matches_lang in Ht.
  assert (Hshape : exists ds c rest,
             s = ds ++ c :: rest /\ ds <> [] /\
             Forall (fun d => isDigit d = true) ds /\
             (c = chr "-" \/ c = chr "/")).
  { simpl in Hp.
    destruct Hp as [<- | [<- | [<- | [<- | []]]]];
      cbn - [atom_matches concat] in Ht; invert_lang;
      repeat match goal with
             | H : atom_matches false ADigit _ = true |- _ =>
                 change (atom_matches false ADigit) with isDigit in H
             end;
      cbn [app];
      first
        [ solve [ eexists [_; _; _; _], _, _;
                  split; [reflexivity |];
                  split; [discriminate |];
                  split; [repeat constructor; assumption | tauto] ]
        | solve [ eexists [_; _], _, _;
                  split; [reflexivity |];
                  split; [discriminate |];
                  split; [repeat constructor; assumption | tauto] ]
        | solve [ eexists [_], _, _;
                  split; [reflexivity |];
                  split; [discriminate |];
                  split; [repeat constructor; assumption | tauto] ] ]. }
  destruct Hshape as (ds & c & rest & -> & Hne & Hds & Hc).
  now apply StringToNumber_digits_sep.
Qed.

Lemma date_shaped_not_number s :
  date_shaped s = true -> isNaN (StringToNumber s) = true.
Proof.
  unfold date_shaped. rewrite existsb_exists. intros (p & Hp & Ht).
  now rewrite (date_pattern_not_number _ _ Hp Ht).
Qed.

Lemma letter_start_not_number c rest :
  ((65 <= c <= 90)%N \/ (97 <= c <= 122)%N) /\ c <> 73%N ->
  StringToNumber (c :: rest) = NaN.
Proof.
  intros [Hc HI].
  apply StringToNumber_bad_start;
    [ now apply letter_not_space | now apply letter_not_digit | .. ];
    unfold chr; simpl N_of_ascii; lia.
Qed.

Lemma ordinal_pattern_not_number p s :
  In p ORDINAL_STRING_PATTERNS -> test p s = true -> StringToNumber s = NaN.
Proof.
  intros Hp Ht. destruct s as [| c rest].
  - simpl in Hp.
    destruct Hp as [<- | [<- | [<- | [<- | []]]]]; discriminate Ht.
  - unfold test in Ht.
    apply matches_lang, first_atoms_sound, existsb_exists in Ht.
    destruct Ht as (a & Ha & Hm).
    apply letter_start_not_number.
    simpl in Hp.
    destruct Hp as [<- | [<- | [<- | [<- | []]]]]; simpl in Ha;
      repeat match goal with
             | H : _ \/ _ |- _ => destruct H
             | H : False |- _ => destruct H
             end;
      subst a; cbn - [char_eq] in Hm;
      rewrite ?orb_true_iff in Hm;
      repeat match goal with
             | H : _ \/ _ |- _ => destruct H
             | H : false = true |- _ => discriminate H
             end;
      (eapply letter_ci_range; [eassumption | lia | lia]).
Qed.

Lemma ordinal_not_number s :
  matchesOrdinal s = true -> isNaN (StringToNumber s) = true.
Proof.
  unfold matchesOrdinal. rewrite existsb_exists. intros (p & Hp & Ht).
  now rewrite (ordinal_pattern_not_number _ _ Hp Ht).
Qed.

End PatternFacts.

(** ** Doubles: the threshold tests on counts

    Every count below is at most 100, the size of a sample, so each test on
    doubles is compared with its exact counterpart on all the cases. *)

Section ThresholdFacts.

Lemma forallb_upto (P : nat -> bool) (b : nat) :
  forallb P (List.seq 0 (S b)) = true -> forall n, n <= b -> P n = true.
Proof.
  intros H n Hn. rewrite forallb_forall in H.
  apply H, in_seq. lia.
Qed.

Lemma forallb2_upto (P : nat -> nat -> bool) (b : nat) :
  forallb (fun n => forallb (P n) (List.seq 0 (S b))) (List.seq 0 (S b)) = true ->
  forall n k, n <= b -> k <= b -> P n k = true.
Proof.
  intros H n k Hn Hk.
  apply (forallb_upto (P n) b); [| assumption].
  now apply (forallb_upto _ b H).
Qed.

(** [k < n * 0.8] *)
Lemma lt_0_8_exact n k :
  n <= 100 -> k <= 100 ->
  lt (of_nat k) (mul (of_nat n) lit_0_8) = (10 * k <? 8 * n).
Proof.
  intros Hn Hk. apply eqb_prop.
  apply (forallb2_upto
           (fun n k => Bool.eqb (lt (of_nat k) (mul (of_nat n) lit_0_8))
                                (10 * k <? 8 * n)) 100);
    [vm_compute; reflexivity | assumption | assumption].
Qed.

(** [k >= n * 0.8] *)
Lemma ge_0_8_exact n k :
  n <= 100 -> k <= 100 ->
  ge (of_nat k) (mul (of_nat n) lit_0_8) = (8 * n <=? 10 * k).
Proof.
  intros Hn Hk. apply eqb_prop.
  apply (forallb2_upto
           (fun n k => Bool.eqb (ge (of_nat k) (mul (of_nat n) lit_0_8))
                                (8 * n <=? 10 * k)) 100);
    [vm_compute; reflexivity | assumption | assumption].
Qed.

(** [k >= n * 0.5] *)
Lemma ge_0_5_exact n k :
  n <= 100 -> k <= 100 ->
  ge (of_nat k) (mul (of_nat n) lit_0_5) = (n <=? 2 * k).
Proof.
  intros Hn Hk. apply eqb_prop.
  apply (forallb2_upto
           (fun n k => Bool.eqb (ge (of_nat k) (mul (of_nat n) lit_0_5))
                                (n <=? 2 * k)) 100);
    [vm_compute; reflexivity | assumption | assumption].
Qed.

(** [g / (n - 1) > 0.7], with [n - 1] written [m]; [0 / 0] is NaN and
    exceeds nothing. *)
Lemma ratio_gt_0_7_exact m g :
  m <= 100 -> g <= 100 ->
  gt (div (of_nat g) (of_Z (Z.of_nat m))) lit_0_7 = (7 * m <? 10 * g).
Proof.
  intros Hm Hg. apply eqb_prop.
  apply (forallb2_upto
           (fun m g => Bool.eqb (gt (div (of_nat g) (of_Z (Z.of_nat m)))
                                    lit_0_7)
                                (7 * m <? 10 * g)) 100);
    [vm_compute; reflexivity | assumption | assumption].
Qed.

(** [g / (n - 1) > 0.3] *)
Lemma ratio_gt_0_3_exact m g :
  m <= 100 -> g <= 100 ->
  gt (div (of_nat g) (of_Z (Z.of_nat m))) lit_0_3 = (3 * m <? 10 * g).
Proof.
  intros Hm Hg. apply eqb_prop.
  apply (forallb2_upto
           (fun m g => Bool.eqb (gt (div (of_nat g) (of_Z (Z.of_nat m)))
                                    lit_0_3)
                                (3 * m <? 10 * g)) 100);
    [vm_compute; reflexivity | assumption | assumption].
Qed.

End ThresholdFacts.

(** ** Sets: SameValueZero and the size of a [Set] *)

Section SetFacts.

Lemma jstring_eqb_eq s : forall t, jstring_eqb s t = true <-> s = t.
Proof.
  induction s as [| c s IH]; intros [| d t]; simpl;
    try (split; [discriminate | discriminate]); try tauto.
  rewrite andb_true_iff, N.eqb_eq, IH.
  split; [intros [-> ->]; reflexivity | intros H; injection H; auto].
Qed.

Lemma num_eq_finite s1 m1 e1 s2 m2 e2 :
  num_eq (S754_finite s1 m1 e1) (S754_finite s2 m2 e2) = true <->
  s1 = s2 /\ m1 = m2 /\ e1 = e2.
Proof.
  unfold num_eq, SFeqb, SFcompare. split.
  - destruct s1, s2; try discriminate;
      destruct (e1 ?= e2)%Z eqn:Ee; try discriminate;
      destruct (Pos.compare_cont Eq m1 m2) eqn:Em; try discriminate;
      intros _; apply Z.compare_eq in Ee; apply Pos.compare_eq in Em;
      subst; auto.
  - intros (-> & -> & ->).
    fold (Pos.compare m2 m2). rewrite Z.compare_refl, Pos.compare_refl.
    now destruct s2.
Qed.

Lemma builtin_eqb_eq o o' : builtin_eqb o o' = true <-> o = o'.
Proof.
  destruct o, o'; split; intros H;
    (reflexivity || discriminate H).
Qed.

(** Two values are one member of a [Set] exactly when they have the same
    representative. *)
Lemma same_value_zero_key a b :
  same_value_zero a b = true <-> svz_key a = svz_key b.
Proof.
  destruct a as [| | x | x | s | o], b as [| | y | y | t | o']; simpl;
    try (split; [discriminate | discriminate]); try tauto;
    try (split; [discriminate |];
         match goal with
         | |- context [match ?z with S754_zero _ => _ | _ => _ end] =>
             destruct z as [[] | | |]; discriminate
         end).
  - rewrite eqb_true_iff. split; [congruence | intros H; now injection H].
  - destruct x as [sx | sx | | sx mx ex], y as [sy | sy | | sy my ey];
      try solve [ simpl; unfold num_eq, SFeqb, SFcompare;
                  repeat match goal with s : bool |- _ => destruct s end;
                  split; intros H; (reflexivity || discriminate H) ].
    change (isNaN (S754_finite sx mx ex)) with false. simpl orb.
    rewrite num_eq_finite.
    split; [intros (-> & -> & ->); reflexivity |].
    intros H; injection H; auto.
  - rewrite jstring_eqb_eq. split; [congruence | intros H; now injection H].
  - rewrite builtin_eqb_eq. split; [congruence | intros H; now injection H].
Qed.

Lemma existsb_same_value_zero v l :
  existsb (same_value_zero v) l = true <-> In (svz_key v) (map svz_key l).
Proof.
  rewrite existsb_exists, in_map_iff. split.
  - intros (x & Hx & H). apply same_value_zero_key in H. eauto.
  - intros (x & H & Hx). exists x. split; [assumption |].
    now apply same_value_zero_key.
Qed.

(** The members of a set under construction stay pairwise distinct and are
    the values met so far. *)
Lemma fold_Set_add l :
  forall acc,
    NoDup (map svz_key acc) ->
    NoDup (map svz_key (fold_left Set_add l acc)) /\
    (forall k, In k (map svz_key (fold_left Set_add l acc)) <->
               In k (map svz_key acc) \/ In k (map svz_key l)).
Proof.
  induction l as [| v l IH]; intros acc Hacc; simpl.
  - split; [assumption | tauto].
  - unfold Set_add at 2 4.
    destruct (existsb (same_value_zero v) acc) eqn:E.
    + destruct (IH acc Hacc) as [Hnd Hin]. split; [assumption |].
      intros k. rewrite Hin.
      apply existsb_same_value_zero in E.
      split; [tauto |]. intros [H | [<- | H]]; auto.
    + assert (Hnew : ~ In (svz_key v) (map svz_key acc)).
      { rewrite <- existsb_same_value_zero. congruence. }
      assert (Hacc' : NoDup (map svz_key (acc ++ [v]))).
      { rewrite map_app. simpl. apply NoDup_app; [assumption | |].
        - constructor; [easy | constructor].
        - intros k Hk [<- | []]. contradiction. }
      destruct (IH _ Hacc') as [Hnd Hin]. split; [assumption |].
      intros k. rewrite Hin, map_app, in_app_iff. simpl. tauto.
Qed.

Lemma new_Set_spec l :
  NoDup (map svz_key (new_Set l)) /\
  (forall k, In k (map svz_key (new_Set l)) <-> In k (map svz_key l)).
Proof.
  destruct (fold_Set_add l [] (NoDup_nil _)) as [Hnd Hin].
  split; [assumption |]. intros k. rewrite (Hin k). simpl. tauto.
Qed.

(** A duplicate-free list of the representatives of [l] has as many
    elements as [l] has distinct values. *)
Lemma count_distinct_keys l :
  forall K, NoDup K -> (forall k, In k K <-> In k (map svz_key l)) ->
            length K = count_distinct l.
Proof.
  induction l as [| v l IH]; intros K Hnd Hin; simpl.
  - destruct K as [| k K]; [reflexivity |].
    exfalso. apply (Hin k). now left.
  - destruct (existsb (same_value_zero v) l) eqn:E.
    + apply existsb_same_value_zero in E. apply IH; [assumption |].
      intros k. rewrite Hin. simpl.
      split; [intros [<- | H]; assumption | auto].
    + assert (Hnew : ~ In (svz_key v) (map svz_key l)).
      { rewrite <- existsb_same_value_zero. congruence. }
      assert (HvK : In (svz_key v) K) by (apply Hin; now left).
      apply in_split in HvK as (K1 & K2 & ->).
      apply NoDup_remove in Hnd as [Hnd Hnot].
      rewrite length_app. simpl. rewrite <- plus_n_Sm, <- length_app.
      f_equal. apply IH; [assumption |].
      intros k. split.
      * intros Hk.
        assert (Hk' : In k (K1 ++ svz_key v :: K2)).
        { apply in_app_iff in Hk. apply in_app_iff. simpl. tauto. }
        apply Hin in Hk'. destruct Hk' as [<- | Hk']; [contradiction | easy].
      * intros Hk.
        assert (Hk' : In k (K1 ++ svz_key v :: K2)) by (apply Hin; now right).
        apply in_app_iff in Hk'. apply in_app_iff.
        destruct Hk' as [H | [<- | H]]; auto. contradiction.
Qed.

(** [new Set(xs).size] is the number of distinct values of [xs]. *)
Theorem Set_size_count_distinct l : Set_size l = count_distinct l.
Proof.
  unfold Set_size. destruct (new_Set_spec l) as [Hnd Hin].
  rewrite <- (length_map svz_key). now apply count_distinct_keys.
Qed.

(** A set of size one: all the values are the same. *)
Lemma Set_size_one l :
  Set_size l = 1 ->
  forall a b, In a l -> In b l -> svz_key a = svz_key b.
Proof.
  unfold Set_size. intros H a b Ha Hb.
  destruct (new_Set_spec l) as [_ Hin].
  rewrite <- (length_map svz_key) in H.
  destruct (map svz_key (new_Set l)) as [| k [| k' K]]; try discriminate.
  assert (Hka : In (svz_key a) [k]) by (apply Hin; now apply in_map).
  assert (Hkb : In (svz_key b) [k]) by (apply Hin; now apply in_map).
  simpl in Hka, Hkb. intuition congruence.
Qed.

End SetFacts.

(** ** Sorting and the gap count *)

Section SortFacts.

Variable gtb : number -> number -> bool.

Lemma sort_insert_length x l :
  length (sort_insert gtb x l) = S (length l).
Proof.
  induction l as [| y l IH]; simpl; [reflexivity |].
  destruct (gtb x y); simpl; congruence.
Qed.

Lemma sort_length l : length (sort gtb l) = length l.
Proof.
  induction l as [| x l IH]; simpl; [reflexivity |].
  now rewrite sort_insert_length, IH.
Qed.

Lemma sort_insert_Forall (P : number -> Prop) x l :
  P x -> Forall P l -> Forall P (sort_insert gtb x l).
Proof.
  intros Hx Hl. induction Hl as [| y l Hy Hl IH]; simpl.
  - now constructor.
  - destruct (gtb x y); repeat constructor; assumption.
Qed.

Lemma sort_Forall (P : number -> Prop) l :
  Forall P l -> Forall P (sort gtb l).
Proof.
  intros H. induction H as [| x l Hx _ IH]; simpl.
  - constructor.
  - now apply sort_insert_Forall.
Qed.

End SortFacts.

Lemma count_gaps_bound l : count_gaps l <= length l - 1.
Proof.
  induction l as [| a l IH]; [simpl; lia |].
  destruct l as [| b l]; [simpl; lia |].
  change (count_gaps (a :: b :: l))
    with ((if num_eq (sub b a) (of_Z 1) then 1 else 0) + count_gaps (b :: l)).
  simpl length in *. destruct (num_eq (sub b a) (of_Z 1)); lia.
Qed.

(** No gap is counted among values no two of which differ by one. *)
Lemma count_gaps_none (P : number -> Prop) l :
  (forall a b, P a -> P b -> num_eq (sub b a) (of_Z 1) = false) ->
  Forall P l -> count_gaps l = 0.
Proof.
  intros HP Hl.
  induction Hl as [| a l Ha Hl IH]; [reflexivity |].
  destruct l as [| b l]; [reflexivity |].
  change (count_gaps (a :: b :: l))
    with ((if num_eq (sub b a) (of_Z 1) then 1 else 0) + count_gaps (b :: l)).
  rewrite IH, HP; [reflexivity | assumption | now inversion Hl].
Qed.

(** ** Numbers with one representative *)

Section NumberFacts.

Lemma sub_diag_finite s m e :
  sub (S754_finite s m e) (S754_finite s m e) = S754_zero false.
Proof. unfold sub, SFsub. now rewrite Z.sub_diag. Qed.

(** Two integers that are one member of a [Set] do not differ by one. *)
Lemma same_key_no_gap a b :
  svz_key (VNum a) = svz_key (VNum b) -> isInteger a = true ->
  num_eq (sub b a) (of_Z 1) = false.
Proof.
  intros Hk Ha.
  destruct a as [sa | sa | | sa ma ea]; try discriminate;
    destruct b as [sb | sb | | sb mb eb]; try discriminate.
  - now destruct sa, sb.
  - injection Hk as -> -> ->. now rewrite sub_diag_finite.
Qed.

End NumberFacts.

(* ================================================================== *)
(** * Facts about the classifier *)

Section SampleFacts.

Lemma sample_of_length values : length (sample_of values) <= 100.
Proof. unfold sample_of. apply firstn_le_length. Qed.

Lemma sample_of_empty values :
  (length (filter present values) =? 0) = (length (sample_of values) =? 0).
Proof.
  unfold sample_of. now destruct (filter present values).
Qed.

Lemma absent_present v : absent v = negb (present v).
Proof. now destruct v as [| | b | x | [| c s] | o]. Qed.

Lemma strings_of_length l : length (strings_of l) <= length l.
Proof.
  induction l as [| v l IH]; simpl; [lia |].
  destruct v; simpl; lia.
Qed.

Lemma strings_of_In s l : In s (strings_of l) <-> In (VStr s) l.
Proof.
  unfold strings_of. rewrite in_flat_map. split.
  - intros (v & Hv & Hs). destruct v; simpl in Hs; try tauto.
    destruct Hs as [<- | []]. assumption.
  - intros H. exists (VStr s). simpl. auto.
Qed.

Lemma numbers_of_In x l : In x (numbers_of l) <-> In (VNum x) l.
Proof.
  unfold numbers_of. rewrite in_flat_map. split.
  - intros (v & Hv & Hs). destruct v; simpl in Hs; try tauto.
    destruct Hs as [<- | []]. assumption.
  - intros H. exists (VNum x). simpl. auto.
Qed.

Lemma numbers_of_length l : length (numbers_of l) <= length l.
Proof.
  induction l as [| v l IH]; simpl; [lia |].
  destruct v; simpl; lia.
Qed.

Lemma numbers_of_coerced l :
  Forall (fun v => is_number v = true) l -> numbers_of l = coerced l.
Proof.
  induction 1 as [| v l Hv _ IH]; [reflexivity |].
  destruct v as [| | b | x | s | []]; try discriminate. simpl. now f_equal.
Qed.

Lemma filter_length_all {A} (f : A -> bool) l :
  (length (filter f l) =? length l) = forallb f l.
Proof.
  induction l as [| a l IH]; [reflexivity |].
  pose proof (filter_length_le f l) as Hle. simpl.
  destruct (f a); simpl.
  - exact IH.
  - apply Nat.eqb_neq. lia.
Qed.

Lemma filter_none {A} (f : A -> bool) l :
  (forall a, In a l -> f a = false) -> filter f l = [].
Proof.
  induction l as [| a l IH]; intros H; simpl; [reflexivity |].
  rewrite (H a) by now left. apply IH. intros; apply H; now right.
Qed.

End SampleFacts.

Section NumericSampleFacts.

Variable sample : list value.
Hypothesis sample_nonempty : sample <> [].
Hypothesis sample_small : length sample <= 100.
Hypothesis sample_numeric : forallb numeric sample = true.

Lemma numeric_string s : In s (strings_of sample) ->
                         isNaN (StringToNumber s) = false.
Proof.
  intros Hs. apply strings_of_In in Hs.
  rewrite forallb_forall in sample_numeric.
  apply sample_numeric in Hs. unfold numeric in Hs. simpl in Hs.
  now apply negb_true_iff in Hs.
Qed.

Lemma sample_length_pos : 1 <= length sample.
Proof. destruct sample; [congruence | simpl; lia]. Qed.

(** A sample of numbers and numeric texts is not temporal. *)
Lemma isTemporalField_numeric : isTemporalField sample = false.
Proof.
  pose proof sample_length_pos as Hpos.
  pose proof (strings_of_length sample) as Hle.
  unfold isTemporalField.
  rewrite lt_0_8_exact by lia.
  destruct (10 * length (strings_of sample) <? 8 * length sample) eqn:E;
    [reflexivity |].
  apply Nat.ltb_ge in E.
  rewrite filter_none.
  - rewrite ge_0_8_exact by (simpl; lia). apply Nat.leb_gt. simpl. lia.
  - intros s Hs. apply numeric_string in Hs.
    destruct (existsb (fun pattern => test pattern s) DATE_PATTERNS) eqn:Ed;
      [| reflexivity].
    apply date_shaped_not_number in Ed. congruence.
Qed.

(** A sample of numbers and numeric texts is not an ordinal vocabulary. *)
Lemma isOrdinalString_numeric : isOrdinalString sample = false.
Proof.
  pose proof sample_length_pos as Hpos.
  unfold isOrdinalString.
  destruct (length (strings_of sample) =? length sample) eqn:E;
    [| reflexivity].
  apply Nat.eqb_eq in E. simpl negb. cbv iota.
  destruct (length (new_Set (map VStr (strings_of sample))) <? 2);
    [reflexivity |].
  rewrite filter_none.
  - rewrite ge_0_5_exact by (simpl; lia). apply Nat.leb_gt. simpl. lia.
  - intros s Hs. apply numeric_string in Hs.
    destruct (matchesOrdinal s) eqn:Eo; [| reflexivity].
    apply ordinal_not_number in Eo. congruence.
Qed.

End NumericSampleFacts.

Section LooksLikeIdFacts.

Lemma sequentialRatio_eq nums :
  nums <> [] ->
  sequentialRatio nums
  = div (of_nat (count_gaps (sort compare_numbers nums)))
        (of_Z (Z.of_nat (length nums - 1))).
Proof.
  intros Hne. unfold sequentialRatio. rewrite sort_length.
  destruct nums as [| x nums]; [congruence |].
  simpl length. do 2 f_equal. lia.
Qed.

(** Integers with a dense run look like identifiers. *)
Lemma looksLikeId_dense sample :
  sample <> [] -> length sample <= 100 ->
  Forall (fun v => is_number v = true) sample ->
  forallb isInteger (coerced sample) = true ->
  sequential_ratio_exceeds 7 10 sample ->
  looksLikeId sample = true.
Proof.
  intros Hne Hlen Hnum Hint Hratio.
  unfold sequential_ratio_exceeds, sequential_pairs in Hratio.
  unfold looksLikeId.
  rewrite (numbers_of_coerced _ Hnum).
  assert (Hl : length (coerced sample) = length sample)
    by apply length_map.
  rewrite Hl, Nat.eqb_refl, Hint. simpl negb. cbv iota.
  assert (Hne' : coerced sample <> [])
    by (destruct sample; [congruence | discriminate]).
  rewrite (sequentialRatio_eq _ Hne'), Hl.
  pose proof (count_gaps_bound (sort compare_numbers (coerced sample))) as Hb.
  rewrite sort_length, Hl in Hb.
  rewrite ratio_gt_0_7_exact by lia.
  apply Nat.ltb_lt in Hratio. now rewrite Hratio.
Qed.

(** A sample that holds a value other than a number, be it a numeric text,
    does not look like identifiers: the first test of [looksLikeId]. *)
Lemma looksLikeId_not_number sample v :
  In v sample -> is_number v = false -> looksLikeId sample = false.
Proof.
  intros Hv Hn. unfold looksLikeId.
  replace (length (numbers_of sample) =? length sample) with false;
    [reflexivity |].
  symmetry. apply Nat.eqb_neq.
  induction sample as [| w sample IH]; [destruct Hv |].
  pose proof (numbers_of_length sample) as Hle.
  destruct Hv as [-> | Hv].
  - destruct v; try discriminate; simpl; lia.
  - specialize (IH Hv). destruct w; simpl; lia.
Qed.

(** A sample with one distinct value does not look like identifiers. *)
Lemma looksLikeId_constant sample :
  sample <> [] -> length sample <= 100 -> Set_size sample = 1 ->
  looksLikeId sample = false.
Proof.
  intros Hne Hlen Hone. unfold looksLikeId.
  destruct (length (numbers_of sample) =? length sample) eqn:El;
    [| reflexivity].
  apply Nat.eqb_eq in El. simpl negb. cbv iota.
  destruct (forallb isInteger (numbers_of sample)) eqn:Ei; [| reflexivity].
  simpl negb. cbv iota.
  assert (Hne' : numbers_of sample <> [])
    by (destruct (numbers_of sample); [destruct sample; easy | discriminate]).
  assert (Hgaps : count_gaps (sort compare_numbers (numbers_of sample)) = 0).
  { apply (count_gaps_none
             (fun x => In (VNum x) sample /\ isInteger x = true)).
    - intros a b [Ha Hia] [Hb _].
      apply same_key_no_gap; [| assumption].
      now apply (Set_size_one _ Hone).
    - apply sort_Forall. apply Forall_forall. intros x Hx. split.
      + now apply numbers_of_In.
      + rewrite forallb_forall in Ei. now apply Ei. }
  rewrite (sequentialRatio_eq _ Hne'), Hgaps, El.
  rewrite ratio_gt_0_7_exact, ratio_gt_0_3_exact by lia.
  replace (7 * (length sample - 1) <? 10 * 0) with false
    by (symmetry; apply Nat.ltb_ge; lia).
  replace (3 * (length sample - 1) <? 10 * 0) with false
    by (symmetry; apply Nat.ltb_ge; lia).
  now rewrite andb_false_r.
Qed.

End LooksLikeIdFacts.

Section DetectFieldTypeFacts.

Variable values : list value.
Variable fieldName : option jstring.

(** The classifier returns temporal only through the temporal check. *)
Lemma detectFieldType_temporal :
  detectFieldType values fieldName = temporal ->
  sample_of values <> [] /\ isTemporalField (sample_of values) = true.
Proof.
  unfold detectFieldType. rewrite sample_of_empty.
  fold (sample_of values).
  destruct (sample_of values) as [| v sample] eqn:Es; [discriminate |].
  simpl length. simpl Nat.eqb. cbv iota.
  destruct (isTemporalField (v :: sample)); [intros _; now split |].
  repeat match goal with
         | |- context [if ?c then _ else _] => destruct c
         end; discriminate.
Qed.

Hypothesis sample_nonempty : sample_of values <> [].
Hypothesis sample_numeric : forallb numeric (sample_of values) = true.

(** On numbers and numeric texts the classifier reaches the numeric check. *)
Lemma detectFieldType_numeric_id :
  namedLikeId fieldName = true \/ looksLikeId (sample_of values) = true ->
  detectFieldType values fieldName = nominal.
Proof.
  intros Hid.
  pose proof (sample_of_length values) as Hlen.
  unfold detectFieldType. rewrite sample_of_empty.
  fold (sample_of values).
  replace (length (sample_of values) =? 0) with false
    by (destruct (sample_of values); [congruence | reflexivity]).
  rewrite isTemporalField_numeric, isOrdinalString_numeric by assumption.
  rewrite filter_length_all, sample_numeric.
  destruct (namedLikeId fieldName); [reflexivity |].
  destruct Hid as [Hid | Hid]; [discriminate |]. now rewrite Hid.
Qed.

Lemma detectFieldType_numeric_constant :
  namedLikeId fieldName = false -> Set_size (sample_of values) = 1 ->
  detectFieldType values fieldName = quantitative.
Proof.
  intros Hname Hone.
  pose proof (sample_of_length values) as Hlen.
  unfold detectFieldType. rewrite sample_of_empty.
  fold (sample_of values).
  replace (length (sample_of values) =? 0) with false
    by (destruct (sample_of values); [congruence | reflexivity]).
  rewrite isTemporalField_numeric, isOrdinalString_numeric by assumption.
  rewrite filter_length_all, sample_numeric, Hname.
  rewrite looksLikeId_constant by assumption.
  fold (Set_size (sample_of values)). rewrite Hone.
  change (1 =? 1) with true. cbv iota.
  repeat match goal with
         | |- context [if ?c then _ else _] => destruct c
         end; reflexivity.
Qed.

End DetectFieldTypeFacts.

Section IdNameFacts.

Lemma hasIdFieldName_key fieldName :
  equals_ci "key" fieldName -> hasIdFieldName fieldName = true.
Proof.
  intros H. unfold hasIdFieldName. apply existsb_exists.
  exists (mkRegExp true (lit "key") true true).
  split; [unfold ID_NAME_PATTERNS; simpl; tauto |].
  unfold test. apply matches_lang. cbn [full_pattern anchored_start body anchored_end ignoreCase].
  exists [], fieldName. repeat split.
  exists fieldName, []. rewrite app_nil_r. repeat split.
  now apply lang_lit_ci.
Qed.

Lemma hasIdFieldName_underscore_key fieldName :
  ends_with_ci_on_one_line "_key" fieldName ->
  hasIdFieldName fieldName = true.
Proof.
  intros (pre & suf & -> & Hpre & Hsuf).
  unfold hasIdFieldName. apply existsb_exists.
  exists (mkRegExp true (Cat (Star (Atom ADot)) (lit "_key")) true true).
  split; [unfold ID_NAME_PATTERNS; simpl; tauto |].
  unfold test. apply matches_lang. cbn [full_pattern anchored_start body anchored_end ignoreCase].
  exists [], (pre ++ suf). repeat split.
  exists (pre ++ suf), []. rewrite app_nil_r. repeat split.
  exists pre, suf. repeat split.
  - apply lang_star_atom. apply Forall_forall. intros c Hc.
    rewrite forallb_forall in Hpre. now apply Hpre.
  - now apply lang_lit_ci.
Qed.

Lemma namedLikeId_key fieldName :
  equals_ci "key" fieldName \/ ends_with_ci_on_one_line "_key" fieldName ->
  namedLikeId (Some fieldName) = true.
Proof.
  intros H.
  assert (Hid : hasIdFieldName fieldName = true)
    by (destruct H; [now apply hasIdFieldName_key
                    | now apply hasIdFieldName_underscore_key]).
  unfold namedLikeId. destruct fieldName; [discriminate Hid | exact Hid].
Qed.

End IdNameFacts.

(* ================================================================== *)
(** * The claims *)

(** C1, as stated, fails: the texts '1001' ... '1005' all parse as
    numbers, are integers once coerced and have sequential ratio 4/4, yet
    they are classified ordinal, since [looksLikeId] only accepts values
    whose type is number. *)
Lemma numeric_text_ids_not_nominal :
  let values := texts ["1001"; "1002"; "1003"; "1004"; "1005"]%string in
  forallb numeric (sample_of values) = true /\
  forallb isInteger (coerced (sample_of values)) = true /\
  sequential_ratio_exceeds 7 10 (sample_of values) /\
  namedLikeId None = false /\
  detectFieldType values None = ordinal /\
  detectFieldType values None <> nominal.
Proof.
  repeat split; try (vm_compute; reflexivity).
  - unfold sequential_ratio_exceeds. vm_compute. lia.
  - vm_compute. discriminate.
Qed.

(** C1, amended: for every sample in which every value is a number, all of
    them integers, and whose sequential ratio exceeds 0.7, the classifier
    returns nominal when no ID-matching field name is supplied. *)
Theorem dense_integers_nominal values fieldName :
  Forall (fun v => is_number v = true) (sample_of values) ->
  forallb isInteger (coerced (sample_of values)) = true ->
  sequential_ratio_exceeds 7 10 (sample_of values) ->
  namedLikeId fieldName = false ->
  detectFieldType values fieldName = nominal.
Proof.
  intros Hnum Hint Hratio _.
  assert (Hne : sample_of values <> []).
  { intros E. rewrite E in Hratio.
    unfold sequential_ratio_exceeds in Hratio. simpl in Hratio. lia. }
  apply detectFieldType_numeric_id; [assumption | |].
  - apply forallb_forall. intros v Hv.
    rewrite Forall_forall in Hnum. unfold numeric.
    now rewrite (Hnum v Hv).
  - right. apply looksLikeId_dense; auto using sample_of_length.
Qed.

Lemma dense_integers_nominal_witness :
  let values := numbers [1001; 1002; 1003; 1004; 1005]%Z in
  Forall (fun v => is_number v = true) (sample_of values) /\
  forallb isInteger (coerced (sample_of values)) = true /\
  sequential_ratio_exceeds 7 10 (sample_of values) /\
  namedLikeId None = false /\
  detectFieldType values None = nominal.
Proof.
  assert (H1 : Forall (fun v => is_number v = true)
                 (sample_of (numbers [1001; 1002; 1003; 1004; 1005]%Z)))
    by (repeat constructor).
  assert (H2 : forallb isInteger
                 (coerced (sample_of (numbers [1001; 1002; 1003; 1004; 1005]%Z)))
               = true)
    by reflexivity.
  assert (H3 : sequential_ratio_exceeds 7 10
                 (sample_of (numbers [1001; 1002; 1003; 1004; 1005]%Z)))
    by (unfold sequential_ratio_exceeds; vm_compute; lia).
  exact (conj H1 (conj H2 (conj H3 (conj eq_refl
           (dense_integers_nominal _ None H1 H2 H3 eq_refl))))).
Defined.

(** C2, as stated, fails: a column whose only value is the empty text has
    no distinct non-absent value, and its descriptor has uniqueCount 1. *)
Lemma uniqueCount_counts_empty_text :
  let data := [[(str "a", VStr [])]] in
  map uniqueCount (detectAllFields data) = [1] /\
  count_distinct (filter (fun v => negb (absent v)) (column data (str "a")))
  = 0.
Proof. split; reflexivity. Qed.

(** C2, amended: for every dataset and every descriptor the batch wrapper
    produces, uniqueCount is the number of distinct values of that column,
    across all the rows, that are neither null nor undefined; the empty
    text counts as a value.  The value of a column in a row is what
    [row[name]] reads. *)
Theorem uniqueCount_distinct_non_null data d :
  In d (detectAllFields data) ->
  uniqueCount d
  = count_distinct
      (filter (fun v => negb (nullish v)) (column data (name d))).
Proof.
  destruct data as [| first rest]; [intros [] |].
  unfold detectAllFields. rewrite in_map_iff.
  intros (nm & <- & _). simpl name. simpl uniqueCount.
  apply Set_size_count_distinct.
Qed.

Lemma uniqueCount_distinct_non_null_witness :
  let data := [[(str "a", VStr []); (str "b", VNum (of_Z 1))];
               [(str "a", VNull); (str "b", VNum (of_Z 1))]] in
  let d := mkDetectedField (str "a") nominal 1 in
  In d (detectAllFields data) /\
  uniqueCount d
  = count_distinct
      (filter (fun v => negb (nullish v)) (column data (name d))).
Proof.
  assert (H : In (mkDetectedField (str "a") nominal 1)
                (detectAllFields
                   [[(str "a", VStr []); (str "b", VNum (of_Z 1))];
                    [(str "a", VNull); (str "b", VNum (of_Z 1))]]))
    by (left; reflexivity).
  split; [exact H |].
  exact (uniqueCount_distinct_non_null _ _ H).
Defined.

(** C3, as stated, fails: the years 2020 ... 2024 are not classified
    ordinal. *)
Lemma years_not_ordinal :
  detectFieldType (numbers [2020; 2021; 2022; 2023; 2024]%Z) None <> ordinal.
Proof. vm_compute. discriminate. Qed.

(** C3, amended: the numbers 2020 ... 2024, without a field name, look like
    identifiers (sequential ratio 4/4) and are classified nominal. *)
Theorem years_nominal :
  let values := numbers [2020; 2021; 2022; 2023; 2024]%Z in
  looksLikeId (sample_of values) = true /\
  detectFieldType values None = nominal.
Proof. split; vm_compute; reflexivity. Qed.

(** C4, as stated, fails: 'monkey' ends in 'key', the sample is numeric,
    and the classifier returns quantitative: the patterns accept the name
    'key' itself and the ending '_key', not every ending 'key'. *)
Lemma monkey_not_nominal :
  let values := [VNum (StringToNumber (str "1.5"))] in
  ends_with_ci "key" (str "monkey") /\
  forallb numeric (sample_of values) = true /\
  detectFieldType values (Some (str "monkey")) = quantitative /\
  detectFieldType values (Some (str "monkey")) <> nominal.
Proof.
  split; [| split; [| split]].
  - exists (str "mon"), (str "key"). split; reflexivity.
  - reflexivity.
  - vm_compute. reflexivity.
  - vm_compute. discriminate.
Qed.

(** C4, amended: for every sample in which every value is a number or a
    text that parses as a number, if the field name supplied is 'key', or
    ends in '_key' with no line terminator before it, whatever the case of
    the letters, the classifier returns nominal. *)
Theorem key_name_nominal values fieldName :
  forallb numeric (sample_of values) = true ->
  equals_ci "key" fieldName \/ ends_with_ci_on_one_line "_key" fieldName ->
  detectFieldType values (Some fieldName) = nominal.
Proof.
  intros Hnum Hname.
  destruct (sample_of values) as [| v sample] eqn:Es.
  - unfold detectFieldType. rewrite sample_of_empty, Es. reflexivity.
  - apply detectFieldType_numeric_id.
    + rewrite Es. discriminate.
    + now rewrite Es.
    + left. now apply namedLikeId_key.
Qed.

Lemma key_name_nominal_witness :
  let values := [VNum (StringToNumber (str "1.5")); VStr (str "2e3")] in
  forallb numeric (sample_of values) = true /\
  (equals_ci "key" (str "Api_Key") \/
   ends_with_ci_on_one_line "_key" (str "Api_Key")) /\
  detectFieldType values (Some (str "Api_Key")) = nominal.
Proof.
  assert (H1 : forallb numeric
                 (sample_of [VNum (StringToNumber (str "1.5"));
                             VStr (str "2e3")]) = true)
    by reflexivity.
  assert (H2 : equals_ci "key" (str "Api_Key") \/
               ends_with_ci_on_one_line "_key" (str "Api_Key")).
  { right. exists (str "Api"), (str "_Key"). repeat split. }
  exact (conj H1 (conj H2 (key_name_nominal _ _ H1 H2))).
Defined.

(** C5: the classifier returns temporal only if at least 80% of the values
    of the working sample are texts and at least 80% of those texts match
    one of the four date shapes; so a sample without a text is never
    temporal. *)
Theorem temporal_only_if_mostly_dates values fieldName :
  detectFieldType values fieldName = temporal ->
  let sample := sample_of values in
  let textValues := strings_of sample in
  8 * length sample <= 10 * length textValues /\
  8 * length textValues <= 10 * length (filter date_shaped textValues) /\
  textValues <> [].
Proof.
  intros H. apply detectFieldType_temporal in H as [Hne Ht].
  pose proof (sample_of_length values) as Hlen.
  pose proof (strings_of_length (sample_of values)) as Hle.
  cbv zeta. unfold isTemporalField in Ht.
  rewrite lt_0_8_exact in Ht by lia.
  destruct (10 * length (strings_of (sample_of values))
            <? 8 * length (sample_of values)) eqn:E; [discriminate |].
  apply Nat.ltb_ge in E.
  change (filter (fun v => existsb (fun pattern => test pattern v)
                                   DATE_PATTERNS))
    with (filter date_shaped) in Ht.
  pose proof (filter_length_le date_shaped (strings_of (sample_of values)))
    as Hf.
  rewrite ge_0_8_exact in Ht by lia.
  apply Nat.leb_le in Ht.
  repeat split; try lia.
  intros Hnil. rewrite Hnil in E. simpl in E.
  destruct (sample_of values); [congruence | simpl in E; lia].
Qed.

Lemma temporal_only_if_mostly_dates_witness :
  let values := texts ["2023-01-15"; "2023-02-20"; "2023-03-10"]%string in
  detectFieldType values None = temporal /\
  8 * length (sample_of values) <= 10 * length (strings_of (sample_of values)).
Proof.
  assert (H : detectFieldType
                (texts ["2023-01-15"; "2023-02-20"; "2023-03-10"]%string)
                None = temporal)
    by reflexivity.
  exact (conj H (proj1 (temporal_only_if_mostly_dates _ _ H))).
Defined.

(** C6: for every non-empty sample in which every value is a number or a
    text that parses as a number and which has exactly one distinct value,
    the classifier returns quantitative when no ID-matching field name is
    supplied. *)
Theorem constant_numeric_quantitative values fieldName :
  sample_of values <> [] ->
  forallb numeric (sample_of values) = true ->
  count_distinct (sample_of values) = 1 ->
  namedLikeId fieldName = false ->
  detectFieldType values fieldName = quantitative.
Proof.
  intros Hne Hnum Hone Hname.
  apply detectFieldType_numeric_constant; try assumption.
  now rewrite Set_size_count_distinct.
Qed.

Lemma constant_numeric_quantitative_witness :
  let values := numbers [42]%Z in
  sample_of values <> [] /\
  forallb numeric (sample_of values) = true /\
  count_distinct (sample_of values) = 1 /\
  namedLikeId None = false /\
  detectFieldType values None = quantitative.
Proof.
  assert (H1 : sample_of (numbers [42]%Z) <> []) by discriminate.
  exact (conj H1 (conj eq_refl (conj eq_refl (conj eq_refl
           (constant_numeric_quantitative (numbers [42]%Z) None
              H1 eq_refl eq_refl eq_refl))))).
Defined.

(** C7: the batch wrapper produces one descriptor per key of the first
    row, in the order of those keys, the type of each being the classifier
    applied to the whole column, in row order, and to the column name; an
    empty dataset produces no descriptor. *)
Theorem detectAllFields_descriptors data :
  match data with
  | [] => detectAllFields data = []
  | first :: _ =>
      map name (detectAllFields data) = Object_keys first /\
      length (detectAllFields data) = length (Object_keys first) /\
      forall d, In d (detectAllFields data) ->
                type d = detectFieldType (column data (name d))
                                         (Some (name d))
  end.
Proof.
  destruct data as [| first rest]; [reflexivity |].
  unfold detectAllFields. repeat split.
  - rewrite map_map. simpl. apply map_id.
  - apply length_map.
  - intros d Hd. apply in_map_iff in Hd as (nm & <- & _). reflexivity.
Qed.

Lemma detectAllFields_descriptors_witness :
  let data := [[(str "b", VNum (of_Z 1)); (str "a", VStr (str "x"))];
               [(str "a", VNull); (str "b", VNum (of_Z 7)); (str "c", VNull)]] in
  map name (detectAllFields data) = [str "b"; str "a"] /\
  map type (detectAllFields data)
  = [detectFieldType [VNum (of_Z 1); VNum (of_Z 7)] (Some (str "b"));
     detectFieldType [VStr (str "x"); VNull] (Some (str "a"))].
Proof.
  split.
  - exact (proj1 (detectAllFields_descriptors
                    [[(str "b", VNum (of_Z 1)); (str "a", VStr (str "x"))];
                     [(str "a", VNull); (str "b", VNum (of_Z 7));
                      (str "c", VNull)]])).
  - reflexivity.
Defined.

(** C8: the classifier returns a semantic type on every input, and it
    returns nominal when no value of the input is present: on the empty
    sequence and on any sequence of null, undefined or empty text. *)
Theorem detectFieldType_total_default_nominal values fieldName :
  exists t,
    detectFieldType values fieldName = t /\
    (forallb absent values = true -> t = nominal).
Proof.
  exists (detectFieldType values fieldName). split; [reflexivity |].
  intros H. unfold detectFieldType.
  rewrite filter_none; [reflexivity |].
  intros v Hv. rewrite forallb_forall in H.
  apply H in Hv. rewrite absent_present in Hv.
  now apply negb_true_iff in Hv.
Qed.

Lemma detectFieldType_total_default_nominal_witness :
  forallb absent [VNull; VUndefined; VStr []] = true /\
  detectFieldType [VNull; VUndefined; VStr []] None = nominal /\
  detectFieldType [] None = nominal.
Proof.
  split; [reflexivity | split].
  - destruct (detectFieldType_total_default_nominal
                [VNull; VUndefined; VStr []] None) as (t & Ht & Hnom).
    rewrite Ht. exact (Hnom eq_refl).
  - destruct (detectFieldType_total_default_nominal [] None)
      as (t & Ht & Hnom).
    rewrite Ht. exact (Hnom eq_refl).
Defined.

(** C9: the classifier is deterministic; two evaluations on the same
    values and field name, and more generally on values with the same
    working sample, return the same type. *)
Theorem detectFieldType_deterministic values values' fieldName t t' :
  sample_of values = sample_of values' ->
  detectFieldType values fieldName = t ->
  detectFieldType values' fieldName = t' ->
  t = t'.
Proof.
  intros Hs <- <-. unfold detectFieldType.
  rewrite !sample_of_empty.
  fold (sample_of values). fold (sample_of values').
  now rewrite Hs.
Qed.

Lemma detectFieldType_deterministic_witness :
  let values := numbers [1; 2; 3; 1; 2; 3; 2; 1; 3]%Z in
  sample_of values = sample_of values /\
  detectFieldType values None = ordinal /\
  detectFieldType values None = detectFieldType (VNull :: values) None.
Proof.
  split; [reflexivity | split; [reflexivity |]].
  exact (detectFieldType_deterministic
           (numbers [1; 2; 3; 1; 2; 3; 2; 1; 3]%Z)
           (VNull :: numbers [1; 2; 3; 1; 2; 3; 2; 1; 3]%Z)
           None _ _ eq_refl eq_refl eq_refl).
Defined.

(** C10: on a sample of exactly one value the ID-shape heuristic returns
    false; for a single number the sequential ratio is 0 / 0, which is NaN
    and exceeds no threshold, and the classifier returns quantitative, not
    nominal, when no ID-matching field name is supplied. *)
Theorem looksLikeId_single_value v x fieldName :
  namedLikeId fieldName = false ->
  looksLikeId [v] = false /\
  sequentialRatio [x] = NaN /\
  detectFieldType [VNum x] fieldName = quantitative.
Proof.
  intros Hname. repeat split.
  - destruct v as [| | b | y | s | o]; try reflexivity.
    unfold looksLikeId. simpl numbers_of.
    destruct (forallb isInteger [y]); [| reflexivity].
    cbn [length Nat.eqb negb].
    change (sequentialRatio [y]) with NaN.
    change (gt NaN lit_0_7) with false.
    change (gt NaN lit_0_3) with false.
    now rewrite andb_false_r.
  - apply detectFieldType_numeric_constant; try assumption;
      try reflexivity.
    discriminate.
Qed.

Lemma looksLikeId_single_value_witness :
  namedLikeId None = false /\
  looksLikeId [VNum (of_Z 42)] = false /\
  detectFieldType [VNum (of_Z 42)] None = quantitative.
Proof.
  split; [reflexivity |].
  destruct (looksLikeId_single_value (VNum (of_Z 42)) (of_Z 42) None eq_refl)
    as (H1 & _ & H3).
  exact (conj H1 H3).
Defined.

Import Props.

(* ================================================================== *)
(** * Further properties of the classifier *)

Section ClassifierCases.

Lemma filter_all {A} (f : A -> bool) l :
  forallb f l = true -> filter f l = l.
Proof.
  induction l as [| a l IH]; simpl; [reflexivity |].
  rewrite andb_true_iff. intros [Ha Hl]. now rewrite Ha, IH.
Qed.

Lemma Set_size_pos v l : 1 <= Set_size (v :: l).
Proof.
  unfold Set_size. destruct (new_Set_spec (v :: l)) as [_ Hin].
  rewrite <- (length_map svz_key).
  destruct (map svz_key (new_Set (v :: l))) eqn:E; [| simpl; lia].
  exfalso. apply (Hin (svz_key v)). now left.
Qed.

(** The classifier on a non-empty sample, as one chain of tests on the
    sample. *)
Lemma detectFieldType_chain values fieldName :
  sample_of values <> [] ->
  let s := sample_of values in
  let range := sub (Math_max (coerced s)) (Math_min (coerced s)) in
  detectFieldType values fieldName =
  if isTemporalField s then temporal
  else if isOrdinalString s then ordinal
  else if forallb numeric s then
    if namedLikeId fieldName then nominal
    else if looksLikeId s then nominal
    else if has_non_integer s then quantitative
    else if gt range (of_Z 100) then quantitative
    else if Set_size s =? 1 then quantitative
    else if (Set_size s <=? CATEGORICAL_THRESHOLD)
            && le range (of_nat CATEGORICAL_THRESHOLD)
    then ordinal
    else quantitative
  else nominal.
Proof.
  intros Hne. cbv zeta.
  unfold detectFieldType. rewrite sample_of_empty.
  fold (sample_of values).
  replace (length (sample_of values) =? 0) with false
    by (destruct (sample_of values); [congruence | reflexivity]).
  rewrite filter_length_all.
  destruct (forallb numeric (sample_of values)) eqn:Hnum; [| reflexivity].
  rewrite (filter_all _ _ Hnum).
  replace (map (fun v => match v with VNum x => x | _ => Number_ v end)
               (sample_of values))
    with (coerced (sample_of values))
    by (apply map_ext; now intros []).
  reflexivity.
Qed.

Lemma isTemporalField_exact sample :
  length sample <= 100 ->
  isTemporalField sample
  = (8 * length sample <=? 10 * length (strings_of sample))
    && (8 * length (strings_of sample) <=? 10 * length (date_texts sample)).
Proof.
  intros Hlen.
  pose proof (strings_of_length sample) as Hle.
  pose proof (filter_length_le date_shaped (strings_of sample)) as Hf.
  unfold isTemporalField.
  change (filter (fun v => existsb (fun pattern => test pattern v)
                                   DATE_PATTERNS) (strings_of sample))
    with (date_texts sample).
  unfold date_texts in *.
  rewrite lt_0_8_exact, ge_0_8_exact by lia.
  rewrite (Nat.leb_antisym (10 * length (strings_of sample)) (8 * length sample)).
  now destruct (10 * length (strings_of sample) <? 8 * length sample).
Qed.

Lemma strings_of_all l :
  forallb is_string l = true -> map VStr (strings_of l) = l.
Proof.
  induction l as [| v l IH]; [reflexivity |].
  simpl. rewrite andb_true_iff. intros [Hv Hl].
  destruct v as [| | b | x | s | []]; try discriminate. simpl. now rewrite IH.
Qed.

Lemma strings_of_length_all l :
  (length (strings_of l) =? length l) = forallb is_string l.
Proof.
  induction l as [| v l IH]; [reflexivity |].
  pose proof (strings_of_length l) as Hle.
  destruct v as [| | b | x | s | []]; simpl; try (apply Nat.eqb_neq; lia).
  exact IH.
Qed.

Lemma isOrdinalString_exact sample :
  length sample <= 100 ->
  isOrdinalString sample
  = forallb is_string sample
    && (2 <=? count_distinct sample)
    && (length sample <=? 2 * length (vocabulary_texts sample)).
Proof.
  intros Hlen.
  pose proof (filter_length_le matchesOrdinal (strings_of sample)) as Hf.
  unfold isOrdinalString. rewrite strings_of_length_all.
  destruct (forallb is_string sample) eqn:Hs; [| reflexivity].
  simpl negb. cbv iota.
  assert (Hl : length (strings_of sample) = length sample).
  { apply Nat.eqb_eq. now rewrite strings_of_length_all. }
  rewrite (strings_of_all _ Hs).
  fold (Set_size sample). rewrite Set_size_count_distinct.
  fold (vocabulary_texts sample). unfold vocabulary_texts in *.
  rewrite ge_0_5_exact by lia. rewrite Hl.
  rewrite (Nat.ltb_antisym 2 (count_distinct sample)).
  now destruct (2 <=? count_distinct sample).
Qed.

End ClassifierCases.


Section PatternShapes.

Lemma date_shaped_first_digit s :
  date_shaped s = true -> exists c rest, s = c :: rest /\ isDigit c = true.
Proof.
  unfold date_shaped. rewrite existsb_exists. intros (p & Hp & Ht).
  destruct s as [| c rest].
  - simpl in Hp.
    destruct Hp as [<- | [<- | [<- | [<- | []]]]]; discriminate Ht.
  - exists c, rest. split; [reflexivity |].
    unfold test in Ht.
    apply matches_lang, first_atoms_sound in Ht.
    simpl in Hp.
    destruct Hp as [<- | [<- | [<- | [<- | []]]]];
      cbn - [isDigit] in Ht; now rewrite orb_false_r in Ht.
Qed.

Lemma matchesOrdinal_first_letter s :
  matchesOrdinal s = true ->
  exists c rest, s = c :: rest /\
                 ((65 <= c <= 90)%N \/ (97 <= c <= 122)%N).
Proof.
  unfold matchesOrdinal. rewrite existsb_exists. intros (p & Hp & Ht).
  destruct s as [| c rest].
  - simpl in Hp.
    destruct Hp as [<- | [<- | [<- | [<- | []]]]]; discriminate Ht.
  - exists c, rest. split; [reflexivity |].
    unfold test in Ht.
    apply matches_lang, first_atoms_sound, existsb_exists in Ht.
    destruct Ht as (a & Ha & Hm).
    simpl in Hp.
    destruct Hp as [<- | [<- | [<- | [<- | []]]]]; simpl in Ha;
      repeat match goal with
             | H : _ \/ _ |- _ => destruct H
             | H : False |- _ => destruct H
             end;
      subst a; cbn - [char_eq] in Hm;
      rewrite ?orb_true_iff in Hm;
      repeat match goal with
             | H : _ \/ _ |- _ => destruct H
             | H : false = true |- _ => discriminate H
             end;
      (eapply letter_ci_range; [eassumption | lia | lia]).
Qed.

(** No text is both date-shaped and in an ordinal vocabulary. *)
Lemma date_shaped_not_ordinal s :
  date_shaped s = true -> matchesOrdinal s = false.
Proof.
  intros Hd. destruct (matchesOrdinal s) eqn:Ho; [| reflexivity].
  apply date_shaped_first_digit in Hd as (c & rest & -> & Hc).
  apply matchesOrdinal_first_letter in Ho as (c' & rest' & E & Hl).
  injection E as <- <-. apply letter_not_digit in Hl. congruence.
Qed.

Lemma filter_disjoint_length {A} (f g : A -> bool) l :
  (forall a, f a = true -> g a = false) ->
  length (filter f l) + length (filter g l) <= length l.
Proof.
  intros H. induction l as [| a l IH]; simpl; [lia |].
  destruct (f a) eqn:Hf.
  - rewrite (H a Hf). simpl. lia.
  - destruct (g a); simpl; lia.
Qed.

End PatternShapes.

Section MoreDetectFieldTypeFacts.

Lemma detectFieldType_same_sample values values' fieldName :
  sample_of values = sample_of values' ->
  detectFieldType values fieldName = detectFieldType values' fieldName.
Proof.
  intros Hs. unfold detectFieldType. rewrite !sample_of_empty.
  fold (sample_of values). fold (sample_of values'). now rewrite Hs.
Qed.

Lemma detectFieldType_empty values fieldName :
  sample_of values = [] -> detectFieldType values fieldName = nominal.
Proof.
  intros Hs. unfold detectFieldType. now rewrite sample_of_empty, Hs.
Qed.

(** What [looksLikeId] requires of a sample. *)
Lemma looksLikeId_requires sample :
  length sample <= 100 -> looksLikeId sample = true ->
  forallb is_number sample = true /\
  forallb isInteger (coerced sample) = true /\
  3 * (length sample - 1) < 10 * sequential_pairs sample.
Proof.
  intros Hlen H.
  destruct sample as [| v sample]; [discriminate H |].
  set (s := v :: sample) in *.
  assert (Hnum : Forall (fun v => is_number v = true) s).
  { apply Forall_forall. intros w Hw.
    destruct (is_number w) eqn:E; [reflexivity |].
    rewrite (looksLikeId_not_number s w Hw E) in H. discriminate H. }
  unfold looksLikeId in H.
  rewrite (numbers_of_coerced _ Hnum) in H.
  assert (El : length (coerced s) = length s) by apply length_map.
  rewrite El, Nat.eqb_refl in H.
  destruct (forallb isInteger (coerced s)) eqn:Ei;
    cbn [negb] in H; [| discriminate H].
  split; [now apply forallb_forall, Forall_forall | split; [reflexivity |]].
  assert (Hne : coerced s <> []) by discriminate.
  pose proof (count_gaps_bound (sort compare_numbers (coerced s))) as Hb.
  rewrite sort_length in Hb.
  rewrite (sequentialRatio_eq _ Hne), El in H.
  rewrite El in Hb.
  rewrite ratio_gt_0_7_exact, ratio_gt_0_3_exact in H by lia.
  unfold sequential_pairs.
  destruct (7 * (length s - 1)
            <? 10 * count_gaps (sort compare_numbers (coerced s))) eqn:E7.
  - apply Nat.ltb_lt in E7. lia.
  - destruct (3 * (length s - 1)
              <? 10 * count_gaps (sort compare_numbers (coerced s))) eqn:E3.
    + now apply Nat.ltb_lt in E3.
    + rewrite andb_false_r in H. discriminate H.
Qed.

Lemma namedLikeId_some fieldName :
  hasIdFieldName fieldName = true -> namedLikeId (Some fieldName) = true.
Proof.
  intros H. unfold namedLikeId.
  destruct fieldName; [discriminate H | exact H].
Qed.

End MoreDetectFieldTypeFacts.


Section IdNamePatterns.

Lemma lang_lit_ci_inv w :
  forall s, lang true (lit w) s -> jstring_eqb_ci (str w) s = true.
Proof.
  unfold str, lit.
  induction (list_ascii_of_string w) as [| a l IH]; intros s; simpl.
  - now intros ->.
  - intros (s1 & s2 & -> & (c & -> & Hc) & H2). simpl.
    now rewrite Hc, IH.
Qed.

Lemma lang_star_atom_inv ic a s :
  lang ic (Star (Atom a)) s ->
  Forall (fun c => atom_matches ic a c = true) s.
Proof.
  simpl. intros (ss & -> & Hall).
  induction Hall as [| x ss (c & -> & Hc) _ IH]; simpl; auto.
Qed.

Lemma lang_star_any ic s : lang ic (Star (Atom AAny)) s.
Proof. apply lang_star_atom. now apply Forall_forall. Qed.

(** [/w$/i] *)
Lemma test_suffix w fieldName :
  test (mkRegExp false (lit w) true true) fieldName = true <->
  ends_with_ci w fieldName.
Proof.
  unfold test. rewrite matches_lang.
  cbn [full_pattern anchored_start body anchored_end ignoreCase lang].
  split.
  - intros (pre & s2 & -> & _ & suf & s3 & -> & Hsuf & ->).
    exists pre, suf. rewrite app_nil_r. split; [reflexivity |].
    now apply lang_lit_ci_inv.
  - intros (pre & suf & -> & Hsuf).
    exists pre, suf. split; [reflexivity |]. split.
    + apply (lang_star_any true).
    + exists suf, []. rewrite app_nil_r. repeat split.
      now apply lang_lit_ci.
Qed.

(** [/^w$/i] *)
Lemma test_exact w fieldName :
  test (mkRegExp true (lit w) true true) fieldName = true <->
  equals_ci w fieldName.
Proof.
  unfold test, equals_ci. rewrite matches_lang.
  cbn [full_pattern anchored_start body anchored_end ignoreCase lang].
  split.
  - intros (s1 & s2 & -> & -> & s & s3 & -> & Hs & ->).
    simpl. rewrite app_nil_r. now apply lang_lit_ci_inv.
  - intros H. exists [], fieldName. repeat split.
    exists fieldName, []. rewrite app_nil_r. repeat split.
    now apply lang_lit_ci.
Qed.

(** [/^.*w$/i] *)
Lemma test_line_suffix w fieldName :
  test (mkRegExp true (Cat (Star (Atom ADot)) (lit w)) true true) fieldName
  = true <->
  ends_with_ci_on_one_line w fieldName.
Proof.
  unfold test. rewrite matches_lang.
  cbn [full_pattern anchored_start body anchored_end ignoreCase].
  split.
  - intros (s1 & s2 & -> & -> & s & s3 & -> & (pre & suf & -> & Hpre & Hsuf)
            & ->).
    exists pre, suf. simpl. rewrite app_nil_r. split; [reflexivity |].
    split; [| now apply lang_lit_ci_inv].
    apply lang_star_atom_inv in Hpre.
    apply forallb_forall. rewrite Forall_forall in Hpre. exact Hpre.
  - intros (pre & suf & -> & Hpre & Hsuf).
    exists [], (pre ++ suf). repeat split.
    exists (pre ++ suf), []. rewrite app_nil_r. repeat split.
    exists pre, suf. repeat split.
    + apply lang_star_atom. apply Forall_forall.
      rewrite forallb_forall in Hpre. exact Hpre.
    + now apply lang_lit_ci.
Qed.

Lemma ends_with_ci_on_one_line_weaken w fieldName :
  ends_with_ci_on_one_line w fieldName -> ends_with_ci w fieldName.
Proof. intros (pre & suf & -> & _ & H). now exists pre, suf. Qed.

Lemma equals_ci_on_one_line w fieldName :
  equals_ci w fieldName -> ends_with_ci_on_one_line w fieldName.
Proof. intros H. exists [], fieldName. repeat split. exact H. Qed.

Lemma hasIdFieldName_patterns fieldName :
  hasIdFieldName fieldName = true <->
  ends_with_ci "_id" fieldName \/
  ends_with_ci_on_one_line "id" fieldName \/
  ends_with_ci "code" fieldName \/
  equals_ci "key" fieldName \/
  ends_with_ci_on_one_line "_key" fieldName.
Proof.
  unfold hasIdFieldName.
  cbn [ID_NAME_PATTERNS existsb].
  rewrite !orb_true_iff.
  rewrite !test_suffix, !test_exact, !test_line_suffix.
  split.
  - intros [H | [H | [H | [H | [H | [H | [H | H]]]]]]];
      auto using ends_with_ci_on_one_line_weaken, equals_ci_on_one_line.
    discriminate H.
  - intros [H | [H | [H | [H | H]]]]; auto 10.
Qed.

Lemma hasIdFieldName_accepts fieldName :
  id_like_name fieldName -> hasIdFieldName fieldName = true.
Proof. apply hasIdFieldName_patterns. Qed.

Lemma hasIdFieldName_accepted fieldName :
  hasIdFieldName fieldName = true -> id_like_name fieldName.
Proof. apply hasIdFieldName_patterns. Qed.

End IdNamePatterns.

(** X1 (hasIdFieldName): a field name is accepted exactly when it ends in
    '_id' or 'code', or ends in 'id' or '_key' with no line terminator
    before that ending, or is 'key', whatever the case of the letters. *)
Theorem hasIdFieldName_iff fieldName :
  hasIdFieldName fieldName = true <-> id_like_name fieldName.
Proof.
  split; [apply hasIdFieldName_accepted | apply hasIdFieldName_accepts].
Qed.

Lemma hasIdFieldName_iff_witness :
  id_like_name (str "Order_ID") /\ hasIdFieldName (str "Order_ID") = true.
Proof.
  assert (H : id_like_name (str "Order_ID")).
  { left. exists (str "Order"), (str "_ID"). split; reflexivity. }
  exact (conj H (proj2 (hasIdFieldName_iff (str "Order_ID")) H)).
Defined.


(** X2 (detectFieldType, isTemporalField): the classifier returns temporal
    exactly when the sample is not empty, at least 80% of its values are
    texts and at least 80% of those texts are date-shaped; the field name
    plays no part. *)
Theorem temporal_iff_mostly_dates values fieldName :
  detectFieldType values fieldName = temporal <->
  sample_of values <> [] /\
  8 * length (sample_of values) <= 10 * length (strings_of (sample_of values))
  /\ 8 * length (strings_of (sample_of values))
     <= 10 * length (date_texts (sample_of values)).
Proof.
  pose proof (sample_of_length values) as Hlen.
  split.
  - intros H. apply detectFieldType_temporal in H as [Hne Ht].
    rewrite isTemporalField_exact in Ht by assumption.
    apply andb_true_iff in Ht as [H1 H2].
    apply Nat.leb_le in H1, H2. auto.
  - intros (Hne & H1 & H2).
    rewrite detectFieldType_chain by assumption. cbv zeta.
    rewrite isTemporalField_exact by assumption.
    apply Nat.leb_le in H1, H2. now rewrite H1, H2.
Qed.

Lemma temporal_iff_mostly_dates_witness :
  let values := texts ["01/15/2023"; "02/20/2023"; "n/a"; "03/10/2023";
                       "3-1-24"]%string in
  detectFieldType values (Some (str "order_id")) = temporal.
Proof.
  apply (proj2 (temporal_iff_mostly_dates _ _)).
  split; [discriminate | split; vm_compute; lia].
Defined.

(** X3 (detectFieldType, isOrdinalString): a sample of texts with at least
    two distinct values, at least half of which belong to the ordinal
    vocabularies, is ordinal, whatever the field name. *)
Theorem vocabulary_sample_ordinal values fieldName :
  forallb is_string (sample_of values) = true ->
  2 <= count_distinct (sample_of values) ->
  length (sample_of values) <= 2 * length (vocabulary_texts (sample_of values)) ->
  detectFieldType values fieldName = ordinal.
Proof.
  intros Hs Hd Hv.
  pose proof (sample_of_length values) as Hlen.
  set (s := sample_of values) in *.
  assert (Hne : s <> []) by (intros E; rewrite E in Hd; simpl in Hd; lia).
  pose proof (filter_disjoint_length date_shaped matchesOrdinal
                (strings_of s) date_shaped_not_ordinal) as Hdj.
  pose proof (strings_of_length s) as Hle.
  fold (date_texts s) in Hdj. fold (vocabulary_texts s) in Hdj.
  assert (Hpos : 1 <= length s) by (destruct s; [congruence | simpl; lia]).
  unfold s in Hne. rewrite detectFieldType_chain by assumption. cbv zeta.
  fold s.
  rewrite isTemporalField_exact, isOrdinalString_exact by assumption.
  rewrite Hs.
  replace (8 * length (strings_of s) <=? 10 * length (date_texts s))
    with false.
  - rewrite andb_false_r.
    apply Nat.leb_le in Hd, Hv. now rewrite Hd, Hv.
  - symmetry. apply Nat.leb_gt.
    assert (length (strings_of s) = length s).
    { apply Nat.eqb_eq. now rewrite strings_of_length_all. }
    lia.
Qed.

Lemma vocabulary_sample_ordinal_witness :
  let values := texts ["Low"; "HIGH"; "n/a"; "medium"]%string in
  detectFieldType values (Some (str "priority_code")) = ordinal.
Proof.
  apply vocabulary_sample_ordinal;
    [reflexivity | vm_compute; lia | vm_compute; lia].
Defined.

(** X4 (detectFieldType, hasIdFieldName): a sample of numbers and numeric
    texts whose field name is accepted by the ID name patterns is
    nominal. *)
Theorem id_like_name_nominal values fieldName :
  forallb numeric (sample_of values) = true ->
  id_like_name fieldName ->
  detectFieldType values (Some fieldName) = nominal.
Proof.
  intros Hnum Hname.
  destruct (sample_of values) as [| v sample] eqn:Es.
  - now apply detectFieldType_empty.
  - apply detectFieldType_numeric_id.
    + rewrite Es. discriminate.
    + now rewrite Es.
    + left. now apply namedLikeId_some, hasIdFieldName_accepts.
Qed.

Lemma id_like_name_nominal_witness :
  let values := [VNum (StringToNumber (str "12.5")); VStr (str "7")] in
  detectFieldType values (Some (str "ZipCode")) = nominal.
Proof.
  apply id_like_name_nominal; [reflexivity |].
  right; right; left. exists (str "Zip"), (str "Code"). split; reflexivity.
Defined.

(** X5 (detectFieldType): the classifier returns quantitative only on a
    sample of numbers and numeric texts that does not look like
    identifiers and whose field name is not accepted by the ID name
    patterns. *)
Theorem quantitative_only_if values fieldName :
  detectFieldType values fieldName = quantitative ->
  sample_of values <> [] /\
  forallb numeric (sample_of values) = true /\
  looksLikeId (sample_of values) = false /\
  namedLikeId fieldName = false /\
  (forall name, fieldName = Some name -> ~ id_like_name name).
Proof.
  intros H.
  destruct (sample_of values) as [| v sample] eqn:Es.
  - rewrite detectFieldType_empty in H by assumption. discriminate H.
  - assert (Hne : sample_of values <> []) by (rewrite Es; discriminate).
    rewrite (detectFieldType_chain values fieldName Hne) in H.
    cbv zeta in H. rewrite Es in H.
    destruct (isTemporalField (v :: sample)); [discriminate H |].
    destruct (isOrdinalString (v :: sample)); [discriminate H |].
    destruct (forallb numeric (v :: sample)); [| discriminate H].
    destruct (namedLikeId fieldName) eqn:En; [discriminate H |].
    destruct (looksLikeId (v :: sample)); [discriminate H |].
    repeat split; try discriminate.
    intros name -> Hid. apply hasIdFieldName_accepts, namedLikeId_some in Hid.
    congruence.
Qed.

Lemma quantitative_only_if_witness :
  let values := numbers [100; 500; 1200; 3400; 8900]%Z in
  detectFieldType values (Some (str "sales")) = quantitative /\
  looksLikeId (sample_of values) = false.
Proof.
  assert (H : detectFieldType (numbers [100; 500; 1200; 3400; 8900]%Z)
                (Some (str "sales")) = quantitative) by reflexivity.
  exact (conj H (proj1 (proj2 (proj2 (quantitative_only_if _ _ H))))).
Defined.

(** X6 (detectFieldType): the classifier returns ordinal only on a sample
    of texts with two or more distinct values, half of them at least in
    the vocabularies, or on a sample of numbers and numeric texts, all
    integers once coerced, with 2 to 20 distinct values and a field name
    that the ID name patterns reject. *)
Theorem ordinal_only_if values fieldName :
  detectFieldType values fieldName = ordinal ->
  let s := sample_of values in
  (forallb is_string s = true /\ 2 <= count_distinct s /\
   length s <= 2 * length (vocabulary_texts s))
  \/
  (forallb numeric s = true /\ has_non_integer s = false /\
   2 <= count_distinct s <= 20 /\ namedLikeId fieldName = false).
Proof.
  intros H. cbv zeta.
  pose proof (sample_of_length values) as Hlen.
  destruct (sample_of values) as [| v sample] eqn:Es.
  - rewrite detectFieldType_empty in H by assumption. discriminate H.
  - assert (Hne : sample_of values <> []) by (rewrite Es; discriminate).
    rewrite (detectFieldType_chain values fieldName Hne) in H.
    cbv zeta in H. rewrite Es in H.
    set (s := v :: sample) in *.
    destruct (isTemporalField s); [discriminate H |].
    destruct (isOrdinalString s) eqn:Eo.
    + left. rewrite isOrdinalString_exact in Eo by assumption.
      apply andb_true_iff in Eo as [Eo H3].
      apply andb_true_iff in Eo as [H1 H2].
      apply Nat.leb_le in H2, H3. auto.
    + right.
      destruct (forallb numeric s); [| discriminate H].
      destruct (namedLikeId fieldName); [discriminate H |].
      destruct (looksLikeId s); [discriminate H |].
      destruct (has_non_integer s); [discriminate H |].
      destruct (gt _ _); [discriminate H |].
      pose proof (Set_size_pos v sample) as Hpos. fold s in Hpos.
      rewrite <- Set_size_count_distinct.
      destruct (Set_size s =? 1) eqn:E1; [discriminate H |].
      apply Nat.eqb_neq in E1.
      destruct (Set_size s <=? CATEGORICAL_THRESHOLD) eqn:E20;
        [| discriminate H].
      apply Nat.leb_le in E20. unfold CATEGORICAL_THRESHOLD in E20.
      repeat split; try reflexivity; lia.
Qed.

Lemma ordinal_only_if_witness :
  let values := numbers [1; 2; 3; 1; 2; 3; 2; 1; 3]%Z in
  detectFieldType values None = ordinal /\
  2 <= count_distinct (sample_of values) <= 20.
Proof.
  assert (H : detectFieldType (numbers [1; 2; 3; 1; 2; 3; 2; 1; 3]%Z) None
              = ordinal) by reflexivity.
  split; [exact H |].
  destruct (ordinal_only_if _ _ H) as [(H1 & _) | (_ & _ & H3 & _)].
  - discriminate H1.
  - exact H3.
Defined.

(** X7 (detectFieldType): a sample of numbers and numeric texts with a
    value that is not an integer once coerced is quantitative, unless the
    field name is accepted by the ID name patterns. *)
Theorem fractional_sample_quantitative values fieldName :
  forallb numeric (sample_of values) = true ->
  has_non_integer (sample_of values) = true ->
  namedLikeId fieldName = false ->
  detectFieldType values fieldName = quantitative.
Proof.
  intros Hnum Hfrac Hname.
  pose proof (sample_of_length values) as Hlen.
  assert (Hne : sample_of values <> [])
    by (intros E; rewrite E in Hfrac; discriminate Hfrac).
  assert (Hid : looksLikeId (sample_of values) = false).
  { destruct (looksLikeId (sample_of values)) eqn:E; [| reflexivity].
    apply looksLikeId_requires in E as (_ & Hint & _); [| assumption].
    unfold has_non_integer in Hfrac.
    apply existsb_exists in Hfrac as (x & Hx & Hnx).
    rewrite forallb_forall in Hint. rewrite (Hint x Hx) in Hnx.
    discriminate Hnx. }
  rewrite detectFieldType_chain by assumption. cbv zeta.
  rewrite isTemporalField_numeric, isOrdinalString_numeric by assumption.
  now rewrite Hnum, Hname, Hid, Hfrac.
Qed.

Lemma fractional_sample_quantitative_witness :
  let values := [VStr (str "1"); VStr (str "2.5"); VNum (of_Z 3)] in
  detectFieldType values None = quantitative.
Proof.
  apply fractional_sample_quantitative; reflexivity.
Defined.

(** X8 (detectFieldType, looksLikeId): a sample of numbers and numeric
    texts that holds at least one text is never nominal by the shape of
    its values: without an ID-like field name it is quantitative or
    ordinal. *)
Theorem numeric_text_never_id_shaped values fieldName :
  forallb numeric (sample_of values) = true ->
  existsb is_string (sample_of values) = true ->
  namedLikeId fieldName = false ->
  detectFieldType values fieldName = quantitative \/
  detectFieldType values fieldName = ordinal.
Proof.
  intros Hnum Htext Hname.
  pose proof (sample_of_length values) as Hlen.
  assert (Hne : sample_of values <> [])
    by (intros E; rewrite E in Htext; discriminate Htext).
  assert (Hid : looksLikeId (sample_of values) = false).
  { apply existsb_exists in Htext as (v & Hv & Hs).
    apply (looksLikeId_not_number _ v Hv).
    now destruct v as [| | b | x | s | []]. }
  rewrite detectFieldType_chain by assumption. cbv zeta.
  rewrite isTemporalField_numeric, isOrdinalString_numeric by assumption.
  rewrite Hnum, Hname, Hid.
  repeat match goal with
         | |- context [if ?c then _ else _] => destruct c
         end; auto.
Qed.

Lemma numeric_text_never_id_shaped_witness :
  let values := VStr (str "1000") :: numbers [1001; 1002; 1003; 1004]%Z in
  detectFieldType values None = quantitative \/
  detectFieldType values None = ordinal.
Proof.
  apply numeric_text_never_id_shaped; reflexivity.
Defined.

(** X9 (looksLikeId): a sample of at most 100 values looks like identifiers
    only if every value is a number, every number is an integer, there are
    at least two values and more than 30% of the adjacent sorted pairs
    differ by exactly one. *)
Theorem looksLikeId_only_if sample :
  length sample <= 100 -> looksLikeId sample = true ->
  forallb is_number sample = true /\
  forallb isInteger (coerced sample) = true /\
  2 <= length sample /\
  sequential_ratio_exceeds 3 10 sample.
Proof.
  intros Hlen H.
  destruct (looksLikeId_requires sample Hlen H) as (H1 & H2 & H3).
  repeat split; try assumption.
  pose proof (count_gaps_bound (sort compare_numbers (coerced sample))) as Hb.
  rewrite sort_length in Hb. unfold coerced in Hb at 2.
  rewrite length_map in Hb. unfold sequential_pairs in H3. lia.
Qed.

Lemma looksLikeId_only_if_witness :
  let sample := numbers [123456789; 123456790; 123456800; 5]%Z in
  looksLikeId sample = true /\ sequential_ratio_exceeds 3 10 sample.
Proof.
  assert (H : looksLikeId (numbers [123456789; 123456790; 123456800; 5]%Z)
              = true) by reflexivity.
  split; [exact H |].
  refine (proj2 (proj2 (proj2 (looksLikeId_only_if _ _ H)))).
  vm_compute. lia.
Defined.


(** ** Reading a row *)

Section RowFacts.

Lemma get_own r name v : own r name = Some v -> get r name = v.
Proof. unfold get. now intros ->. Qed.

(** What a row inherits is an object. *)
Lemma inherited_object name v :
  own Object_prototype name = Some v -> exists o, v = VObject o.
Proof.
  unfold own, Object_prototype. cbn [find fst].
  repeat match goal with
         | |- context [if ?c then _ else _] => destruct c
         end;
    cbn [option_map snd]; intros H; try discriminate H;
    injection H as <-; eauto.
Qed.

(** A row that lacks a key named as a member of [Object.prototype] reads
    that member, which is neither null nor undefined. *)
Lemma get_inherited r name :
  own r name = None -> own Object_prototype name <> None ->
  exists o, get r name = VObject o.
Proof.
  intros Hown Hproto. unfold get. rewrite Hown.
  destruct (own Object_prototype name) as [v |] eqn:E; [| congruence].
  apply (inherited_object name v E).
Qed.

Lemma get_missing r name :
  own r name = None -> own Object_prototype name = None ->
  get r name = VUndefined.
Proof. unfold get. now intros -> ->. Qed.

(** The second row below has no property of its own: in the column
    'constructor' it reads [Object], in the column 'toString' the
    inherited function. *)
Lemma detectAllFields_inherited :
  detectAllFields [[(str "constructor", VNum (of_Z 1));
                    (str "toString", VNull)];
                   []]
  = [mkDetectedField (str "constructor") nominal 2;
     mkDetectedField (str "toString") nominal 1].
Proof. reflexivity. Qed.

End RowFacts.

Section SamplingFacts.

Lemma sample_of_app values more :
  100 <= length (filter present values) ->
  sample_of (values ++ more) = sample_of values.
Proof.
  intros H. unfold sample_of. rewrite filter_app.
  rewrite firstn_app.
  replace (100 - length (filter present values)) with 0 by lia.
  simpl. apply app_nil_r.
Qed.

Lemma sample_of_present values :
  sample_of (filter present values) = sample_of values.
Proof.
  unfold sample_of. f_equal.
  induction values as [| v values IH]; simpl; [reflexivity |].
  destruct (present v) eqn:E; simpl; [rewrite E |]; now rewrite ?IH.
Qed.

End SamplingFacts.

(** X10 (detectFieldType): only the first 100 present values decide the
    type: values that follow them, and null, undefined or empty-text
    values anywhere, change nothing. *)
Theorem only_first_hundred_present_decide values more fieldName :
  100 <= length (filter present values) ->
  detectFieldType (values ++ more) fieldName = detectFieldType values fieldName
  /\ detectFieldType (filter present values) fieldName
     = detectFieldType values fieldName.
Proof.
  intros H. split; apply detectFieldType_same_sample.
  - now apply sample_of_app.
  - apply sample_of_present.
Qed.

Lemma only_first_hundred_present_decide_witness :
  let values := VNull :: repeat (VNum (of_Z 7)) 100 in
  let more := texts ["2023-01-15"; "x"]%string in
  detectFieldType (values ++ more) None = detectFieldType values None.
Proof.
  refine (proj1 (only_first_hundred_present_decide
                   (VNull :: repeat (VNum (of_Z 7)) 100)
                   (texts ["2023-01-15"; "x"]%string) None _)).
  vm_compute. repeat constructor.
Defined.

Section UniqueCountFacts.

Lemma count_distinct_le l : count_distinct l <= length l.
Proof.
  induction l as [| v l IH]; simpl; [lia |].
  destruct (existsb (same_value_zero v) l); lia.
Qed.

Lemma count_distinct_zero l : count_distinct l = 0 <-> l = [].
Proof.
  split; [| now intros ->].
  destruct l as [| v l]; [reflexivity |].
  rewrite <- Set_size_count_distinct. pose proof (Set_size_pos v l). lia.
Qed.

Lemma count_distinct_perm l l' :
  Permutation.Permutation l l' -> count_distinct l = count_distinct l'.
Proof.
  intros Hp.
  destruct (new_Set_spec l) as [Hnd Hin].
  rewrite <- (Set_size_count_distinct l). unfold Set_size.
  rewrite <- (length_map svz_key).
  apply count_distinct_keys; [assumption |].
  intros k. rewrite Hin. split; intros Hk.
  - eapply Permutation.Permutation_in; [| exact Hk].
    now apply Permutation.Permutation_map.
  - eapply Permutation.Permutation_in; [| exact Hk].
    now apply Permutation.Permutation_map, Permutation.Permutation_sym.
Qed.

Lemma filter_nullish_present l :
  filter (fun v => negb (nullish v)) l = [] -> filter present l = [].
Proof.
  induction l as [| v l IH]; simpl; [reflexivity |].
  destruct v as [| | b | x | s | o]; simpl; try discriminate; exact IH.
Qed.

End UniqueCountFacts.

(** X11 (detectAllFields): the uniqueCount of a descriptor is at most the
    number of rows; it is zero exactly when every row reads null or
    undefined in that column, a row without the key reading what it
    inherits, and then the type of the column is nominal. *)
Theorem uniqueCount_bounds data d :
  In d (detectAllFields data) ->
  uniqueCount d <= length data /\
  (uniqueCount d = 0 <->
   forallb nullish (column data (name d)) = true) /\
  (uniqueCount d = 0 -> type d = nominal).
Proof.
  destruct data as [| first rest]; [intros [] |].
  unfold detectAllFields. rewrite in_map_iff.
  intros (nm & <- & _). cbn [name type uniqueCount].
  set (data := first :: rest).
  change (fun v => negb (loose_eq_null v)) with (fun v => negb (nullish v)).
  rewrite Set_size_count_distinct.
  assert (Hz : count_distinct
                 (filter (fun v => negb (nullish v)) (column data nm)) = 0
               <-> forallb nullish (column data nm) = true).
  { rewrite count_distinct_zero. split.
    - intros Hf. apply forallb_forall. intros v Hv.
      destruct (nullish v) eqn:E; [reflexivity |].
      assert (Hin : In v (filter (fun v => negb (nullish v))
                                 (column data nm)))
        by (apply filter_In; now rewrite E).
      rewrite Hf in Hin. destruct Hin.
    - intros Hall. apply filter_none. intros v Hv.
      rewrite forallb_forall in Hall. now rewrite (Hall v Hv). }
  split; [| split; [exact Hz |]].
  - pose proof (count_distinct_le
                  (filter (fun v => negb (nullish v)) (column data nm))).
    pose proof (filter_length_le (fun v => negb (nullish v))
                                 (column data nm)).
    unfold column in *. rewrite length_map in *. lia.
  - intros H0. apply count_distinct_zero in H0.
    apply detectFieldType_empty. unfold sample_of.
    now rewrite (filter_nullish_present _ H0).
Qed.

Lemma uniqueCount_bounds_witness :
  let data := [[(str "a", VNull); (str "b", VNum (of_Z 1))];
               [(str "b", VNum (of_Z 1))]] in
  map uniqueCount (detectAllFields data) = [0; 1] /\
  Forall (fun d => uniqueCount d <= length data) (detectAllFields data).
Proof.
  split; [reflexivity |].
  apply Forall_forall. intros d Hd.
  exact (proj1 (uniqueCount_bounds _ d Hd)).
Defined.

(** X12 (detectAllFields): uniqueCount does not depend on the order of the
    rows: two datasets with the same rows in any order, whose first rows
    have the same keys, get the same counts. *)
Theorem uniqueCount_row_order first rest first' rest' :
  Permutation.Permutation (first :: rest) (first' :: rest') ->
  Object_keys first = Object_keys first' ->
  map uniqueCount (detectAllFields (first :: rest))
  = map uniqueCount (detectAllFields (first' :: rest')).
Proof.
  intros Hp Hk. unfold detectAllFields. rewrite <- Hk, !map_map.
  apply map_ext. intros nm. cbn [uniqueCount].
  rewrite !Set_size_count_distinct. apply count_distinct_perm.
  (* filtering and reading a column commute with reordering the rows *)
  assert (Hc : Permutation.Permutation (column (first :: rest) nm)
                                       (column (first' :: rest') nm))
    by (now apply Permutation.Permutation_map).
  clear - Hc. induction Hc; simpl.
  - constructor.
  - destruct (negb (loose_eq_null x)); [now constructor | assumption].
  - destruct (negb (loose_eq_null x)), (negb (loose_eq_null y));
      try reflexivity. apply Permutation.perm_swap.
  - eapply Permutation.Permutation_trans; eassumption.
Qed.

Lemma uniqueCount_row_order_witness :
  let r1 := [(str "a", VNum (of_Z 1)); (str "b", VStr (str "x"))] in
  let r2 := [(str "a", VNum (of_Z 2)); (str "b", VStr (str "x"))] in
  map uniqueCount (detectAllFields [r1; r2])
  = map uniqueCount (detectAllFields [r2; r1]).
Proof.
  apply uniqueCount_row_order; [apply Permutation.perm_swap | reflexivity].
Defined.


(* ================================================================== *)
(** * Properties of the file parser *)

Section FileParserFacts.
Import FileParser.

Lemma split_nonempty sep s : split sep s <> [].
Proof.
  destruct s as [| c s]; simpl; [discriminate |].
  destruct (c =? sep)%N; [discriminate |].
  destruct (split sep s); discriminate.
Qed.

Lemma split_no_sep sep s : ~ In sep s -> split sep s = [s].
Proof.
  induction s as [| c s IH]; intros H; simpl; [reflexivity |].
  destruct (N.eqb_spec c sep) as [-> | Hc].
  - exfalso. apply H. now left.
  - rewrite IH; [reflexivity |]. intros Hin. apply H. now right.
Qed.

Lemma pop_cons {A} (x : A) xs : xs <> [] -> pop (x :: xs) = pop xs.
Proof. destruct xs; [congruence | reflexivity]. Qed.

Lemma split_length_sep sep base ext :
  2 <= length (split sep (base ++ sep :: ext)).
Proof.
  induction base as [| b base IH]; simpl.
  - rewrite N.eqb_refl. simpl.
    pose proof (split_nonempty sep ext).
    destruct (split sep ext); [congruence | simpl; lia].
  - destruct (b =? sep)%N; simpl; [lia |].
    destruct (split sep (base ++ sep :: ext)); simpl in *; lia.
Qed.

Lemma pop_split_app sep base ext :
  ~ In sep ext -> pop (split sep (base ++ sep :: ext)) = Some ext.
Proof.
  intros H. induction base as [| c base IH]; simpl.
  - rewrite N.eqb_refl, pop_cons by apply split_nonempty.
    now rewrite split_no_sep.
  - destruct (c =? sep)%N.
    + rewrite pop_cons by apply split_nonempty. exact IH.
    + pose proof (split_length_sep sep base ext) as Hl.
      destruct (split sep (base ++ sep :: ext)) as [| seg [| seg' segs]];
        simpl in Hl; try lia.
      exact IH.
Qed.

(** Every name has an extension: its last segment. *)
Lemma pop_split_extension sep s :
  exists ext, pop (split sep s) = Some ext /\ ~ In sep ext /\
              (s = ext \/ exists base, s = base ++ sep :: ext).
Proof.
  induction s as [| c s (ext & Hp & Hn & Hs)]; simpl.
  - exists []. repeat split; auto.
  - destruct (N.eqb_spec c sep) as [-> | Hc].
    + exists ext. rewrite pop_cons by apply split_nonempty.
      repeat split; try assumption. right.
      destruct Hs as [-> | (base & ->)].
      * now exists [].
      * now exists (sep :: base).
    + destruct Hs as [-> | (base & ->)].
      * rewrite split_no_sep in * by assumption.
        exists (c :: ext). repeat split; auto.
        intros [H | H]; [congruence | contradiction].
      * pose proof (split_length_sep sep base ext) as Hl.
        destruct (split sep (base ++ sep :: ext)) as [| seg [| seg' segs]];
          simpl in Hl; try lia.
        exists ext. repeat split; try assumption.
        right. now exists (c :: base).
Qed.

Lemma pop_split_of_extension s ext :
  extension_of s ext -> pop (split (chr ".") s) = Some ext.
Proof.
  intros [Hn [-> | (base & ->)]].
  - now rewrite split_no_sep.
  - now apply pop_split_app.
Qed.

End FileParserFacts.


Section GetFileTypeFacts.
Import FileParser.

Lemma toLowerCase_unit_plain t c rest w :
  plain_letter t ->
  toLowerCase_unit c ++ rest = t :: w <->
  char_eq true t c = true /\ rest = w.
Proof.
  intros (Ht & Hi & Hk).
  unfold toLowerCase_unit, char_eq, canonicalize.
  replace ((97 <=? t) && (t <=? 122))%N with true
    by (symmetry; apply andb_true_iff; split; apply N.leb_le; lia).
  rewrite N.eqb_eq.
  destruct (N.leb_spec 65 c), (N.leb_spec c 90); simpl;
    try destruct (N.eqb_spec c 8490); simpl;
    try destruct (N.eqb_spec c 304); simpl;
    destruct (N.leb_spec 97 c), (N.leb_spec c 122); simpl;
    (split;
     [ intros E; injection E; intros; first [exfalso; lia | split; [lia | congruence]]
     | intros [E1 E2]; first [exfalso; lia | f_equal; [lia | assumption]] ]).
Qed.

Lemma toLowerCase_word w :
  Forall plain_letter w ->
  forall s, toLowerCase s = w <-> jstring_eqb_ci w s = true.
Proof.
  induction 1 as [| t w Ht Hw IH]; intros s.
  - destruct s as [| c s]; simpl; [tauto |].
    split; [| discriminate].
    unfold toLowerCase_unit.
    repeat match goal with
           | |- context [if ?b then _ else _] => destruct b
           end; discriminate.
  - destruct s as [| c s]; simpl; [split; discriminate |].
    rewrite toLowerCase_unit_plain by assumption.
    rewrite andb_true_iff, IH. tauto.
Qed.

Lemma type_literal_plain t : Forall plain_letter (str (type_literal t)).
Proof.
  destruct t; repeat constructor; unfold chr; simpl; lia.
Qed.

Lemma getFileType_of_extension file ext t :
  pop (split (chr ".") (name file)) = Some ext ->
  getFileType file = Some t <-> toLowerCase ext = str (type_literal t).
Proof.
  intros Hp. unfold getFileType. rewrite Hp. cbn [option_map extension_is].
  destruct (jstring_eqb (toLowerCase ext) (str "csv")) eqn:E1.
  { apply jstring_eqb_eq in E1. rewrite E1.
    destruct t; split; intros H; try reflexivity; discriminate H. }
  destruct (jstring_eqb (toLowerCase ext) (str "json")) eqn:E2.
  { apply jstring_eqb_eq in E2. rewrite E2.
    destruct t; split; intros H; try reflexivity; discriminate H. }
  destruct (jstring_eqb (toLowerCase ext) (str "xlsx")) eqn:E3.
  { apply jstring_eqb_eq in E3. rewrite E3.
    destruct t; split; intros H; try reflexivity; discriminate H. }
  destruct (jstring_eqb (toLowerCase ext) (str "xls")) eqn:E4.
  { apply jstring_eqb_eq in E4. rewrite E4.
    destruct t; split; intros H; try reflexivity; discriminate H. }
  split; [discriminate |]. intros H.
  destruct t; simpl in H; rewrite H in *; discriminate.
Qed.

End GetFileTypeFacts.

(** X13 (getFileType): only what follows the last dot of the name decides
    the file type, and a name without a dot is taken whole as its own
    extension; the size plays no part. *)
Theorem getFileType_last_segment base ext size size' :
  ~ In (chr ".") ext ->
  FileParser.getFileType (FileParser.mkFile (base ++ chr "." :: ext) size)
  = FileParser.getFileType (FileParser.mkFile ext size').
Proof.
  intros H. unfold FileParser.getFileType. cbn [FileParser.name].
  now rewrite pop_split_app, (split_no_sep _ _ H).
Qed.


Lemma getFileType_last_segment_witness :
  FileParser.getFileType (FileParser.mkFile (str "report.v2.CSV") 10)
  = FileParser.getFileType (FileParser.mkFile (str "CSV") 0).
Proof.
  apply (getFileType_last_segment (str "report.v2") (str "CSV") 10 0).
  vm_compute. intuition discriminate.
Defined.

(** X14 (getFileType): a file has type csv, json, xlsx or xls exactly when
    what follows the last dot of its name, or the whole name when it has no
    dot, is that word whatever the case of its letters; any other name has
    no type. *)
Theorem getFileType_iff file t :
  FileParser.getFileType file = Some t <->
  exists ext,
    FileParser.extension_of (FileParser.name file) ext /\
    equals_ci (FileParser.type_literal t) ext.
Proof.
  destruct (pop_split_extension (chr ".") (FileParser.name file))
    as (ext & Hp & Hn & Hs).
  rewrite (getFileType_of_extension file ext t Hp).
  rewrite (toLowerCase_word _ (type_literal_plain t)).
  split.
  - intros H. exists ext. split; [split; assumption | exact H].
  - intros (ext' & Hext & H).
    apply pop_split_of_extension in Hext. congruence.
Qed.

Lemma getFileType_iff_witness :
  FileParser.getFileType (FileParser.mkFile (str "sales.2024.XlSx") 1)
  = Some FileParser.xlsx.
Proof.
  apply (proj2 (getFileType_iff _ _)).
  exists (str "XlSx"). split; [split |].
  - vm_compute. intuition discriminate.
  - right. now exists (str "sales.2024").
  - reflexivity.
Defined.

Section ParseJSONFacts.
Import FileParser.

Lemma MAX_ROWS_pos : 1 <= MAX_ROWS.
Proof. unfold MAX_ROWS. lia. Qed.

Lemma firstn_MAX_ROWS_cons (first : json_value) rest :
  firstn MAX_ROWS (first :: rest) = first :: firstn (MAX_ROWS - 1) rest.
Proof.
  pose proof MAX_ROWS_pos as H.
  destruct MAX_ROWS as [| n]; [lia |].
  simpl. now rewrite Nat.sub_0_r.
Qed.

Lemma not_an_object_false v : not_an_object v = false <-> is_object v.
Proof. destruct v; simpl; intuition discriminate. Qed.

End ParseJSONFacts.

(** X15 (parseJSON): parsing succeeds exactly when the JSON text is an
    array that is not empty and whose first element is an object or an
    array; no element after the first is looked at. *)
Theorem parseJSON_ok_iff file parsed :
  (exists r, FileParser.parseJSON file parsed = FileParser.Ok r) <->
  exists first rest,
    parsed = Some (FileParser.JArr (first :: rest)) /\
    FileParser.is_object first.
Proof.
  unfold FileParser.parseJSON. split.
  - intros (r & H).
    destruct parsed as [[| b | x | s | [| first rest] | props] |];
      try discriminate H.
    exists first, rest. split; [reflexivity |].
    apply not_an_object_false.
    now destruct (FileParser.not_an_object first).
  - intros (first & rest & -> & Hobj).
    apply not_an_object_false in Hobj. rewrite Hobj. eauto.
Qed.

Lemma parseJSON_ok_iff_witness :
  exists r,
    FileParser.parseJSON (FileParser.mkFile (str "rows.json") 20)
      (Some (FileParser.JArr
               [FileParser.JObj [(str "a", FileParser.JNum (of_Z 1))];
                FileParser.JStr (str "not a row")]))
    = FileParser.Ok r.
Proof.
  apply (proj2 (parseJSON_ok_iff _ _)).
  eexists _, _. split; [reflexivity | exact I].
Defined.

(** X16 (parseJSON): a successful result keeps the first 100000 elements
    of the array, in order; its rowCount is their number, between 1 and
    100000, its fieldCount the number of keys of the first element and its
    fileName the name of the file. *)
Theorem parseJSON_result file items r :
  FileParser.parseJSON file (Some (FileParser.JArr items)) = FileParser.Ok r ->
  FileParser.data r = firstn FileParser.MAX_ROWS items /\
  FileParser.rowCount r = Nat.min (length items) FileParser.MAX_ROWS /\
  FileParser.rowCount r = length (FileParser.data r) /\
  1 <= FileParser.rowCount r <= FileParser.MAX_ROWS /\
  FileParser.fieldCount r = FileParser.keys_length (hd FileParser.JNull items)
  /\ FileParser.fileName r = FileParser.name file.
Proof.
  unfold FileParser.parseJSON.
  destruct items as [| first rest]; [discriminate |].
  destruct (FileParser.not_an_object first); [discriminate |].
  cbv zeta. rewrite firstn_MAX_ROWS_cons.
  set (kept := firstn (FileParser.MAX_ROWS - 1) rest).
  assert (Hk : length kept = Nat.min (length rest) (FileParser.MAX_ROWS - 1))
    by (unfold kept; rewrite length_firstn; apply Nat.min_comm).
  clearbody kept.
  intros H. injection H as <-.
  cbn [FileParser.data FileParser.rowCount FileParser.fieldCount
       FileParser.fileName hd length].
  pose proof MAX_ROWS_pos as Hpos.
  repeat split; lia.
Qed.

Lemma parseJSON_result_witness :
  let file := FileParser.mkFile (str "rows.json") 20 in
  let items := [FileParser.JObj [(str "a", FileParser.JNum (of_Z 1));
                                 (str "b", FileParser.JNull)];
                FileParser.JObj []] in
  exists r,
    FileParser.parseJSON file (Some (FileParser.JArr items)) = FileParser.Ok r
    /\ FileParser.rowCount r = 2 /\ FileParser.fieldCount r = 2.
Proof.
  eexists. split; [reflexivity |].
  pose proof (parseJSON_result
                (FileParser.mkFile (str "rows.json") 20)
                [FileParser.JObj [(str "a", FileParser.JNum (of_Z 1));
                                  (str "b", FileParser.JNull)];
                 FileParser.JObj []] _ eq_refl)
    as (_ & H2 & _ & _ & H5 & _).
  split; [exact H2 | exact H5].
Defined.

(** X17 (isParseError, parseJSON, parseFile): isParseError tells an error
    from a success on every result of parseJSON, and on every result of
    parseFile as soon as it does so on what the three parsers return. *)
Theorem isParseError_recognises parseCSV parseJSON parseExcel file parsed :
  (forall f r, parseCSV f = FileParser.Returned r \/
               parseJSON f = FileParser.Returned r \/
               parseExcel f = FileParser.Returned r ->
               FileParser.recognised r) ->
  FileParser.recognised (FileParser.parseJSON file parsed) /\
  FileParser.recognised
    (FileParser.parseFile parseCSV parseJSON parseExcel file).
Proof.
  intros Hparsers. split.
  - unfold FileParser.parseJSON.
    destruct parsed as [[| b | x | s | [| first rest] | props] |];
      try reflexivity.
    now destruct (FileParser.not_an_object first).
  - unfold FileParser.parseFile.
    destruct (FileParser.MAX_FILE_SIZE <? FileParser.size file)%N;
      [reflexivity |].
    destruct (FileParser.getFileType file) as [[| | |] |];
      try reflexivity;
      match goal with
      | |- context [match ?p file with _ => _ end] =>
          destruct (p file) as [r | m] eqn:E;
          [apply (Hparsers file r); auto | reflexivity]
      end.
Qed.

Lemma isParseError_recognises_witness :
  let file := FileParser.mkFile (str "rows.json") 20 in
  let parse := fun f : FileParser.File =>
                 FileParser.Returned (FileParser.parseJSON f None) in
  FileParser.isParseError (FileParser.parseFile parse parse parse file)
  = true.
Proof.
  refine (proj2 (isParseError_recognises
                   (fun f => FileParser.Returned (FileParser.parseJSON f None))
                   (fun f => FileParser.Returned (FileParser.parseJSON f None))
                   (fun f => FileParser.Returned (FileParser.parseJSON f None))
                   (FileParser.mkFile (str "rows.json") 20) None _)).
  intros f r [H | [H | H]]; injection H as <-; reflexivity.
Defined.

(** X18 (parseFile): a file of more than 10 MB is refused as TOO_LARGE
    whatever its name, and a file of at most 10 MB whose name has no
    supported extension as INVALID_FORMAT; in both cases no parser is
    consulted. *)
Theorem parseFile_refuses parseCSV parseJSON parseExcel file :
  (FileParser.MAX_FILE_SIZE < FileParser.size file)%N \/
  FileParser.getFileType file = None ->
  exists e,
    (forall p1 p2 p3, FileParser.parseFile p1 p2 p3 file = FileParser.Err e)
    /\ FileParser.parseFile parseCSV parseJSON parseExcel file
       = FileParser.Err e
    /\ FileParser.type e
       = (if (FileParser.MAX_FILE_SIZE <? FileParser.size file)%N
          then str "TOO_LARGE" else str "INVALID_FORMAT").
Proof.
  intros H. unfold FileParser.parseFile.
  destruct (N.ltb_spec FileParser.MAX_FILE_SIZE (FileParser.size file))
    as [Hbig | Hsmall].
  - eexists. repeat split.
  - destruct H as [H | H]; [lia |]. rewrite H.
    eexists. repeat split.
Qed.

Lemma parseFile_refuses_witness :
  let file := FileParser.mkFile (str "big.csv") (11 * 1024 * 1024) in
  let parse := fun _ : FileParser.File => FileParser.Threw None in
  exists e, FileParser.parseFile parse parse parse file = FileParser.Err e
            /\ FileParser.type e = str "TOO_LARGE".
Proof.
  destruct (parseFile_refuses
              (fun _ => FileParser.Threw None) (fun _ => FileParser.Threw None)
              (fun _ => FileParser.Threw None)
              (FileParser.mkFile (str "big.csv") (11 * 1024 * 1024)))
    as (e & _ & H2 & H3).
  - left. vm_compute. reflexivity.
  - exists e. split; [exact H2 | exact H3].
Defined.


(* ================================================================== *)
(** * Properties of the application state *)

Section ReducerFacts.
Import AppContext.

Lemma jstring_eqb_refl s : jstring_eqb s s = true.
Proof. now apply jstring_eqb_eq. Qed.

Lemma jstring_eqb_neq s t : s <> t -> jstring_eqb s t = false.
Proof.
  intros H. destruct (jstring_eqb s t) eqn:E; [| reflexivity].
  now apply jstring_eqb_eq in E.
Qed.

Lemma with_encodings_same s : with_encodings s (encodings s) = s.
Proof. now destruct s. Qed.

Lemma with_filters_same s : with_filters s (filters s) = s.
Proof. now destruct s. Qed.

Lemma lookup_assign_same channel config e :
  lookup channel (assign channel config e) = Some config.
Proof.
  induction e as [| [k c] e IH]; simpl.
  - now rewrite jstring_eqb_refl.
  - destruct (jstring_eqb k channel) eqn:E; simpl; now rewrite E.
Qed.

Lemma lookup_assign_other channel channel' config e :
  channel' <> channel ->
  lookup channel' (assign channel config e) = lookup channel' e.
Proof.
  intros H. induction e as [| [k c] e IH]; simpl.
  - rewrite jstring_eqb_neq; [reflexivity | congruence].
  - destruct (jstring_eqb k channel) eqn:E; simpl.
    + apply jstring_eqb_eq in E. subst k.
      rewrite jstring_eqb_neq; [reflexivity | congruence].
    + now rewrite IH.
Qed.

Lemma lookup_remove_same channel e : lookup channel (remove channel e) = None.
Proof.
  induction e as [| [k c] e IH]; simpl; [reflexivity |].
  destruct (jstring_eqb k channel) eqn:E; simpl; [exact IH |].
  now rewrite E.
Qed.

Lemma lookup_remove_other channel channel' e :
  channel' <> channel ->
  lookup channel' (remove channel e) = lookup channel' e.
Proof.
  intros H. induction e as [| [k c] e IH]; simpl; [reflexivity |].
  destruct (jstring_eqb k channel) eqn:E; simpl.
  - apply jstring_eqb_eq in E. subst k.
    rewrite jstring_eqb_neq; [exact IH | congruence].
  - now rewrite IH.
Qed.

Lemma remove_assign_fresh channel config e :
  lookup channel e = None -> remove channel (assign channel config e) = e.
Proof.
  induction e as [| [k c] e IH]; simpl.
  - now rewrite jstring_eqb_refl.
  - destruct (jstring_eqb k channel) eqn:E; [discriminate |].
    intros H. unfold remove in *. simpl. rewrite E. simpl.
    now rewrite IH.
Qed.

Lemma NoDup_map_filter {A B} (f : A -> B) (p : A -> bool) l :
  NoDup (map f l) -> NoDup (map f (filter p l)).
Proof.
  induction l as [| a l IH]; simpl; [auto |].
  intros H. inversion H as [| ? ? Hn Hl]; subst.
  destruct (p a); simpl; auto.
  constructor; auto.
  rewrite in_map_iff in *. intros (x & Hx & Hin).
  apply Hn. exists x. split; [assumption |].
  now apply filter_In in Hin.
Qed.

End ReducerFacts.

(** X19 (appReducer): when no two filters bear on the same field, no
    action other than loading a project makes two filters bear on the same
    field. *)
Theorem filters_stay_unique state action :
  (forall project, action <> AppContext.LOAD_PROJECT project) ->
  NoDup (map AppContext.fieldName (AppContext.filters state)) ->
  NoDup (map AppContext.fieldName
             (AppContext.filters (AppContext.appReducer state action))).
Proof.
  intros Hload H.
  destruct action; simpl; try assumption; try constructor;
    try (destruct (AppContext.lookup _ _); simpl; assumption).
  - (* ADD_FILTER *)
    destruct (existsb _ _) eqn:E; [assumption |]. simpl.
    rewrite map_app. simpl. apply NoDup_app; [assumption | |].
    + constructor; [easy | constructor].
    + intros n Hn [<- | []].
      apply in_map_iff in Hn as (g & Hg & Hin).
      assert (Ht : existsb
                     (fun g => jstring_eqb (AppContext.fieldName g)
                                           (AppContext.fieldName filter))
                     (AppContext.filters state) = true).
      { apply existsb_exists. exists g. split; [assumption |].
        apply jstring_eqb_eq. congruence. }
      congruence.
  - (* UPDATE_FILTER *)
    rewrite map_map.
    erewrite map_ext; [exact H |].
    intros f. simpl. now destruct (jstring_eqb _ _).
  - (* REMOVE_FILTER *)
    now apply NoDup_map_filter.
  - (* LOAD_PROJECT *)
    now elim (Hload project).
Qed.


Lemma filters_stay_unique_witness :
  let f := AppContext.mkFilterConfig (str "region") nominal (str "selection")
             (AppContext.SelectionFilterValue [] []) in
  let state := AppContext.appReducer AppContext.initialState
                 (AppContext.ADD_FILTER f) in
  map AppContext.fieldName
      (AppContext.filters
         (AppContext.appReducer state (AppContext.ADD_FILTER f)))
  = [str "region"]
  /\ NoDup (map AppContext.fieldName
              (AppContext.filters
                 (AppContext.appReducer state (AppContext.ADD_FILTER f)))).
Proof.
  split; [reflexivity |].
  apply filters_stay_unique; [discriminate |].
  repeat constructor. intros [].
Defined.

(** X20 (appReducer): adding a filter on a field that already has one
    changes nothing; adding a filter on a field that has none and then
    removing the filters of that field gives the state back; after
    REMOVE_FILTER no filter bears on the field. *)
Theorem add_remove_filter state f :
  let has_filter :=
    existsb (fun g => jstring_eqb (AppContext.fieldName g)
                                  (AppContext.fieldName f))
            (AppContext.filters state) in
  (has_filter = true ->
   AppContext.appReducer state (AppContext.ADD_FILTER f) = state) /\
  (has_filter = false ->
   AppContext.appReducer
     (AppContext.appReducer state (AppContext.ADD_FILTER f))
     (AppContext.REMOVE_FILTER (AppContext.fieldName f)) = state) /\
  ~ In (AppContext.fieldName f)
       (map AppContext.fieldName
            (AppContext.filters
               (AppContext.appReducer state
                  (AppContext.REMOVE_FILTER (AppContext.fieldName f))))).
Proof.
  cbv zeta. split; [| split].
  - intros H. simpl. now rewrite H.
  - intros H. simpl. rewrite H. simpl.
    unfold AppContext.with_filters. simpl.
    rewrite filter_app. simpl. rewrite jstring_eqb_refl. simpl.
    rewrite app_nil_r.
    replace (filter _ (AppContext.filters state))
      with (AppContext.filters state); [now destruct state |].
    symmetry. apply filter_all. apply forallb_forall. intros g Hg.
    apply negb_true_iff.
    destruct (jstring_eqb (AppContext.fieldName g) (AppContext.fieldName f))
      eqn:E; [| reflexivity].
    assert (Ht : existsb
                   (fun g => jstring_eqb (AppContext.fieldName g)
                                         (AppContext.fieldName f))
                   (AppContext.filters state) = true)
      by (apply existsb_exists; eauto).
    congruence.
  - simpl. rewrite in_map_iff. intros (g & Hn & Hg).
    apply filter_In in Hg as [_ Hg].
    rewrite Hn, jstring_eqb_refl in Hg. discriminate Hg.
Qed.

Lemma add_remove_filter_witness :
  let f := AppContext.mkFilterConfig (str "region") nominal (str "selection")
             (AppContext.SelectionFilterValue [] []) in
  AppContext.appReducer
    (AppContext.appReducer AppContext.initialState (AppContext.ADD_FILTER f))
    (AppContext.REMOVE_FILTER (str "region"))
  = AppContext.initialState.
Proof.
  exact (proj1 (proj2 (add_remove_filter AppContext.initialState
                         (AppContext.mkFilterConfig (str "region") nominal
                            (str "selection")
                            (AppContext.SelectionFilterValue [] []))))
               eq_refl).
Defined.

Section ToggleFacts.
Import AppContext.

Lemma toggled_twice t : t = ordinal \/ t = nominal -> toggled (toggled t) = t.
Proof. now intros [-> | ->]. Qed.

Lemma toggled_categorical t : toggled t = ordinal \/ toggled t = nominal.
Proof. destruct t; simpl; auto. Qed.

Lemma with_type_same f : with_type f (type f) = f.
Proof. now destruct f. Qed.

Lemma with_type_toggled f :
  with_type f (toggled (type f))
  = mkDetectedField (name f)
      (match type f with ordinal => nominal | _ => ordinal end)
      (uniqueCount f).
Proof. unfold with_type, toggled. now destruct (type f). Qed.

(** [TOGGLE_FIELD_TYPE] moves no entry of the encodings: a channel reads
    the toggled form of what it read before. *)
Lemma lookup_toggled state fieldName channel :
  lookup channel
    (encodings (appReducer state (TOGGLE_FIELD_TYPE fieldName)))
  = option_map
      (fun config =>
         if jstring_eqb (name (field config)) fieldName
         then mkEncodingConfig
                (with_type (field config) (toggled (type (field config))))
                (aggregate config) (timeUnit config) (sort config)
         else config)
      (lookup channel (encodings state)).
Proof.
  simpl. induction (encodings state) as [| [k config] e IH];
    [reflexivity |].
  simpl. destruct (jstring_eqb (name (field config)) fieldName) eqn:E;
    simpl; destruct (jstring_eqb k channel); simpl; auto;
    now rewrite E.
Qed.

End ToggleFacts.

(** X21 (appReducer): TOGGLE_FIELD_TYPE turns every field of that name,
    at its place in the field list and in the encoding of every channel
    that holds one, into the same field with type nominal if it was
    ordinal and ordinal otherwise, so a quantitative or temporal field
    becomes ordinal; fields of other names, the aggregate, time unit and
    sort of every encoding and the rest of the state are kept.  After it
    every field of that name is ordinal or nominal, and toggling twice
    gives the state back when the fields of that name, in the field list
    and in the encodings, were ordinal or nominal. *)
Theorem toggle_field_type state fieldName :
  let state' := AppContext.appReducer state
                  (AppContext.TOGGLE_FIELD_TYPE fieldName) in
  let flipped f :=
    mkDetectedField (name f)
      (match type f with ordinal => nominal | _ => ordinal end)
      (uniqueCount f) in
  (forall i f, nth_error (AppContext.fields state) i = Some f ->
     (name f = fieldName ->
      nth_error (AppContext.fields state') i = Some (flipped f)) /\
     (name f <> fieldName ->
      nth_error (AppContext.fields state') i = Some f)) /\
  length (AppContext.fields state') = length (AppContext.fields state) /\
  (forall channel,
     match AppContext.lookup channel (AppContext.encodings state) with
     | None =>
         AppContext.lookup channel (AppContext.encodings state') = None
     | Some config =>
         (name (AppContext.field config) = fieldName ->
          AppContext.lookup channel (AppContext.encodings state')
          = Some (AppContext.mkEncodingConfig
                    (flipped (AppContext.field config))
                    (AppContext.aggregate config)
                    (AppContext.timeUnit config)
                    (AppContext.sort config))) /\
         (name (AppContext.field config) <> fieldName ->
          AppContext.lookup channel (AppContext.encodings state')
          = Some config)
     end) /\
  map fst (AppContext.encodings state')
  = map fst (AppContext.encodings state) /\
  (AppContext.data state' = AppContext.data state /\
   AppContext.filters state' = AppContext.filters state /\
   AppContext.markType state' = AppContext.markType state /\
   AppContext.chartTitle state' = AppContext.chartTitle state /\
   AppContext.isLoading state' = AppContext.isLoading state /\
   AppContext.error state' = AppContext.error state /\
   AppContext.projects state' = AppContext.projects state /\
   AppContext.currentProjectId state' = AppContext.currentProjectId state /\
   AppContext.viewMode state' = AppContext.viewMode state) /\
  (forall f, In f (AppContext.fields state') -> name f = fieldName ->
             type f = ordinal \/ type f = nominal) /\
  (forall channel config,
      In (channel, config) (AppContext.encodings state') ->
      name (AppContext.field config) = fieldName ->
      type (AppContext.field config) = ordinal \/
      type (AppContext.field config) = nominal) /\
  ((forall f, In f (AppContext.fields state) -> name f = fieldName ->
              type f = ordinal \/ type f = nominal) ->
   (forall channel config,
       In (channel, config) (AppContext.encodings state) ->
       name (AppContext.field config) = fieldName ->
       type (AppContext.field config) = ordinal \/
       type (AppContext.field config) = nominal) ->
   AppContext.appReducer state' (AppContext.TOGGLE_FIELD_TYPE fieldName)
   = state).
Proof.
  cbv zeta.
  split; [| split; [| split; [| split; [| split; [| split; [| split]]]]]].
  - intros i f Hi. simpl. rewrite nth_error_map, Hi. simpl. split.
    + intros Hn. apply jstring_eqb_eq in Hn. rewrite Hn.
      now rewrite with_type_toggled.
    + intros Hn. now rewrite (jstring_eqb_neq _ _ Hn).
  - simpl. apply length_map.
  - intros channel. rewrite lookup_toggled.
    destruct (AppContext.lookup channel (AppContext.encodings state))
      as [config |]; [| reflexivity].
    simpl. split.
    + intros Hn. apply jstring_eqb_eq in Hn. rewrite Hn.
      now rewrite with_type_toggled.
    + intros Hn. now rewrite (jstring_eqb_neq _ _ Hn).
  - simpl. rewrite map_map. apply map_ext. intros [channel config].
    now destruct (jstring_eqb (name (AppContext.field config)) fieldName).
  - simpl. repeat split.
  - simpl. intros f Hf Hn.
    apply in_map_iff in Hf as (g & <- & Hg).
    destruct (jstring_eqb (name g) fieldName) eqn:E.
    + apply toggled_categorical.
    + apply jstring_eqb_eq in Hn. congruence.
  - simpl. intros channel config Hc Hn.
    apply in_map_iff in Hc as ([k c] & Hkc & Hin).
    destruct (jstring_eqb (name (AppContext.field c)) fieldName) eqn:E;
      injection Hkc as <- <-.
    + apply toggled_categorical.
    + apply jstring_eqb_eq in Hn. congruence.
  - intros Hfields Hencodings.
    destruct state as [d fs es fl m c l er ps cur vm]. simpl in *.
    f_equal.
    + rewrite map_map. rewrite <- (map_id fs) at 2.
      apply map_ext_in. intros f Hf.
      destruct (jstring_eqb (name f) fieldName) eqn:E; simpl.
      * rewrite E. unfold AppContext.with_type. simpl.
        apply jstring_eqb_eq in E.
        rewrite toggled_twice by auto. now destruct f.
      * now rewrite E.
    + rewrite map_map. rewrite <- (map_id es) at 2.
      apply map_ext_in. intros [channel config] Hc.
      destruct (jstring_eqb (name (AppContext.field config)) fieldName)
        eqn:E; simpl.
      * rewrite E. unfold AppContext.with_type. simpl.
        apply jstring_eqb_eq in E.
        rewrite toggled_twice by eauto.
        destruct config as [[n t u] a tu so]. reflexivity.
      * now rewrite E.
Qed.

Lemma toggle_field_type_witness :
  let size := mkDetectedField (str "size") nominal 3 in
  let price := mkDetectedField (str "price") quantitative 9 in
  let state :=
    AppContext.appReducer
      (AppContext.appReducer AppContext.initialState
         (AppContext.SET_FIELDS [size; price]))
      (AppContext.ASSIGN_FIELD (str "y") price) in
  nth_error
    (AppContext.fields
       (AppContext.appReducer state (AppContext.TOGGLE_FIELD_TYPE (str "price"))))
    1
  = Some (mkDetectedField (str "price") ordinal 9)
  /\ AppContext.appReducer
       (AppContext.appReducer state (AppContext.TOGGLE_FIELD_TYPE (str "size")))
       (AppContext.TOGGLE_FIELD_TYPE (str "size"))
     = state.
Proof.
  intros size price state. split.
  - exact (proj1 (proj1 (toggle_field_type state (str "price")) 1 price
                    eq_refl) eq_refl).
  - apply (proj2 (proj2 (proj2 (proj2 (proj2 (proj2 (proj2
             (toggle_field_type state (str "size"))))))))).
    + intros f [<- | [<- | []]] H; [now right | discriminate H].
    + intros channel config [E | []] H. injection E as <- <-.
      discriminate H.
Defined.

(** X22 (appReducer): TOGGLE_FIELD_TYPE keeps the encodings in step with
    the field list: if the field of every encoding is one of the fields
    before, it is one of the fields after. *)
Theorem toggle_keeps_encodings_in_step state fieldName :
  (forall channel config,
      In (channel, config) (AppContext.encodings state) ->
      In (AppContext.field config) (AppContext.fields state)) ->
  forall channel config,
    In (channel, config)
       (AppContext.encodings
          (AppContext.appReducer state
             (AppContext.TOGGLE_FIELD_TYPE fieldName))) ->
    In (AppContext.field config)
       (AppContext.fields
          (AppContext.appReducer state
             (AppContext.TOGGLE_FIELD_TYPE fieldName))).
Proof.
  intros Hinv channel config. simpl. rewrite !in_map_iff.
  intros ([channel0 config0] & E & Hin).
  exists (AppContext.field config0). split; [| eauto].
  destruct (jstring_eqb (name (AppContext.field config0)) fieldName);
    injection E as <- <-; reflexivity.
Qed.

Lemma toggle_keeps_encodings_in_step_witness :
  let size := mkDetectedField (str "size") nominal 3 in
  let state :=
    AppContext.appReducer
      (AppContext.appReducer AppContext.initialState
         (AppContext.SET_FIELDS [size]))
      (AppContext.ASSIGN_FIELD (str "color") size) in
  let state' := AppContext.appReducer state
                  (AppContext.TOGGLE_FIELD_TYPE (str "size")) in
  option_map AppContext.field
    (AppContext.lookup (str "color") (AppContext.encodings state'))
  = Some (mkDetectedField (str "size") ordinal 3)
  /\ In (mkDetectedField (str "size") ordinal 3) (AppContext.fields state').
Proof.
  split; [reflexivity |].
  refine (toggle_keeps_encodings_in_step _ (str "size") _ (str "color")
            (AppContext.mkEncodingConfig
               (mkDetectedField (str "size") ordinal 3) None None None) _).
  - intros channel config [E | []]. injection E as <- <-. now left.
  - now left.
Defined.

(** X23 (appReducer): SET_AGGREGATE, SET_TIME_UNIT and SET_SORT never
    assign a channel, free one or change its field, and on a channel
    without an encoding they leave the state as it is. *)
Theorem setters_keep_channels state channel x channel' :
  let same_fields action :=
    option_map AppContext.field
      (AppContext.lookup channel'
         (AppContext.encodings (AppContext.appReducer state action)))
    = option_map AppContext.field
        (AppContext.lookup channel' (AppContext.encodings state)) in
  let idle action :=
    AppContext.lookup channel (AppContext.encodings state) = None ->
    AppContext.appReducer state action = state in
  (same_fields (AppContext.SET_AGGREGATE channel x) /\
   same_fields (AppContext.SET_TIME_UNIT channel x) /\
   same_fields (AppContext.SET_SORT channel x)) /\
  (idle (AppContext.SET_AGGREGATE channel x) /\
   idle (AppContext.SET_TIME_UNIT channel x) /\
   idle (AppContext.SET_SORT channel x)).
Proof.
  cbv zeta. split.
  - repeat split; simpl;
      destruct (AppContext.lookup channel (AppContext.encodings state))
        as [config |] eqn:E; try reflexivity; simpl;
      (destruct (list_eq_dec N.eq_dec channel' channel) as [-> | Hne];
       [ rewrite lookup_assign_same, E; reflexivity
       | rewrite lookup_assign_other by assumption; reflexivity ]).
  - repeat split; intros E; simpl; now rewrite E.
Qed.

Lemma setters_keep_channels_witness :
  AppContext.appReducer AppContext.initialState
    (AppContext.SET_SORT (str "x") (Some (str "ascending")))
  = AppContext.initialState.
Proof.
  exact (proj2 (proj2 (proj2 (setters_keep_channels AppContext.initialState
                                (str "x") (Some (str "ascending")) (str "y"))))
               eq_refl).
Defined.

(** X24 (appReducer): after ASSIGN_FIELD the channel holds the field with
    no aggregate and no sort, and the time unit 'year' exactly when the
    field is temporal; after REMOVE_FIELD the channel holds nothing; the
    other channels are as before, and assigning a free channel then
    removing it gives the state back. *)
Theorem assign_remove_field state channel f :
  AppContext.lookup channel
    (AppContext.encodings
       (AppContext.appReducer state (AppContext.ASSIGN_FIELD channel f)))
  = Some (AppContext.mkEncodingConfig f None
            (match type f with temporal => Some (str "year") | _ => None end)
            None) /\
  AppContext.lookup channel
    (AppContext.encodings
       (AppContext.appReducer state (AppContext.REMOVE_FIELD channel)))
  = None /\
  (forall channel', channel' <> channel ->
     AppContext.lookup channel'
       (AppContext.encodings
          (AppContext.appReducer state (AppContext.ASSIGN_FIELD channel f)))
     = AppContext.lookup channel' (AppContext.encodings state) /\
     AppContext.lookup channel'
       (AppContext.encodings
          (AppContext.appReducer state (AppContext.REMOVE_FIELD channel)))
     = AppContext.lookup channel' (AppContext.encodings state)) /\
  (AppContext.lookup channel (AppContext.encodings state) = None ->
   AppContext.appReducer
     (AppContext.appReducer state (AppContext.ASSIGN_FIELD channel f))
     (AppContext.REMOVE_FIELD channel) = state).
Proof.
  repeat split; simpl.
  - rewrite lookup_assign_same. now destruct (type f).
  - apply lookup_remove_same.
  - now apply lookup_assign_other.
  - now apply lookup_remove_other.
  - intros H. unfold AppContext.with_encodings. simpl.
    rewrite remove_assign_fresh by assumption. now destruct state.
Qed.

Lemma assign_remove_field_witness :
  let f := mkDetectedField (str "date") temporal 12 in
  AppContext.appReducer
    (AppContext.appReducer AppContext.initialState
       (AppContext.ASSIGN_FIELD (str "x") f))
    (AppContext.REMOVE_FIELD (str "x"))
  = AppContext.initialState.
Proof.
  exact (proj2 (proj2 (proj2 (assign_remove_field AppContext.initialState
                                (str "x")
                                (mkDetectedField (str "date") temporal 12))))
               eq_refl).
Defined.

(** X25 (appReducer): after DELETE_PROJECT no project of the list has the
    deleted id and the current project is not the deleted one; the other
    projects stay, in their order, and so does another current project. *)
Theorem delete_project state id :
  let state' := AppContext.appReducer state (AppContext.DELETE_PROJECT id) in
  ~ In id (map AppContext.meta_id (AppContext.projects state')) /\
  AppContext.currentProjectId state' <> Some id /\
  AppContext.projects state'
  = filter (fun p => negb (jstring_eqb (AppContext.meta_id p) id))
           (AppContext.projects state) /\
  (forall other, other <> id ->
     AppContext.currentProjectId state = Some other ->
     AppContext.currentProjectId state' = Some other).
Proof.
  cbv zeta. simpl. repeat split.
  - rewrite in_map_iff. intros (p & Hp & Hin).
    apply filter_In in Hin as [_ Hin].
    rewrite Hp, jstring_eqb_refl in Hin. discriminate Hin.
  - destruct (AppContext.currentProjectId state) as [current |];
      [| discriminate].
    destruct (jstring_eqb current id) eqn:E; [discriminate |].
    intros H. injection H as ->. rewrite jstring_eqb_refl in E.
    discriminate E.
  - intros other Hne ->. now rewrite jstring_eqb_neq.
Qed.

Lemma delete_project_witness :
  let state :=
    AppContext.appReducer AppContext.initialState
      (AppContext.SAVE_PROJECT (str "A") (str "p1")
         [AppContext.mkProjectMetadata (str "p1") (str "A") (of_Z 1);
          AppContext.mkProjectMetadata (str "p2") (str "B") (of_Z 2)]) in
  let state' := AppContext.appReducer state
                  (AppContext.DELETE_PROJECT (str "p1")) in
  AppContext.currentProjectId state' = None /\
  ~ In (str "p1") (map AppContext.meta_id (AppContext.projects state')).
Proof.
  split; [reflexivity |].
  exact (proj1 (delete_project _ (str "p1"))).
Defined.

(** X26 (loadData, appReducer, detectAllFields): after loadData the state
    holds the new rows and the descriptors detected on them, one per key
    of the first row; encodings, filters, chart title and error are
    cleared, the mark type is 'auto' and loading is over; the projects,
    the current project and the view mode are kept. *)
Theorem loadData_state state rows :
  let state' := AppContext.loadData state rows in
  AppContext.data state' = rows /\
  AppContext.fields state' = detectAllFields rows /\
  map name (AppContext.fields state') = Object_keys (hd [] rows) /\
  AppContext.encodings state' = [] /\
  AppContext.filters state' = [] /\
  AppContext.markType state' = str "auto" /\
  AppContext.chartTitle state' = None /\
  AppContext.isLoading state' = false /\
  AppContext.error state' = None /\
  AppContext.projects state' = AppContext.projects state /\
  AppContext.currentProjectId state' = AppContext.currentProjectId state /\
  AppContext.viewMode state' = AppContext.viewMode state.
Proof.
  cbv zeta. unfold AppContext.loadData. simpl.
  repeat split.
  destruct rows as [| first rest]; [reflexivity |].
  unfold detectAllFields. rewrite map_map. simpl. apply map_id.
Qed.


(* ================================================================== *)
(** * The order of numbers *)

Section NumberOrder.

Ltac order_cases :=
  unfold lt, le, SFltb, SFleb, SFcompare, order_key, lex_le, lex_lt;
  repeat match goal with
         | s : bool |- _ => destruct s
         end;
  repeat match goal with
         | |- context [Z.compare ?a ?b] => destruct (Z.compare_spec a b)
         | |- context [Pos.compare_cont Eq ?a ?b] =>
             change (Pos.compare_cont Eq a b) with (Pos.compare a b);
             destruct (Pos.compare_spec a b)
         end;
  simpl; split; intros; try discriminate; try reflexivity; try lia.

Lemma le_order_key x y :
  isNaN x = false -> isNaN y = false ->
  le x y = true <-> lex_le (order_key x) (order_key y).
Proof.
  destruct x as [sx | sx | | sx mx ex], y as [sy | sy | | sy my ey];
    intros Hx Hy; try discriminate; order_cases.
Qed.

Lemma lt_order_key x y :
  isNaN x = false -> isNaN y = false ->
  lt x y = true <-> lex_lt (order_key x) (order_key y).
Proof.
  destruct x as [sx | sx | | sx mx ex], y as [sy | sy | | sy my ey];
    intros Hx Hy; try discriminate; order_cases.
Qed.

Lemma le_trans x y z :
  isNaN x = false -> isNaN y = false -> isNaN z = false ->
  le x y = true -> le y z = true -> le x z = true.
Proof.
  intros Hx Hy Hz. rewrite !le_order_key by assumption.
  unfold lex_le.
  destruct (order_key x) as [[a1 a2] a3], (order_key y) as [[b1 b2] b3],
           (order_key z) as [[c1 c2] c3].
  lia.
Qed.

Lemma le_refl x : isNaN x = false -> le x x = true.
Proof.
  intros Hx. rewrite le_order_key by assumption.
  unfold lex_le. destruct (order_key x) as [[a1 a2] a3]. lia.
Qed.

Lemma min2_spec a b :
  isNaN a = false -> isNaN b = false ->
  isNaN (min2 a b) = false /\
  le (min2 a b) a = true /\ le (min2 a b) b = true.
Proof.
  intros Ha Hb. unfold min2. rewrite Ha, Hb. simpl.
  destruct (lt b a) eqn:E1.
  - apply lt_order_key in E1; try assumption.
    repeat split; try assumption; [| now apply le_refl].
    apply le_order_key; try assumption.
    unfold lex_lt, lex_le in *.
    destruct (order_key a) as [[a1 a2] a3], (order_key b) as [[b1 b2] b3].
    lia.
  - destruct (lt a b) eqn:E2.
    + apply lt_order_key in E2; try assumption.
      repeat split; try assumption; [now apply le_refl |].
      apply le_order_key; try assumption.
      unfold lex_lt, lex_le in *.
      destruct (order_key a) as [[a1 a2] a3], (order_key b) as [[b1 b2] b3].
      lia.
    + assert (Hab : le a b = true /\ le b a = true).
      { rewrite !le_order_key by assumption.
        assert (H1 : ~ lex_lt (order_key b) (order_key a))
          by (rewrite <- lt_order_key by assumption; congruence).
        assert (H2 : ~ lex_lt (order_key a) (order_key b))
          by (rewrite <- lt_order_key by assumption; congruence).
        unfold lex_lt, lex_le in *.
        destruct (order_key a) as [[a1 a2] a3], (order_key b) as [[b1 b2] b3].
        lia. }
      destruct Hab as [Hab Hba].
      destruct a as [[] | | |], b as [[] | | |];
        try discriminate; repeat split; try assumption;
        now apply le_refl.
Qed.

Lemma max2_spec a b :
  isNaN a = false -> isNaN b = false ->
  isNaN (max2 a b) = false /\
  le a (max2 a b) = true /\ le b (max2 a b) = true.
Proof.
  intros Ha Hb. unfold max2. rewrite Ha, Hb. simpl.
  destruct (lt a b) eqn:E1.
  - apply lt_order_key in E1; try assumption.
    repeat split; try assumption; [| now apply le_refl].
    apply le_order_key; try assumption.
    unfold lex_lt, lex_le in *.
    destruct (order_key a) as [[a1 a2] a3], (order_key b) as [[b1 b2] b3].
    lia.
  - destruct (lt b a) eqn:E2.
    + apply lt_order_key in E2; try assumption.
      repeat split; try assumption; [now apply le_refl |].
      apply le_order_key; try assumption.
      unfold lex_lt, lex_le in *.
      destruct (order_key a) as [[a1 a2] a3], (order_key b) as [[b1 b2] b3].
      lia.
    + assert (Hab : le a b = true /\ le b a = true).
      { rewrite !le_order_key by assumption.
        assert (H1 : ~ lex_lt (order_key b) (order_key a))
          by (rewrite <- lt_order_key by assumption; congruence).
        assert (H2 : ~ lex_lt (order_key a) (order_key b))
          by (rewrite <- lt_order_key by assumption; congruence).
        unfold lex_lt, lex_le in *.
        destruct (order_key a) as [[a1 a2] a3], (order_key b) as [[b1 b2] b3].
        lia. }
      destruct Hab as [Hab Hba].
      destruct a as [[] | | |], b as [[] | | |];
        try discriminate; repeat split; try assumption;
        now apply le_refl.
Qed.

End NumberOrder.


(* ================================================================== *)
(** * Properties of the filters and of the table *)

Section FilterFacts.
Import AppContext.

Variable NumberToString : number -> jstring.
Variable FunctionToString : builtin -> jstring.

Lemma filter_rows_filter fs rows shown :
  filter_rows NumberToString FunctionToString rows fs = Some shown ->
  shown = filter (shown_by NumberToString FunctionToString fs) rows.
Proof.
  revert shown. induction rows as [| r rows IH]; simpl; intros shown H.
  - now injection H as <-.
  - unfold shown_by at 1.
    destruct (every_filter NumberToString FunctionToString r fs) as [keep |];
      [| discriminate H].
    destruct (filter_rows NumberToString FunctionToString rows fs) as [kept |];
      [| discriminate H].
    injection H as <-. rewrite (IH kept eq_refl). now destruct keep.
Qed.

Lemma every_filter_true r fs :
  every_filter NumberToString FunctionToString r fs = Some true <->
  forall f, In f fs -> filter_keeps NumberToString FunctionToString r f = Some true.
Proof.
  induction fs as [| f fs IH]; simpl.
  - split; [intros _ f [] | reflexivity].
  - destruct (filter_keeps NumberToString FunctionToString r f) as [[|] |] eqn:E.
    + rewrite IH. split.
      * intros H g [<- | Hg]; auto.
      * intros H g Hg. apply H. now right.
    + split; [discriminate |]. intros H.
      specialize (H f (or_introl eq_refl)). congruence.
    + split; [discriminate |]. intros H.
      specialize (H f (or_introl eq_refl)). congruence.
Qed.

Lemma every_filter_total r fs :
  (forall f, In f fs -> filter_keeps NumberToString FunctionToString r f <> None) ->
  every_filter NumberToString FunctionToString r fs <> None.
Proof.
  induction fs as [| f fs IH]; simpl; intros H; [discriminate |].
  destruct (filter_keeps NumberToString FunctionToString r f) as [[|] |] eqn:E.
  - apply IH. intros g Hg. apply H. now right.
  - discriminate.
  - exfalso. apply (H f); auto.
Qed.

Lemma filter_rows_total rows fs :
  (forall r f, In r rows -> In f fs ->
               filter_keeps NumberToString FunctionToString r f <> None) ->
  filter_rows NumberToString FunctionToString rows fs <> None.
Proof.
  induction rows as [| r rows IH]; simpl; intros H; [discriminate |].
  assert (He : every_filter NumberToString FunctionToString r fs <> None)
    by (apply every_filter_total; intros f Hf; apply H; auto).
  destruct (every_filter NumberToString FunctionToString r fs) as [keep |]; [| congruence].
  assert (Hr : filter_rows NumberToString FunctionToString rows fs <> None)
    by (apply IH; intros r' f Hr' Hf; apply H; auto).
  destruct (filter_rows NumberToString FunctionToString rows fs); [discriminate | congruence].
Qed.

Lemma filter_keeps_has_value r f :
  filter_keeps NumberToString FunctionToString r f = Some true ->
  get r (fieldName f) <> VUndefined /\ get r (fieldName f) <> VNull.
Proof.
  unfold filter_keeps.
  destruct (get r (fieldName f)); simpl; try discriminate;
    intros _; split; discriminate.
Qed.

(** A filter can only throw when it is a selection without a selected
    list. *)
Lemma filter_keeps_total r f :
  (jstring_eqb (filterType f) (str "selection") = true ->
   exists selected available,
     value f = SelectionFilterValue selected available) ->
  filter_keeps NumberToString FunctionToString r f <> None.
Proof.
  intros H. unfold filter_keeps.
  destruct (strict_eq _ _ || strict_eq _ _); [discriminate |].
  destruct (jstring_eqb (filterType f) (str "range")); [discriminate |].
  destruct (jstring_eqb (filterType f) (str "selection"));
    [| discriminate].
  destruct (H eq_refl) as (selected & available & ->). discriminate.
Qed.

(** ** [getFieldRange] bounds the numbers of the column *)

Lemma range_fold fieldName rows :
  forall mn mx,
    isNaN mn = false -> isNaN mx = false ->
    let result := fold_left (range_step fieldName) rows (mn, mx) in
    isNaN (fst result) = false /\ isNaN (snd result) = false /\
    le (fst result) mn = true /\ le mx (snd result) = true /\
    forall r x, In r rows -> get r fieldName = VNum x -> isNaN x = false ->
                le (fst result) x = true /\ le x (snd result) = true.
Proof.
  induction rows as [| r rows IH]; intros mn mx Hmn Hmx.
  - simpl. split; [assumption |]. split; [assumption |].
    split; [apply le_refl; assumption |].
    split; [apply le_refl; assumption |]. intros r x [].
  - change (fold_left (range_step fieldName) (r :: rows) (mn, mx))
      with (fold_left (range_step fieldName) rows
                      (range_step fieldName (mn, mx) r)).
    assert (Hstep : exists mn' mx',
               range_step fieldName (mn, mx) r = (mn', mx') /\
               isNaN mn' = false /\ isNaN mx' = false /\
               le mn' mn = true /\ le mx mx' = true /\
               forall x, get r fieldName = VNum x -> isNaN x = false ->
                         le mn' x = true /\ le x mx' = true).
    { unfold range_step.
      pose proof (le_refl mn Hmn) as Rmn.
      pose proof (le_refl mx Hmx) as Rmx.
      destruct (get r fieldName) as [| | b | val | s | o];
        try (exists mn, mx; do 5 (split; [auto |]); discriminate).
      destruct (isNaN val) eqn:Ev; simpl.
      - exists mn, mx. do 5 (split; [auto |]).
        intros x E; injection E as <-; congruence.
      - destruct (min2_spec mn val Hmn Ev) as (H1 & H2 & H3).
        destruct (max2_spec mx val Hmx Ev) as (H4 & H5 & H6).
        exists (min2 mn val), (max2 mx val).
        do 5 (split; [auto |]).
        intros x E; injection E as <-; auto. }
    destruct Hstep as (mn' & mx' & -> & Hn1 & Hn2 & Hl1 & Hl2 & Hx).
    destruct (IH mn' mx' Hn1 Hn2) as (R1 & R2 & R3 & R4 & R5).
    cbv zeta.
    set (result := fold_left (range_step fieldName) rows (mn', mx')) in *.
    split; [assumption |]. split; [assumption |].
    split; [now apply (le_trans _ mn') |].
    split; [now apply (le_trans _ mx') |].
    intros r0 x [<- | Hin] Hg Hnan; [| now apply (R5 r0 x)].
    destruct (Hx x Hg Hnan) as [Hx1 Hx2]. split.
    + now apply (le_trans _ mn').
    + now apply (le_trans _ mx').
Qed.

Lemma getFieldRange_bounds state fieldName r x :
  In r (data state) -> get r fieldName = VNum x -> isNaN x = false ->
  le (fst (getFieldRange state fieldName)) x = true /\
  le x (snd (getFieldRange state fieldName)) = true.
Proof.
  intros Hr Hg Hx. unfold getFieldRange.
  change (fun (acc : number * number) r0 =>
            let '(min, max) := acc in
            match get r0 fieldName with
            | VNum val =>
                if negb (isNaN val) then (min2 min val, max2 max val)
                else (min, max)
            | _ => (min, max)
            end)
    with (range_step fieldName).
  destruct (range_fold fieldName (data state) Infinity NegInfinity
              eq_refl eq_refl) as (H1 & H2 & _ & _ & H5).
  destruct (H5 r x Hr Hg Hx) as [Hlo Hhi].
  destruct (fold_left (range_step fieldName) (data state)
                      (Infinity, NegInfinity)) as [mn mx].
  simpl in *. split.
  - destruct (num_eq mn Infinity) eqn:E; [| assumption].
    assert (mn = Infinity) as ->
      by (destruct mn as [[] | [] | | [] ? ?]; try discriminate; reflexivity).
    now apply (le_trans _ Infinity).
  - destruct (num_eq mx NegInfinity) eqn:E; [| assumption].
    assert (mx = NegInfinity) as ->
      by (destruct mx as [[] | [] | | [] ? ?]; try discriminate; reflexivity).
    now apply (le_trans _ NegInfinity).
Qed.

(** ** [getUniqueValues] holds the text of every value of the column *)

Lemma insert_sorted_In x y l : In y (insert_sorted x l) <-> y = x \/ In y l.
Proof.
  induction l as [| z l IH]; simpl; [intuition |].
  destruct (jstring_ltb z x); simpl; rewrite ?IH; intuition.
Qed.

Lemma sort_strings_In y l : In y (sort_strings l) <-> In y l.
Proof.
  induction l as [| x l IH]; simpl; [tauto |].
  rewrite insert_sorted_In, IH. intuition.
Qed.

Lemma Set_add_keeps members v w : In w members -> In w (Set_add members v).
Proof.
  unfold Set_add. destruct (existsb _ _); [auto |].
  intros H. apply in_or_app. now left.
Qed.

Lemma Set_add_text members s : In (VStr s) (Set_add members (VStr s)).
Proof.
  unfold Set_add.
  destruct (existsb (same_value_zero (VStr s)) members) eqn:E.
  - apply existsb_exists in E as (w & Hw & Hs).
    destruct w; simpl in Hs; try discriminate.
    apply jstring_eqb_eq in Hs. now subst.
  - apply in_or_app. right. now left.
Qed.

Lemma getUniqueValues_In state fieldName r :
  In r (data state) ->
  get r fieldName <> VNull -> get r fieldName <> VUndefined ->
  In (String_ NumberToString FunctionToString (get r fieldName))
     (getUniqueValues NumberToString FunctionToString state fieldName).
Proof.
  intros Hr Hnull Hundef. unfold getUniqueValues.
  apply sort_strings_In, strings_of_In.
  generalize (@nil Js.value).
  induction (data state) as [| r0 rows IH]; [destruct Hr |].
  intros members. simpl fold_left.
  assert (Hkeep : forall rows' acc w,
             In w acc ->
             In w (fold_left
                     (fun members r =>
                        let val := get r fieldName in
                        if negb (strict_eq val VNull)
                           && negb (strict_eq val VUndefined)
                        then Set_add members
                               (VStr (String_ NumberToString FunctionToString val))
                        else members) rows' acc)).
  { induction rows' as [| r' rows' IH']; intros acc w Hw; simpl; auto.
    apply IH'. destruct (_ && _); auto using Set_add_keeps. }
  destruct Hr as [-> | Hr]; [| now apply IH].
  apply Hkeep.
  replace (negb (strict_eq (get r fieldName) VNull)
           && negb (strict_eq (get r fieldName) VUndefined)) with true.
  - apply Set_add_text.
  - destruct (get r fieldName); simpl; congruence.
Qed.

End FilterFacts.


Section TableFacts.
Import AppContext.

Lemma filter_true {A} (l : list A) : filter (fun _ => true) l = l.
Proof. induction l as [| a l IH]; simpl; congruence. Qed.

Lemma every_filter_has_value NumberToString FunctionToString r fs :
  (forall f, In f fs ->
             filterType f <> str "range" /\ filterType f <> str "selection") ->
  every_filter NumberToString FunctionToString r fs = Some (forallb (has_value r) fs).
Proof.
  induction fs as [| f fs IH]; intros H; [reflexivity |].
  destruct (H f (or_introl eq_refl)) as [Hrange Hsel].
  simpl. unfold filter_keeps, has_value at 1.
  rewrite (jstring_eqb_neq _ _ Hrange), (jstring_eqb_neq _ _ Hsel).
  destruct (strict_eq _ _ || strict_eq _ _); simpl; [reflexivity |].
  apply IH. intros g Hg. apply H. now right.
Qed.

Lemma filter_rows_has_value NumberToString FunctionToString rows fs :
  (forall f, In f fs ->
             filterType f <> str "range" /\ filterType f <> str "selection") ->
  filter_rows NumberToString FunctionToString rows fs
  = Some (filter (fun r => forallb (has_value r) fs) rows).
Proof.
  intros H. induction rows as [| r rows IH]; [reflexivity |].
  simpl. rewrite (every_filter_has_value _ _ r fs H), IH.
  now destruct (forallb (has_value r) fs).
Qed.

(** The filter [addFilter] builds keeps the rows its field type expects. *)
Lemma newFilter_keeps NumberToString FunctionToString state f r :
  In r (data state) ->
  (if FieldType_eqb (type f) quantitative
   then exists x, get r (name f) = VNum x /\ isNaN x = false
   else get r (name f) <> VUndefined /\ get r (name f) <> VNull) ->
  filter_keeps NumberToString FunctionToString r (newFilter NumberToString FunctionToString state f)
  = Some true.
Proof.
  intros Hr Hv. unfold newFilter.
  destruct (FieldType_eqb (type f) quantitative).
  - destruct Hv as (x & Hx & Hnan).
    destruct (getFieldRange_bounds state (name f) r x Hr Hx Hnan)
      as [Hlo Hhi].
    unfold filter_keeps. cbn [fieldName filterType value].
    rewrite Hx. cbn [strict_eq orb].
    change (jstring_eqb (str "range") (str "range")) with true.
    cbv iota. cbn [value_min value_max strict_eq orb Number_].
    unfold ge, Js.le in *. now rewrite Hlo, Hhi.
  - destruct Hv as [Hundef Hnull].
    assert (Hpresent : strict_eq (get r (name f)) VUndefined
                       || strict_eq (get r (name f)) VNull = false)
      by (destruct (get r (name f)); simpl; congruence).
    destruct (FieldType_eqb (type f) temporal).
    + unfold filter_keeps. cbn [fieldName filterType value].
      rewrite Hpresent. reflexivity.
    + unfold filter_keeps. cbn [fieldName filterType value].
      rewrite Hpresent.
      change (jstring_eqb (str "selection") (str "range")) with false.
      change (jstring_eqb (str "selection") (str "selection")) with true.
      cbv iota. f_equal. apply existsb_exists.
      exists (String_ NumberToString FunctionToString (get r (name f))). split.
      * now apply getUniqueValues_In.
      * apply jstring_eqb_refl.
Qed.

Lemma newFilter_well_formed NumberToString FunctionToString state f :
  filterType (newFilter NumberToString FunctionToString state f) = str "selection" ->
  exists selected available,
    value (newFilter NumberToString FunctionToString state f)
    = SelectionFilterValue selected available.
Proof.
  unfold newFilter.
  destruct (FieldType_eqb (type f) quantitative); [discriminate |].
  destruct (FieldType_eqb (type f) temporal); [discriminate |].
  intros _. do 2 eexists. reflexivity.
Qed.

(** A row without a property of its own named 'toString' reads the
    inherited function there, and a 'date-range' filter keeps it. *)
Lemma displayData_inherited NumberToString FunctionToString :
  let rows := [[(str "toString", VStr (str "a"))]; []] in
  let f := mkFilterConfig (str "toString") temporal (str "date-range")
             (DateRangeFilterValue None None) in
  let state := appReducer (appReducer initialState (SET_DATA rows))
                          (ADD_FILTER f) in
  displayData NumberToString FunctionToString state None = Some rows.
Proof. reflexivity. Qed.

End TableFacts.

(** X27 (DataTableView, displayData): when the table computes its rows
    from the filters, they are the loaded rows that every filter keeps,
    in their order; each of them reads a value, its own or inherited,
    that is neither [undefined] nor [null] in the field of every
    filter. *)
Theorem displayData_filtered NumberToString FunctionToString state shown :
  AppContext.displayData NumberToString FunctionToString state None = Some shown ->
  shown = filter (AppContext.shown_by NumberToString FunctionToString
                    (AppContext.filters state))
                 (AppContext.data state) /\
  forall r, In r shown ->
    In r (AppContext.data state) /\
    forall f, In f (AppContext.filters state) ->
      AppContext.filter_keeps NumberToString FunctionToString r f = Some true /\
      get r (AppContext.fieldName f) <> VUndefined /\
      get r (AppContext.fieldName f) <> VNull.
Proof.
  intros H.
  assert (Hshown : shown = filter (AppContext.shown_by NumberToString FunctionToString
                                     (AppContext.filters state))
                                  (AppContext.data state)).
  { unfold AppContext.displayData in H.
    destruct (AppContext.filters state) as [| f fs] eqn:Ef.
    - simpl in H. injection H as <-.
      symmetry. apply filter_true.
    - simpl in H. now apply filter_rows_filter. }
  split; [exact Hshown |].
  intros r Hr. rewrite Hshown in Hr. apply filter_In in Hr as [Hr Hkeep].
  split; [exact Hr |]. intros f Hf.
  unfold AppContext.shown_by in Hkeep.
  destruct (AppContext.every_filter NumberToString FunctionToString r
              (AppContext.filters state)) as [[|] |] eqn:E;
    try discriminate Hkeep.
  pose proof (proj1 (every_filter_true NumberToString FunctionToString r _) E f Hf) as Hk.
  split; [exact Hk |]. now apply (filter_keeps_has_value NumberToString FunctionToString).
Qed.

Lemma displayData_filtered_witness :
  let NumberToString := fun _ : number => str "0" in
  let FunctionToString := fun _ : builtin => str "function () { [native code] }" in
  let rows := [[(str "region", VStr (str "north"))];
               [(str "region", VNull)];
               [(str "region", VStr (str "south"))]] in
  let f := AppContext.mkFilterConfig (str "region") nominal (str "selection")
             (AppContext.SelectionFilterValue [str "south"]
                [str "north"; str "south"]) in
  let state := AppContext.appReducer
                 (AppContext.appReducer AppContext.initialState
                    (AppContext.SET_DATA rows))
                 (AppContext.ADD_FILTER f) in
  AppContext.displayData NumberToString FunctionToString state None
  = Some [[(str "region", VStr (str "south"))]]
  /\ [[(str "region", VStr (str "south"))]]
     = filter (AppContext.shown_by NumberToString FunctionToString (AppContext.filters state))
              (AppContext.data state).
Proof.
  intros NumberToString FunctionToString rows f state.
  assert (H : AppContext.displayData NumberToString FunctionToString state None
              = Some [[(str "region", VStr (str "south"))]])
    by reflexivity.
  exact (conj H (proj1 (displayData_filtered NumberToString FunctionToString state _ H))).
Defined.

(** X28 (DataTableView, displayData): computing the rows of the table
    throws only on a filter of type 'selection' whose value has no
    selected list: when every such filter carries one, the table has its
    rows. *)
Theorem displayData_never_throws NumberToString FunctionToString state transformedData :
  (forall f, In f (AppContext.filters state) ->
             AppContext.filterType f = str "selection" ->
             exists selected available,
               AppContext.value f
               = AppContext.SelectionFilterValue selected available) ->
  exists shown,
    AppContext.displayData NumberToString FunctionToString state transformedData = Some shown.
Proof.
  intros H. unfold AppContext.displayData.
  destruct transformedData as [rows |]; [eauto |].
  destruct (length (AppContext.filters state) =? 0); [eauto |].
  destruct (AppContext.filter_rows NumberToString FunctionToString (AppContext.data state)
              (AppContext.filters state)) as [shown |] eqn:E; [eauto |].
  exfalso. revert E. apply filter_rows_total. intros r f _ Hf.
  apply filter_keeps_total. intros Hsel. apply (H f Hf).
  now apply jstring_eqb_eq.
Qed.

Lemma displayData_never_throws_witness :
  let NumberToString := fun _ : number => str "7" in
  let FunctionToString := fun _ : builtin => str "function () { [native code] }" in
  let f := AppContext.mkFilterConfig (str "region") nominal (str "selection")
             (AppContext.SelectionFilterValue [str "south"] [str "south"]) in
  let state := AppContext.appReducer
                 (AppContext.appReducer AppContext.initialState
                    (AppContext.SET_DATA [[(str "region", VNum (of_Z 7))]]))
                 (AppContext.ADD_FILTER f) in
  exists shown,
    AppContext.displayData NumberToString FunctionToString state None = Some shown.
Proof.
  intros NumberToString FunctionToString f state.
  apply (displayData_never_throws NumberToString FunctionToString state None).
  intros g [<- | []] _. now exists [str "south"], [str "south"].
Defined.

(** X29 (DataTableView, displayData): a filter whose type is neither
    'range' nor 'selection', as the 'date-range' filters are, keeps every
    row that reads a value, its own or inherited, other than [undefined]
    and [null] in its field, whatever its bounds: with such filters only,
    the table shows the rows that read such a value in the field of each
    of them. *)
Theorem other_filters_only_need_value NumberToString FunctionToString state :
  (forall f, In f (AppContext.filters state) ->
             AppContext.filterType f <> str "range" /\
             AppContext.filterType f <> str "selection") ->
  AppContext.displayData NumberToString FunctionToString state None
  = Some (filter (fun r => forallb (AppContext.has_value r)
                                   (AppContext.filters state))
                 (AppContext.data state)).
Proof.
  intros H. unfold AppContext.displayData.
  destruct (AppContext.filters state) as [| f fs] eqn:Ef.
  - simpl. now rewrite filter_true.
  - simpl length. cbv iota beta. change (S (length fs) =? 0) with false.
    cbv iota. now apply filter_rows_has_value.
Qed.

Lemma other_filters_only_need_value_witness :
  let NumberToString := fun _ : number => str "0" in
  let FunctionToString := fun _ : builtin => str "function () { [native code] }" in
  let rows := [[(str "day", VStr (str "2024-01-01"))];
               [(str "day", VNull)];
               [(str "other", VNum (of_Z 1))];
               [(str "day", VStr (str "1999-12-31"))]] in
  let f := AppContext.mkFilterConfig (str "day") temporal (str "date-range")
             (AppContext.DateRangeFilterValue (Some (str "2024-01-01"))
                (Some (str "2024-12-31"))) in
  let state := AppContext.appReducer
                 (AppContext.appReducer AppContext.initialState
                    (AppContext.SET_DATA rows))
                 (AppContext.ADD_FILTER f) in
  AppContext.displayData NumberToString FunctionToString state None
  = Some [[(str "day", VStr (str "2024-01-01"))];
          [(str "day", VStr (str "1999-12-31"))]].
Proof.
  intros NumberToString FunctionToString rows f state.
  apply (other_filters_only_need_value NumberToString FunctionToString state).
  intros g [<- | []]. split; discriminate.
Defined.

(** X30 (addFilter, getFieldRange, getUniqueValues, displayData): the
    first filter [addFilter] puts on a field hides no row the type of the
    field expects: for a quantitative field every row whose value is a
    number other than NaN stays in the table, for the other types every
    row that has a value. *)
Theorem addFilter_keeps_rows NumberToString FunctionToString state f r :
  AppContext.filters state = [] ->
  In r (AppContext.data state) ->
  (if AppContext.FieldType_eqb (type f) quantitative
   then exists x, get r (name f) = VNum x /\ isNaN x = false
   else get r (name f) <> VUndefined /\ get r (name f) <> VNull) ->
  exists shown,
    AppContext.displayData NumberToString FunctionToString
      (AppContext.addFilter NumberToString FunctionToString state f) None = Some shown /\
    In r shown.
Proof.
  intros Hfs Hr Hv.
  assert (Hstate : AppContext.addFilter NumberToString FunctionToString state f
                   = AppContext.with_filters state
                       [AppContext.newFilter NumberToString FunctionToString state f]).
  { unfold AppContext.addFilter, AppContext.appReducer. now rewrite Hfs. }
  rewrite Hstate. unfold AppContext.displayData.
  replace (AppContext.filters (AppContext.with_filters state
             [AppContext.newFilter NumberToString FunctionToString state f]))
    with [AppContext.newFilter NumberToString FunctionToString state f] by reflexivity.
  replace (AppContext.data (AppContext.with_filters state
             [AppContext.newFilter NumberToString FunctionToString state f]))
    with (AppContext.data state) by reflexivity.
  change (length [AppContext.newFilter NumberToString FunctionToString state f] =? 0)
    with false. cbv iota.
  destruct (AppContext.filter_rows NumberToString FunctionToString (AppContext.data state)
              [AppContext.newFilter NumberToString FunctionToString state f])
    as [shown |] eqn:E.
  - exists shown. split; [reflexivity |].
    rewrite (filter_rows_filter NumberToString FunctionToString _ _ _ E).
    apply filter_In. split; [exact Hr |].
    unfold AppContext.shown_by.
    replace (AppContext.every_filter NumberToString FunctionToString r
               [AppContext.newFilter NumberToString FunctionToString state f])
      with (Some true); [reflexivity |].
    symmetry. apply every_filter_true. intros g [<- | []].
    now apply newFilter_keeps.
  - exfalso. revert E. apply filter_rows_total. intros r' g _ [<- | []].
    apply filter_keeps_total. intros Hsel.
    apply newFilter_well_formed. now apply jstring_eqb_eq.
Qed.

Lemma addFilter_keeps_rows_witness :
  let NumberToString := fun _ : number => str "0" in
  let FunctionToString := fun _ : builtin => str "function () { [native code] }" in
  let rows := [[(str "price", VNum (of_Z 3))];
               [(str "price", VNum (of_Z 12))]] in
  let state := AppContext.appReducer AppContext.initialState
                 (AppContext.SET_DATA rows) in
  let f := mkDetectedField (str "price") quantitative 2 in
  AppContext.filters state = [] /\
  exists shown,
    AppContext.displayData NumberToString FunctionToString
      (AppContext.addFilter NumberToString FunctionToString state f) None = Some shown /\
    In [(str "price", VNum (of_Z 12))] shown.
Proof.
  intros NumberToString FunctionToString rows state f. split; [reflexivity |].
  apply (addFilter_keeps_rows NumberToString FunctionToString state f
           [(str "price", VNum (of_Z 12))] eq_refl).
  - right. now left.
  - exists (of_Z 12). split; reflexivity.
Defined.
